(** * unicorn-lua: the engine object lifecycle of [src/engine.c]

    A shallow embedding of the C functions of [engine.c] over a model of
    the host interpreter state ([lua_State]): the value stack of the running
    C function, the heap of tables and full userdata, the registry table,
    and the list of calls made so far to the two collaborators (the native
    emulation library and the hook manager). *)

From Stdlib Require Import ZArith.
From stdpp Require Import gmap strings list.

Local Open Scope Z_scope.

(** ** Host values *)

(** C pointers handed out by the emulation library; [NULL] is 0. *)
Definition ptr := Z.
Definition NULL : ptr := 0.

(** Identity of a collectable host object (a table or a full userdata). *)
Definition addr := nat.

(** The C functions that [engine.c] puts in its method tables. *)
Inductive CFunction :=
| F_ul_close | F_ul_context_restore | F_ul_context_save | F_ul_emu_start
| F_ul_emu_stop | F_ul_errno | F_ul_hook_add | F_ul_hook_del | F_ul_mem_map
| F_ul_mem_protect | F_ul_mem_read | F_ul_mem_regions | F_ul_mem_unmap
| F_ul_mem_write | F_ul_query | F_ul_reg_read | F_ul_reg_read_batch
| F_ul_reg_write | F_ul_reg_write_batch.

Inductive lua_Value :=
| LNil
| LBoolean (b : bool)
| LInteger (n : Z)
| LString (s : string)
| LLightUserdata (p : ptr)
| LCFunction (f : CFunction)
| LTable (a : addr)
| LUserdata (a : addr).

#[global] Instance CFunction_eq_dec : EqDecision CFunction.
Proof. solve_decision. Defined.

#[global] Instance lua_Value_eq_dec : EqDecision lua_Value.
Proof. solve_decision. Defined.

Definition is_nil (v : lua_Value) : bool :=
  match v with LNil => true | _ => false end.

(** ** Tables

    A table is its node sequence, in the order in which [lua_next] walks
    it.  A node whose value is [LNil] is a cleared entry: its key stays in
    place (so that a traversal standing on it can go on) but it is not part
    of the table's contents. *)

Definition node := (lua_Value * lua_Value)%type.

Record Table := mkTable {
  t_nodes : list node;
  t_meta : option addr
}.

Fixpoint rawget (ns : list node) (k : lua_Value) : lua_Value :=
  match ns with
  | [] => LNil
  | (k', v) :: r => if decide (k = k') then v else rawget r k
  end.

Fixpoint has_key (ns : list node) (k : lua_Value) : bool :=
  match ns with
  | [] => false
  | (k', _) :: r => if decide (k = k') then true else has_key r k
  end.

Fixpoint update_node (ns : list node) (k v : lua_Value) : list node :=
  match ns with
  | [] => []
  | (k', v') :: r =>
      if decide (k = k') then (k', v) :: r else (k', v') :: update_node r k v
  end.

Definition insert_at (pos : nat) (n : node) (ns : list node) : list node :=
  take pos ns ++ n :: drop pos ns.

(** The live entries of a table: what the host program can observe. *)
Definition live (ns : list node) : list node :=
  filter (fun n => n.2 <> LNil) ns.

(** First live node of a node sequence. *)
Fixpoint first_live (ns : list node) : option node :=
  match ns with
  | [] => None
  | (k, v) :: r => if is_nil v then first_live r else Some (k, v)
  end.

(** The nodes that follow key [k]; [None] when [k] has no node. *)
Fixpoint after_key (ns : list node) (k : lua_Value) : option (list node) :=
  match ns with
  | [] => None
  | (k', _) :: r => if decide (k = k') then Some r else after_key r k
  end.

(** One step of a traversal: [None] is an invalid key, [Some None] the end
    of the table, [Some (Some (k', v))] the next live entry. *)
Definition table_next (ns : list node) (k : lua_Value) : option (option node) :=
  match k with
  | LNil => Some (first_live ns)
  | _ => first_live <$> after_key ns k
  end.

(** [lua_rawlen] on a table returns a border; this is the least one. *)
Definition border (ns : list node) : Z :=
  match List.find (fun n => is_nil (rawget ns (LInteger (Z.of_nat (S n)))))
                  (seq 0 (S (length ns))) with
  | Some n => Z.of_nat n
  | None => Z.of_nat (length ns)
  end.

(** ** Full userdata

    A block of C memory owned by the host.  The model keeps one cell per
    struct member; [None] is a cell that has never been written. *)

Record Udata := mkUdata {
  u_mem : list (option Z);
  u_meta : option addr
}.

(** [UCLuaEngine] has two members. *)
Definition f_engine : nat := 0.
Definition f_hook_table_ref : nat := 1.
Definition sizeof_UCLuaEngine : nat := 2.
(** [sizeof(context)], the size of one pointer. *)
Definition sizeof_pointer : nat := 1.

(** ** Calls to the collaborators *)

Inductive Event :=
| Ev_uc_close (engine : ptr)
| Ev_uc_query (engine : ptr) (query_type : Z)
| Ev_uc_errno (engine : ptr)
| Ev_uc_emu_start (engine : ptr) (start end_ timeout n_instructions : Z)
| Ev_uc_emu_stop (engine : ptr)
| Ev_uc_context_alloc (engine : ptr)
| Ev_uc_context_save (engine : ptr) (context : addr)
| Ev_uc_context_restore (engine : ptr) (context : addr)
| Ev_hook_del (engine_object : addr) (hook : lua_Value).

#[global] Instance Event_eq_dec : EqDecision Event.
Proof. solve_decision. Defined.

(** ** Interpreter state *)

Record lua_State := mkState {
  stack : list lua_Value;        (* frame of the running C function, index 1 first *)
  tables : gmap addr Table;
  udatas : gmap addr Udata;
  l_registry : addr;             (* the registry table *)
  trace : list Event             (* collaborator calls, oldest first *)
}.

Definition set_stack (s : list lua_Value) (L : lua_State) : lua_State :=
  mkState s (tables L) (udatas L) (l_registry L) (trace L).
Definition set_tables (t : gmap addr Table) (L : lua_State) : lua_State :=
  mkState (stack L) t (udatas L) (l_registry L) (trace L).
Definition set_udatas (u : gmap addr Udata) (L : lua_State) : lua_State :=
  mkState (stack L) (tables L) u (l_registry L) (trace L).
Definition emit (e : Event) (L : lua_State) : lua_State :=
  mkState (stack L) (tables L) (udatas L) (l_registry L) (trace L ++ [e]).

(** A fresh object identity. *)
Definition fresh_addr (L : lua_State) : addr :=
  fresh (dom (tables L) ∪ dom (udatas L) ∪ {[l_registry L]}).

(** ** Errors and outcomes *)

Inductive lua_Error :=
| ErrorMsg (fmt : string) (args : list Z)   (* luaL_error(L, fmt, ...) *)
| ArgError (arg : Z) (expected : string)     (* luaL_checkudata, luaL_checkinteger *)
| RuntimeError (msg : string)                (* raised by the interpreter itself *)
| NativeError (status : Z).                  (* ul_crash_on_error *)

#[global] Instance lua_Error_eq_dec : EqDecision lua_Error.
Proof. solve_decision. Defined.

(** What running a piece of C code on a state can do: return, raise a host
    error (a long jump out of the C function, the state being as it is at
    the point of the error), leave the model (C undefined behaviour, or a
    host feature that is not modelled), or exhaust the fuel of a loop. *)
Inductive outcome (A : Type) :=
| Ok (a : A) (L : lua_State)
| Raise (e : lua_Error) (L : lua_State)
| Stuck
| OutOfFuel.

Arguments Ok {A} a L.
Arguments Raise {A} e L.
Arguments Stuck {A}.
Arguments OutOfFuel {A}.

Definition M (A : Type) : Type := lua_State -> outcome A.

Definition ret {A} (a : A) : M A := fun L => Ok a L.

Definition bind {A B} (c : M A) (k : A -> M B) : M B := fun L =>
  match c L with
  | Ok a L' => k a L'
  | Raise e L' => Raise e L'
  | Stuck => Stuck
  | OutOfFuel => OutOfFuel
  end.

Definition raise {A} (e : lua_Error) : M A := fun L => Raise e L.
Definition stuck {A} : M A := fun _ => Stuck.
Definition get_state : M lua_State := fun L => Ok L L.
Definition modify (f : lua_State -> lua_State) : M unit := fun L => Ok tt (f L).
Definition from_option {A} (o : option A) : M A :=
  match o with Some a => ret a | None => stuck end.

Declare Scope lua_scope.
Delimit Scope lua_scope with lua.
Notation "x <- c ;; k" := (bind c (fun x => k))
  (at level 100, c at next level, right associativity) : lua_scope.
Notation "c ;; k" := (bind c (fun _ => k))
  (at level 100, right associativity) : lua_scope.
Local Open Scope lua_scope.

(** ** Constants of the host API and of the emulation library *)

Definition LUA_REGISTRYINDEX : Z := -1001000.
Definition LUA_NOREF : Z := -2.
Definition LUA_REFNIL : Z := -1.
Definition UC_ERR_OK : Z := 0.

Definition kContextMetatableName : string := "unicornlua__context_meta".
Definition kEngineMetatableName : string := "unicornlua__engine_meta".
Definition kEnginePointerMapName : string := "unicornlua__engine_ptr_map".

(** C integer conversions (a 64-bit target). *)
Definition to_int (z : Z) : Z := (z + 2^31) mod 2^32 - 2^31.
Definition to_int64 (z : Z) : Z := (z + 2^63) mod 2^64 - 2^63.
Definition to_uint64 (z : Z) : Z := z mod 2^64.

(** The native emulation library: a black box.  Each function is given the
    calls made so far (the library has state of its own) and its arguments,
    and answers with a status code and, where the C function has an out
    parameter, the value written through it. *)
Record EmulationEngine := mkEngine {
  uc_close : list Event -> ptr -> Z;
  uc_query : list Event -> ptr -> Z -> Z * Z;
  uc_errno : list Event -> ptr -> Z;
  uc_emu_start : list Event -> ptr -> Z -> Z -> Z -> Z -> Z;
  uc_emu_stop : list Event -> ptr -> Z;
  uc_context_alloc : list Event -> ptr -> Z * ptr;
  uc_context_save : list Event -> ptr -> addr -> Z;
  uc_context_restore : list Event -> ptr -> addr -> Z
}.

Section Engine.

(** Where the host puts the node of a key that is new to a table: the
    reference manual leaves the traversal order of a table unspecified. *)
Variable node_pos : lua_Value -> list node -> nat.

(** The host's conversion of a string to an integer. *)
Variable l_str2int : string -> option Z.

Variable uc : EmulationEngine.

(** *** The stack *)

Definition lua_gettop (L : lua_State) : Z := Z.of_nat (length (stack L)).

Definition ispseudo (idx : Z) : bool := idx <=? LUA_REGISTRYINDEX.

Definition lua_absindex (L : lua_State) (idx : Z) : Z :=
  if (0 <? idx) || ispseudo idx then idx else lua_gettop L + 1 + idx.

(** Position in [stack L] of a valid stack index. *)
Definition stack_pos (L : lua_State) (idx : Z) : option nat :=
  let i := lua_absindex L idx in
  if (1 <=? i) && (i <=? lua_gettop L) then Some (Z.to_nat (i - 1)) else None.

(** The value an index refers to; [None] for an index that refers to no
    value (beyond the top, or an upvalue, which C functions here lack). *)
Definition index2value (L : lua_State) (idx : Z) : option lua_Value :=
  if idx =? LUA_REGISTRYINDEX then Some (LTable (l_registry L))
  else match stack_pos L idx with
       | Some p => stack L !! p
       | None => None
       end.

Definition value_at (idx : Z) : M lua_Value :=
  fun L => from_option (index2value L idx) L.

Definition push (v : lua_Value) : M unit :=
  modify (fun L => set_stack (stack L ++ [v]) L).

Definition lua_pushnil : M unit := push LNil.
Definition lua_pushlightuserdata (p : ptr) : M unit := push (LLightUserdata p).
Definition lua_pushinteger (n : Z) : M unit := push (LInteger n).
Definition lua_pushstring (s : string) : M unit := push (LString s).
Definition lua_pushcfunction (f : CFunction) : M unit := push (LCFunction f).

Definition lua_pushvalue (idx : Z) : M unit :=
  v <- value_at idx ;; push v.

Definition lua_pop (n : nat) : M unit := fun L =>
  if (n <=? length (stack L))%nat
  then Ok tt (set_stack (take (length (stack L) - n) (stack L)) L)
  else Stuck.

Definition lua_remove (idx : Z) : M unit := fun L =>
  match stack_pos L idx with
  | Some p => Ok tt (set_stack (delete p (stack L)) L)
  | None => Stuck
  end.

Definition lua_isnil (idx : Z) : M bool := fun L =>
  Ok (bool_decide (index2value L idx = Some LNil)) L.

Definition lua_isnoneornil (idx : Z) : M bool := fun L =>
  Ok (match index2value L idx with None | Some LNil => true | _ => false end) L.

(** *** The heap *)

Definition get_table (a : addr) : M Table :=
  fun L => from_option (tables L !! a) L.

Definition get_udata (a : addr) : M Udata :=
  fun L => from_option (udatas L !! a) L.

Definition put_table (a : addr) (T : Table) : M unit :=
  modify (fun L => set_tables (<[a := T]> (tables L)) L).

Definition put_udata (a : addr) (U : Udata) : M unit :=
  modify (fun L => set_udatas (<[a := U]> (udatas L)) L).

(** Read and write of a struct member of a userdata block through the
    pointer that [lua_newuserdata] or [luaL_checkudata] returned. *)
Definition load (a : addr) (field : nat) : M Z :=
  U <- get_udata a ;;
  match u_mem U !! field with
  | Some (Some z) => ret z
  | _ => stuck                   (* out of the block, or never written *)
  end.

Definition store (a : addr) (field : nat) (z : Z) : M unit :=
  U <- get_udata a ;;
  if (field <? length (u_mem U))%nat
  then put_udata a (mkUdata (<[field := Some z]> (u_mem U)) (u_meta U))
  else stuck.

(** The handler a metatable has for an event, [LNil] when it has none. *)
Definition metamethod (mt : option addr) (event : string) : M lua_Value :=
  match mt with
  | None => ret LNil
  | Some m => T <- get_table m ;; ret (rawget (t_nodes T) (LString event))
  end.

Definition table_set (ns : list node) (k v : lua_Value) : list node :=
  if has_key ns k then update_node ns k v
  else if is_nil v then ns
  else insert_at (node_pos k ns) (k, v) ns.

Definition rawset (a : addr) (k v : lua_Value) : M unit :=
  T <- get_table a ;;
  match k with
  | LNil => raise (RuntimeError "table index is nil")
  | _ => put_table a (mkTable (table_set (t_nodes T) k v) (t_meta T))
  end.

Definition typename (v : lua_Value) : string :=
  match v with
  | LNil => "nil" | LBoolean _ => "boolean" | LInteger _ => "number"
  | LString _ => "string" | LLightUserdata _ => "userdata"
  | LCFunction _ => "function" | LTable _ => "table" | LUserdata _ => "userdata"
  end.

Definition index_error {A} (t : lua_Value) : M A :=
  raise (RuntimeError ("attempt to index a " ++ typename t ++ " value")).

(** [t[k]], as [lua_gettable] computes it.  Calling a metamethod is
    outside the model. *)
Definition index_get (t k : lua_Value) : M lua_Value :=
  match t with
  | LTable a =>
      T <- get_table a ;;
      let v := rawget (t_nodes T) k in
      if is_nil v then
        h <- metamethod (t_meta T) "__index" ;;
        if is_nil h then ret LNil else stuck
      else ret v
  | LUserdata a =>
      U <- get_udata a ;;
      h <- metamethod (u_meta U) "__index" ;;
      if is_nil h then index_error t else stuck
  | LString _ => stuck
  | _ => index_error t
  end.

(** [t[k] = v], as [lua_settable] performs it. *)
Definition index_set (t k v : lua_Value) : M unit :=
  match t with
  | LTable a =>
      T <- get_table a ;;
      if is_nil (rawget (t_nodes T) k) then
        h <- metamethod (t_meta T) "__newindex" ;;
        if is_nil h then rawset a k v else stuck
      else rawset a k v
  | LUserdata a =>
      U <- get_udata a ;;
      h <- metamethod (u_meta U) "__newindex" ;;
      if is_nil h then index_error t else stuck
  | _ => index_error t
  end.

Definition lua_gettable (idx : Z) : M unit :=
  t <- value_at idx ;;
  k <- value_at (-1) ;;
  v <- index_get t k ;;
  lua_pop 1 ;; push v.

Definition lua_getfield (idx : Z) (k : string) : M unit :=
  t <- value_at idx ;;
  v <- index_get t (LString k) ;;
  push v.

Definition lua_geti (idx : Z) (n : Z) : M unit :=
  t <- value_at idx ;;
  v <- index_get t (LInteger n) ;;
  push v.

Definition lua_settable (idx : Z) : M unit :=
  t <- value_at idx ;;
  k <- value_at (-2) ;;
  v <- value_at (-1) ;;
  index_set t k v ;;
  lua_pop 2.

Definition lua_setfield (idx : Z) (k : string) : M unit :=
  t <- value_at idx ;;
  v <- value_at (-1) ;;
  index_set t (LString k) v ;;
  lua_pop 1.

Definition lua_rawgeti (idx : Z) (n : Z) : M unit :=
  t <- value_at idx ;;
  match t with
  | LTable a => T <- get_table a ;; push (rawget (t_nodes T) (LInteger n))
  | _ => stuck
  end.

Definition lua_rawseti (idx : Z) (n : Z) : M unit :=
  t <- value_at idx ;;
  v <- value_at (-1) ;;
  match t with
  | LTable a => rawset a (LInteger n) v ;; lua_pop 1
  | _ => stuck
  end.

Definition lua_rawlen (idx : Z) : M Z :=
  t <- value_at idx ;;
  match t with
  | LTable a => T <- get_table a ;; ret (border (t_nodes T))
  | _ => stuck                   (* other types: not needed here *)
  end.

Definition lua_tointeger (idx : Z) : M Z :=
  v <- value_at idx ;;
  match v with
  | LInteger n => ret n
  | LString s => ret (default 0 (l_str2int s))
  | _ => ret 0
  end.

(** [lua_next]: pops a key, and pushes the next key-value pair of the
    table at [idx], returning 1; at the end of the table pushes nothing and
    returns 0.  On a value that is not a table it is undefined. *)
Definition lua_next (idx : Z) : M Z :=
  t <- value_at idx ;;
  k <- value_at (-1) ;;
  match t with
  | LTable a =>
      T <- get_table a ;;
      match table_next (t_nodes T) k with
      | None => raise (RuntimeError "invalid key to 'next'")
      | Some None => lua_pop 1 ;; ret 0
      | Some (Some (k', v')) => lua_pop 1 ;; push k' ;; push v' ;; ret 1
      end
  | _ => stuck
  end.

Definition lua_newtable : M unit := fun L =>
  let a := fresh_addr L in
  Ok tt (set_stack (stack L ++ [LTable a])
           (set_tables (<[a := mkTable [] None]> (tables L)) L)).

(** [lua_newuserdata]: a new block of [size] cells, none of them written;
    the object is pushed and the block's address returned. *)
Definition lua_newuserdata (size : nat) : M addr := fun L =>
  let a := fresh_addr L in
  Ok a (set_stack (stack L ++ [LUserdata a])
          (set_udatas (<[a := mkUdata (replicate size None) None]> (udatas L)) L)).

(** [lua_setmetatable]: pops a table or nil and makes it the metatable of
    the value at [idx]. *)
Definition lua_setmetatable (idx : Z) : M unit :=
  o <- value_at idx ;;
  mt <- value_at (-1) ;;
  m <- match mt with
       | LNil => ret None
       | LTable m => ret (Some m)
       | _ => stuck
       end ;;
  match o with
  | LTable a => T <- get_table a ;; put_table a (mkTable (t_nodes T) m)
  | LUserdata a => U <- get_udata a ;; put_udata a (mkUdata (u_mem U) m)
  | _ => stuck                   (* metatables shared by a whole type *)
  end ;;
  lua_pop 1.

(** *** The auxiliary library *)

Definition luaL_error {A} (fmt : string) (args : list Z) : M A :=
  raise (ErrorMsg fmt args).

Definition luaL_getmetatable (tname : string) : M unit :=
  lua_getfield LUA_REGISTRYINDEX tname.

Definition luaL_setmetatable (tname : string) : M unit :=
  luaL_getmetatable tname ;;
  lua_setmetatable (-2).

Definition luaL_newmetatable (tname : string) : M Z :=
  luaL_getmetatable tname ;;
  isnil <- lua_isnil (-1) ;;
  if negb isnil then ret 0
  else
    lua_pop 1 ;;
    lua_newtable ;;
    lua_pushstring tname ;;
    lua_setfield (-2) "__name" ;;
    lua_pushvalue (-1) ;;
    lua_setfield LUA_REGISTRYINDEX tname ;;
    ret 1.

Definition luaL_Reg := (string * CFunction)%type.

(** [luaL_setfuncs(L, l, 0)]: registers the functions of [l] in the table
    on top of the stack. *)
Fixpoint luaL_setfuncs (l : list luaL_Reg) : M unit :=
  match l with
  | [] => ret tt
  | (name, func) :: r =>
      lua_pushcfunction func ;;
      lua_setfield (-2) name ;;
      luaL_setfuncs r
  end.

(** [luaL_testudata]: the block of the full userdata at [idx] if its
    metatable is the one registered under [tname], otherwise [NULL]. *)
Definition luaL_testudata (idx : Z) (tname : string) : M (option addr) := fun L =>
  match index2value L idx with
  | Some (LUserdata a) =>
      (U <- get_udata a ;;
       match u_meta U with
       | Some m =>
           mt <- index_get (LTable (l_registry L)) (LString tname) ;;
           ret (if decide (mt = LTable m) then Some a else None)
       | None => ret None
       end) L
  | _ => Ok None L
  end.

Definition luaL_checkudata (idx : Z) (tname : string) : M addr :=
  p <- luaL_testudata idx tname ;;
  match p with
  | Some a => ret a
  | None => raise (ArgError idx tname)
  end.

Definition luaL_checkinteger (idx : Z) : M Z := fun L =>
  match index2value L idx with
  | Some (LInteger n) => Ok n L
  | Some (LString s) =>
      match l_str2int s with
      | Some n => Ok n L
      | None => Raise (ArgError idx "number") L
      end
  | _ => Raise (ArgError idx "number") L
  end.

Definition luaL_optinteger (idx : Z) (def : Z) : M Z :=
  none <- lua_isnoneornil idx ;;
  if none then ret def else luaL_checkinteger idx.

(** References ([lauxlib.c]): the free references of table [t] are chained
    through [t[freelist]]. *)
Definition freelist : Z := 0.

Definition luaL_ref (t : Z) : M Z :=
  isnil <- lua_isnil (-1) ;;
  if isnil then lua_pop 1 ;; ret LUA_REFNIL
  else
    L <- get_state ;;
    let t := lua_absindex L t in
    lua_rawgeti t freelist ;;
    ref <- lua_tointeger (-1) ;;
    let ref := to_int ref in
    lua_pop 1 ;;
    ref <- (if negb (ref =? 0) then
              lua_rawgeti t ref ;;
              lua_rawseti t freelist ;;
              ret ref
            else
              n <- lua_rawlen t ;; ret (to_int n + 1)) ;;
    lua_rawseti t ref ;;
    ret ref.

Definition luaL_unref (t : Z) (ref : Z) : M unit :=
  if 0 <=? ref then
    L <- get_state ;;
    let t := lua_absindex L t in
    lua_rawgeti t freelist ;;
    lua_rawseti t ref ;;
    lua_pushinteger ref ;;
    lua_rawseti t freelist
  else ret tt.

(** *** Control *)

Definition out_of_fuel {A} : M A := fun _ => OutOfFuel.

(** A C [while] loop; [fuel] bounds the number of tests of the condition. *)
Fixpoint while (fuel : nat) (cond : M bool) (body : M unit) : M unit :=
  match fuel with
  | O => out_of_fuel
  | S fuel' =>
      c <- cond ;;
      if c then body ;; while fuel' cond body else ret tt
  end.

(** A call to a collaborator: recorded in the trace, and answered from the
    calls made before it. *)
Definition call {A} (e : Event) (answer : list Event -> A) : M A :=
  fun L => Ok (answer (trace L)) (emit e L).

(** A call of a C function by the host, in the manner of [lua_call]: the
    function runs on a frame of its own that holds the arguments, and its
    last [n] stack values are the results, [n] being what it returns. *)
Definition host_call (f : M Z) (args : list lua_Value) : M (list lua_Value) :=
  fun L =>
    match f (set_stack args L) with
    | Ok n L' =>
        if (0 <=? n) && (n <=? lua_gettop L')
        then Ok (drop (length (stack L') - Z.to_nat n) (stack L'))
                (set_stack (stack L) L')
        else Stuck
    | Raise e L' => Raise e (set_stack (stack L) L')
    | Stuck => Stuck
    | OutOfFuel => OutOfFuel
    end.

(** ** Helpers of the binding that [engine.c] calls *)

(** Modelled from the spec: [ul_crash_on_error] is defined in utils.c,
    which is not among the sources.  Section 7: a non-success status of the
    emulation library "is translated through a single error-reporting path
    and surfaced to the caller".  It raises a host error made from the
    status code and does not return to its caller. *)
Definition ul_crash_on_error (error : Z) : M Z :=
  raise (NativeError error).

(** Modelled from the spec: [ul_create_weak_table] is defined in utils.c,
    which is not among the sources.  Section 2: a table "with weak-value
    semantics", that is, a new table whose metatable has the given
    [__mode]; the table is left on the stack. *)
Definition ul_create_weak_table (mode : string) : M unit :=
  lua_newtable ;;
  lua_newtable ;;
  lua_pushstring mode ;;
  lua_setfield (-2) "__mode" ;;
  lua_setmetatable (-2).

(** Modelled from the spec: [ul_tocontext] is declared in a header that is
    not among the sources.  Section 3: a Snapshot Object "wraps a native
    context handle"; the objects are the userdata that [ul_context_alloc]
    tags with [kContextMetatableName].  It checks that the value at [index]
    is such an object and designates it; which C pointer it derives from
    the block is not visible, so the native calls are recorded with the
    object itself. *)
Definition ul_tocontext (index : Z) : M addr :=
  luaL_checkudata index kContextMetatableName.

(** Modelled from the spec: [ul_hook_del_by_indexes] is defined in hooks.c,
    which is not among the sources.  Section 6: the Hook Manager's
    "delete(wrapper, hookId)"; section 3: the Hook Table is "mutated by
    hook-registration/removal operations (external collaborator)".  It
    resolves the wrapper at [engine_index], releases the hook whose id is
    at [hook_handle_index] (recorded in the trace) and removes that id's
    entry from the wrapper's hook table. *)
Definition ul_hook_del_by_indexes (engine_index hook_handle_index : Z) : M unit :=
  L <- get_state ;;
  let hook_handle_index := lua_absindex L hook_handle_index in
  engine_object <- luaL_checkudata engine_index kEngineMetatableName ;;
  hook <- value_at hook_handle_index ;;
  call (Ev_hook_del engine_object hook) (fun _ => tt) ;;
  ref <- load engine_object f_hook_table_ref ;;
  lua_geti LUA_REGISTRYINDEX ref ;;
  lua_pushvalue hook_handle_index ;;
  lua_pushnil ;;
  lua_settable (-3) ;;
  lua_pop 1.

(** Modelled from the spec: hook registration ([ul_hook_add], hooks.c) is
    not among the sources.  Section 3: the Hook Table is a "mapping hook-id
    -> hook descriptor" that registration mutates.  It stores [descriptor]
    under [hook] in the hook table of the wrapper at [engine_index]. *)
Definition hook_table_add (engine_index : Z) (hook descriptor : lua_Value) : M unit :=
  engine_object <- luaL_checkudata engine_index kEngineMetatableName ;;
  ref <- load engine_object f_hook_table_ref ;;
  lua_geti LUA_REGISTRYINDEX ref ;;
  push hook ;;
  push descriptor ;;
  lua_settable (-3) ;;
  lua_pop 1.

(** ** engine.c *)

Definition kEngineMetamethods : list luaL_Reg :=
  [("__gc", F_ul_close)].

Definition kEngineInstanceMethods : list luaL_Reg :=
  [("close", F_ul_close);
   ("context_restore", F_ul_context_restore);
   ("context_save", F_ul_context_save);
   ("emu_start", F_ul_emu_start);
   ("emu_stop", F_ul_emu_stop);
   ("errno", F_ul_errno);
   ("hook_add", F_ul_hook_add);
   ("hook_del", F_ul_hook_del);
   ("mem_map", F_ul_mem_map);
   ("mem_protect", F_ul_mem_protect);
   ("mem_read", F_ul_mem_read);
   ("mem_regions", F_ul_mem_regions);
   ("mem_unmap", F_ul_mem_unmap);
   ("mem_write", F_ul_mem_write);
   ("query", F_ul_query);
   ("reg_read", F_ul_reg_read);
   ("reg_read_batch", F_ul_reg_read_batch);
   ("reg_write", F_ul_reg_write);
   ("reg_write_batch", F_ul_reg_write_batch)].

Definition ul_init_engines_lib : M unit :=
  ul_create_weak_table "v" ;;
  lua_setfield LUA_REGISTRYINDEX kEnginePointerMapName ;;
  luaL_newmetatable kEngineMetatableName ;;
  luaL_setfuncs kEngineMetamethods ;;
  lua_newtable ;;
  luaL_setfuncs kEngineInstanceMethods ;;
  lua_setfield (-2) "__index" ;;
  lua_pop 2.

Definition ul_create_engine_object (engine : ptr) : M unit :=
  engine_object <- lua_newuserdata sizeof_UCLuaEngine ;;
  store engine_object f_engine engine ;;
  luaL_setmetatable kEngineMetatableName ;;
  lua_getfield LUA_REGISTRYINDEX kEnginePointerMapName ;;
  lua_pushlightuserdata engine ;;
  lua_pushvalue (-3) ;;
  lua_settable (-3) ;;
  lua_pop 1 ;;
  lua_newtable ;;
  ref <- luaL_ref LUA_REGISTRYINDEX ;;
  store engine_object f_hook_table_ref ref.

Definition ul_free_engine_object (fuel : nat) (engine_index : Z) : M unit :=
  L <- get_state ;;
  let engine_index := lua_absindex L engine_index in
  engine_object <- luaL_checkudata engine_index kEngineMetatableName ;;
  engine <- load engine_object f_engine ;;
  if engine =? NULL then ret tt
  else
    ref <- load engine_object f_hook_table_ref ;;
    lua_geti LUA_REGISTRYINDEX ref ;;
    L <- get_state ;;
    let hook_table_index := lua_absindex L (-1) in
    lua_pushnil ;;
    while fuel
      (more <- lua_next hook_table_index ;; ret (negb (more =? 0)))
      (ul_hook_del_by_indexes engine_index (-2) ;;
       lua_pop 1) ;;
    lua_pop 1 ;;
    ref <- load engine_object f_hook_table_ref ;;
    luaL_unref LUA_REGISTRYINDEX ref ;;
    store engine_object f_hook_table_ref LUA_NOREF ;;
    engine <- load engine_object f_engine ;;
    error <- call (Ev_uc_close engine) (fun tr => uc_close uc tr engine) ;;
    (if negb (error =? UC_ERR_OK)
     then ul_crash_on_error error ;; ret tt
     else ret tt) ;;
    lua_getfield LUA_REGISTRYINDEX kEnginePointerMapName ;;
    engine <- load engine_object f_engine ;;
    lua_pushlightuserdata engine ;;
    lua_pushnil ;;
    lua_settable (-3) ;;
    lua_pop 1 ;;
    store engine_object f_engine NULL.

Definition ul_get_engine_object (engine : ptr) : M unit :=
  lua_getfield LUA_REGISTRYINDEX kEnginePointerMapName ;;
  lua_pushlightuserdata engine ;;
  lua_gettable (-2) ;;
  isnil <- lua_isnil (-1) ;;
  (if isnil
   then lua_pop 2 ;;
        luaL_error "No engine object is registered for pointer %p." [engine]
   else ret tt) ;;
  lua_remove (-2).

Definition ul_toengine (index : Z) : M ptr :=
  engine_object <- luaL_checkudata index kEngineMetatableName ;;
  engine <- load engine_object f_engine ;;
  (if engine =? NULL
   then luaL_error "Attempted to use closed engine." []
   else ret tt) ;;
  load engine_object f_engine.

Definition ul_context_alloc : M Z :=
  engine <- ul_toengine 1 ;;
  (* the local variable [context] first holds the address of the new block *)
  context <- lua_newuserdata sizeof_pointer ;;
  luaL_setmetatable kContextMetatableName ;;
  (* [&context]: the library writes its handle into the local variable *)
  r <- call (Ev_uc_context_alloc engine) (fun tr => uc_context_alloc uc tr engine) ;;
  let error := r.1 in
  if negb (error =? UC_ERR_OK) then ul_crash_on_error error
  else ret 1.

Definition ul_context_save : M Z :=
  engine <- ul_toengine 1 ;;
  L <- get_state ;;
  (if lua_gettop L <? 2 then ul_context_alloc ;; ret tt else ret tt) ;;
  context <- ul_tocontext 2 ;;
  error <- call (Ev_uc_context_save engine context)
                (fun tr => uc_context_save uc tr engine context) ;;
  if negb (error =? UC_ERR_OK) then ul_crash_on_error error
  else ret 1.

Definition ul_context_restore : M Z :=
  engine <- ul_toengine 1 ;;
  context <- ul_tocontext 2 ;;
  error <- call (Ev_uc_context_restore engine context)
                (fun tr => uc_context_restore uc tr engine context) ;;
  if negb (error =? UC_ERR_OK) then ul_crash_on_error error
  else ret 0.

Definition ul_close (fuel : nat) : M Z :=
  ul_free_engine_object fuel 1 ;;
  ret 0.

Definition ul_query : M Z :=
  engine <- ul_toengine 1 ;;
  query_type <- luaL_checkinteger 1 ;;
  let query_type := to_int query_type in
  r <- call (Ev_uc_query engine query_type) (fun tr => uc_query uc tr engine query_type) ;;
  let error := r.1 in
  let result := r.2 in
  if negb (error =? UC_ERR_OK) then ul_crash_on_error error
  else lua_pushinteger (to_int64 result) ;; ret 1.

Definition ul_errno : M Z :=
  engine <- ul_toengine 1 ;;
  e <- call (Ev_uc_errno engine) (fun tr => uc_errno uc tr engine) ;;
  lua_pushinteger e ;;
  ret 1.

Definition ul_emu_start : M Z :=
  engine <- ul_toengine 1 ;;
  start <- luaL_checkinteger 2 ;;
  end_ <- luaL_checkinteger 3 ;;
  timeout <- luaL_optinteger 4 0 ;;
  n_instructions <- luaL_optinteger 5 0 ;;
  let start := to_uint64 start in
  let end_ := to_uint64 end_ in
  let timeout := to_uint64 timeout in
  let n_instructions := to_uint64 n_instructions in
  error <- call (Ev_uc_emu_start engine start end_ timeout n_instructions)
                (fun tr => uc_emu_start uc tr engine start end_ timeout n_instructions) ;;
  if negb (error =? UC_ERR_OK) then ul_crash_on_error error
  else ret 0.

Definition ul_emu_stop : M Z :=
  engine <- ul_toengine 1 ;;
  error <- call (Ev_uc_emu_stop engine) (fun tr => uc_emu_stop uc tr engine) ;;
  if negb (error =? UC_ERR_OK) then ul_crash_on_error error
  else ret 0.

(** The C functions of the method tables that are defined in [engine.c]. *)
Definition c_function (fuel : nat) (f : CFunction) : option (M Z) :=
  match f with
  | F_ul_close => Some (ul_close fuel)
  | F_ul_context_restore => Some ul_context_restore
  | F_ul_context_save => Some ul_context_save
  | F_ul_emu_start => Some ul_emu_start
  | F_ul_emu_stop => Some ul_emu_stop
  | F_ul_errno => Some ul_errno
  | F_ul_query => Some ul_query
  | _ => None                    (* defined in other files *)
  end.

(** The function a method table binds to a name. *)
Definition registered (name : string) (l : list luaL_Reg) : option CFunction :=
  snd <$> List.find (fun r => bool_decide (r.1 = name)) l.

(** The host closes the engine object [w]: the [close] method called by
    the program, or [__gc] called by the collector.  Both are [ul_close],
    run with the object as first argument. *)
Definition close_call (fuel : nat) (w : addr) (args : list lua_Value)
  : M (list lua_Value) :=
  host_call (ul_close fuel) (LUserdata w :: args).

Fixpoint close_calls (fuel : nat) (w : addr) (argss : list (list lua_Value))
  : M unit :=
  match argss with
  | [] => ret tt
  | args :: r => close_call fuel w args ;; close_calls fuel w r
  end.

(** The two halves of the teardown loop of [ul_free_engine_object]. *)
Definition release_cond (hook_table_index : Z) : M bool :=
  more <- lua_next hook_table_index ;; ret (negb (more =? 0)).

Definition release_body (engine_index : Z) : M unit :=
  ul_hook_del_by_indexes engine_index (-2) ;; lua_pop 1.

(** The operations of [engine.c] that go through the guarded accessor. *)
Definition guarded_operations : list (M Z) :=
  [ ul_toengine 1 ;; ret 0;
    ul_context_alloc;
    ul_context_save;
    ul_context_restore;
    ul_query;
    ul_errno;
    ul_emu_start;
    ul_emu_stop ].

(** Hooks registered one after the other on the engine object at
    [engine_index]; each hook is its own descriptor here. *)
Fixpoint register_hooks (engine_index : Z) (hooks : list lua_Value) : M unit :=
  match hooks with
  | [] => ret tt
  | k :: r => hook_table_add engine_index k k ;; register_hooks engine_index r
  end.

(** The nodes of a table once [luaL_unref] has released [ref] in it. *)
Definition unref_nodes (rs : list node) (ref : Z) : list node :=
  table_set
    (table_set rs (LInteger ref) (rawget rs (LInteger freelist)))
    (LInteger freelist) (LInteger ref).

End Engine.


(** ** Observations on a state *)

(** The nodes of the table at [a] (none if there is no such table). *)
Definition table_nodes (L : lua_State) (a : addr) : list node :=
  match tables L !! a with
  | Some T => t_nodes T
  | None => []
  end.

Definition table_get (L : lua_State) (a : addr) (k : lua_Value) : lua_Value :=
  rawget (table_nodes L a) k.

Definition registry_get (L : lua_State) (k : lua_Value) : lua_Value :=
  table_get L (l_registry L) k.

Definition keys (ns : list node) : list lua_Value := map fst ns.

(** Every entry cleared, the nodes staying where they are. *)
Definition clear_all (ns : list node) : list node :=
  map (fun n => (n.1, LNil)) ns.

(** The hook-delete calls and the native-close calls recorded in a trace. *)
Definition hook_dels (tr : list Event) : list (addr * lua_Value) :=
  omap (fun e => match e with Ev_hook_del w k => Some (w, k) | _ => None end) tr.

Definition native_closes (tr : list Event) : list ptr :=
  omap (fun e => match e with Ev_uc_close h => Some h | _ => None end) tr.

(** The status that the native close answers when a close of the engine
    object [w] in state [L] reaches it, the hooks of its hook table [ns]
    having been released by then. *)
Definition native_close_status (uc : EmulationEngine) (L : lua_State)
    (w : addr) (h : ptr) (ns : list node) : Z :=
  uc_close uc (trace L ++ map (Ev_hook_del w) (keys (live ns))) h.

(** The engine object [w] is OPEN on handle [h]: its block holds [h] and
    the reference [ref] of its hook table [ht], whose nodes are [ns]; it
    carries the engine metatable; and the pointer map sends [h] to it. *)
Definition open_engine (L : lua_State) (w : addr) (h : ptr) (ref : Z)
    (ht : addr) (ns : list node) : Prop :=
  h <> NULL /\
  (exists m, udatas L !! w = Some (mkUdata [Some h; Some ref] (Some m)) /\
             registry_get L (LString kEngineMetatableName) = LTable m) /\
  0 < ref /\
  registry_get L (LInteger ref) = LTable ht /\
  tables L !! ht = Some (mkTable ns None) /\
  NoDup (keys ns) /\ (LNil ∉ keys ns) /\ ht <> l_registry L /\
  (exists pm, registry_get L (LString kEnginePointerMapName) = LTable pm /\
              table_get L pm (LLightUserdata h) = LUserdata w /\
              pm <> ht /\ pm <> l_registry L) /\
  is_Some (tables L !! l_registry L).

(** The engine object [w] is CLOSED: its handle is [NULL]. *)
Definition closed_engine (L : lua_State) (w : addr) : Prop :=
  exists ref m, udatas L !! w = Some (mkUdata [Some NULL; Some ref] (Some m)) /\
                registry_get L (LString kEngineMetatableName) = LTable m.

(** What the teardown loop of [ul_free_engine_object] relies on, and
    leaves as it is. *)
Definition in_teardown (w : addr) (h : ptr) (ref : Z) (ht m : addr)
    (L : lua_State) : Prop :=
  udatas L !! w = Some (mkUdata [Some h; Some ref] (Some m)) /\
  registry_get L (LString kEngineMetatableName) = LTable m /\
  registry_get L (LInteger ref) = LTable ht /\
  ht <> l_registry L.

(** The handler that metatable [mt] has for [event] ([LNil] for none);
    [None] when [mt] is not the address of a table. *)
Definition handler_of (L : lua_State) (mt : option addr) (event : string)
  : option lua_Value :=
  match mt with
  | None => Some LNil
  | Some m =>
      match tables L !! m with
      | Some T => Some (rawget (t_nodes T) (LString event))
      | None => None
      end
  end.

(** Table [a] has no handler for [event]: accesses to it are raw. *)
Definition no_handler (L : lua_State) (a : addr) (event : string) : Prop :=
  exists T, tables L !! a = Some T /\ handler_of L (t_meta T) event = Some LNil.

(** The state an outcome ends in, when it has one. *)
Definition final_state {A} (o : outcome A) : option lua_State :=
  match o with
  | Ok _ L | Raise _ L => Some L
  | _ => None
  end.

(** The engine object [w] resolves to the handle [h]. *)
Definition engine_handle (L : lua_State) (w : addr) (h : ptr) : Prop :=
  h <> NULL /\
  exists U m, udatas L !! w = Some U /\ u_meta U = Some m /\
              u_mem U !! f_engine = Some (Some h) /\
              registry_get L (LString kEngineMetatableName) = LTable m.

(** The two usage errors of [engine.c]. *)
Definition closed_engine_error : lua_Error :=
  ErrorMsg "Attempted to use closed engine." [].

Definition not_registered_error (engine : ptr) : lua_Error :=
  ErrorMsg "No engine object is registered for pointer %p." [engine].

(** ** Shapes of arguments *)

(** What an index refers to is not an object tagged with metatable [m]:
    it is no value at all, a value that is not a full userdata, or a
    userdata with another metatable or with none. *)
Definition not_tagged (L : lua_State) (m : addr) (o : option lua_Value) : Prop :=
  match o with
  | Some (LUserdata a) => exists U, udatas L !! a = Some U /\ u_meta U <> Some m
  | _ => True
  end.

(** An optional integer argument: absent, nil, or an integer. *)
Definition optional_integer (o : option lua_Value) : Prop :=
  match o with
  | None | Some LNil | Some (LInteger _) => True
  | _ => False
  end.

(** The value of an optional integer argument whose default is 0. *)
Definition integer_or_zero (o : option lua_Value) : Z :=
  match o with
  | Some (LInteger z) => z
  | _ => 0
  end.

(** The free list of references of the registry is in order: it is empty,
    and the registry small enough for the next reference to be an [int];
    or its head is a positive [int]. *)
Definition free_list_ok (L : lua_State) : Prop :=
  match registry_get L (LInteger freelist) with
  | LNil => border (table_nodes L (l_registry L)) < 2^31 - 1
  | LInteger n => 0 < to_int n
  | _ => False
  end.

(** ** A concrete host, to run the model on *)

(** A host whose tables keep their entries in the order of insertion. *)
Definition append_pos (k : lua_Value) (ns : list node) : nat := length ns.

(** A host that places entries by hash, as the reference implementation
    does: in a node vector of four slots the main position of a light
    userdata is its address modulo 3, and a traversal goes through the
    slots in increasing order. *)
Definition hash_slot (k : lua_Value) : Z :=
  match k with
  | LLightUserdata p => p mod 3
  | _ => 0
  end.

Definition hash_pos (k : lua_Value) (ns : list node) : nat :=
  length (filter (fun n => hash_slot n.1 < hash_slot k) ns).

Definition no_str2int (s : string) : option Z := None.

(** An emulation library whose close answers [close_status] and whose
    other functions succeed. *)
Definition sample_uc (close_status : Z) : EmulationEngine :=
  mkEngine (fun _ _ => close_status)
           (fun _ _ _ => (UC_ERR_OK, 4))
           (fun _ _ => UC_ERR_OK)
           (fun _ _ _ _ _ _ => UC_ERR_OK)
           (fun _ _ => UC_ERR_OK)
           (fun _ _ => (UC_ERR_OK, 16448))
           (fun _ _ _ => UC_ERR_OK)
           (fun _ _ _ => UC_ERR_OK).

(** A new host state: an empty registry, and the frame of the function
    that loads the library, which holds the two arguments of a loader. *)
Definition sample_newstate : lua_State :=
  mkState [LString "unicorn"; LString "unicorn.so"]
          {[ 0%nat := mkTable [] None ]} ∅ 0%nat [].

Definition state_after {A} (c : M A) (L : lua_State) : lua_State :=
  match c L with
  | Ok _ L' => L'
  | _ => L
  end.

(** The library loaded: the engine tables of [ul_init_engines_lib] and the
    metatable of Snapshot Objects. *)
Definition sample_loaded (node_pos : lua_Value -> list node -> nat) : lua_State :=
  state_after
    (ul_init_engines_lib node_pos ;;
     luaL_newmetatable node_pos kContextMetatableName ;;
     lua_pop 2)
    sample_newstate.

Definition sample_handle : ptr := 8192.
Definition sample_hooks : list lua_Value :=
  [LLightUserdata 4112; LLightUserdata 4096; LLightUserdata 4128].

(** An engine object on [sample_handle], alone on the stack, with the
    three hooks of [sample_hooks] registered in that order. *)
Definition sample_engine (node_pos : lua_Value -> list node -> nat) : lua_State :=
  state_after
    (ul_create_engine_object node_pos no_str2int sample_handle ;;
     register_hooks node_pos 1 sample_hooks)
    (sample_loaded node_pos).

(** A Snapshot Object next to the sample engine. *)
Definition sample_snapshot : lua_State :=
  state_after (ul_context_alloc (sample_uc UC_ERR_OK)) (sample_engine hash_pos).

(** An emulation library that is out of memory: it refuses to allocate a
    context, with status 1 ([UC_ERR_NOMEM]); its other functions succeed. *)
Definition sample_uc_nomem : EmulationEngine :=
  mkEngine (fun _ _ => UC_ERR_OK)
           (fun _ _ _ => (UC_ERR_OK, 4))
           (fun _ _ => UC_ERR_OK)
           (fun _ _ _ _ _ _ => UC_ERR_OK)
           (fun _ _ => UC_ERR_OK)
           (fun _ _ => (1, NULL))
           (fun _ _ _ => UC_ERR_OK)
           (fun _ _ _ => UC_ERR_OK).

(** A second engine object, on handle 12288 and without hooks, next to
    the sample engine. *)
Definition sample_two_engines : lua_State :=
  state_after (ul_create_engine_object hash_pos no_str2int 12288)
              (sample_engine hash_pos).

(** * Proofs *)

(** ** The monad and one-step reasoning *)

Ltac norm_state :=
  unfold set_stack, set_tables, set_udatas, emit in *;
  cbn [stack tables udatas l_registry trace] in *.

Lemma bind_ok {A B} (c : M A) (k : A -> M B) L a L' :
  c L = Ok a L' -> bind c k L = k a L'.
Proof. unfold bind. by intros ->. Qed.

Lemma bind_raise {A B} (c : M A) (k : A -> M B) L e L' :
  c L = Raise e L' -> bind c k L = Raise e L'.
Proof. unfold bind. by intros ->. Qed.

(** One statement of a C function: run it, go on with the rest. *)
Ltac step tac := erewrite bind_ok; [ | solve [tac] ]; cbv beta.

(** ** Stack indices *)

Lemma index2value_registry L :
  index2value L LUA_REGISTRYINDEX = Some (LTable (l_registry L)).
Proof. reflexivity. Qed.

Lemma index2value_pos L idx v :
  0 < idx -> stack L !! Z.to_nat (idx - 1) = Some v -> index2value L idx = Some v.
Proof.
  intros Hpos Hv. pose proof (lookup_lt_Some _ _ _ Hv) as Hlt.
  unfold index2value, stack_pos, lua_absindex, ispseudo, lua_gettop, LUA_REGISTRYINDEX.
  destruct (idx =? -1001000) eqn:E; [lia|].
  replace (0 <? idx) with true by lia. simpl.
  replace ((1 <=? idx) && (idx <=? Z.of_nat (length (stack L)))) with true by lia.
  exact Hv.
Qed.

Lemma index2value_neg L idx v :
  idx < 0 -> LUA_REGISTRYINDEX < idx ->
  reverse (stack L) !! Z.to_nat (- idx - 1) = Some v -> index2value L idx = Some v.
Proof.
  intros Hneg Hreg Hv. pose proof (lookup_lt_Some _ _ _ Hv) as Hlt.
  rewrite length_reverse in Hlt. rewrite reverse_lookup in Hv by done.
  unfold index2value, stack_pos, lua_absindex, ispseudo, lua_gettop, LUA_REGISTRYINDEX in *.
  destruct (idx =? -1001000) eqn:E; [lia|].
  replace ((0 <? idx) || (idx <=? -1001000)) with false by lia.
  replace ((1 <=? Z.of_nat (length (stack L)) + 1 + idx) &&
           (Z.of_nat (length (stack L)) + 1 + idx <=? Z.of_nat (length (stack L))))
    with true by lia.
  rewrite <- Hv. f_equal. lia.
Qed.

(** The index of an element given by what is pushed above it. *)
Lemma index2value_neg_app L base ext idx v :
  stack L = base ++ ext ->
  idx < 0 -> LUA_REGISTRYINDEX < idx ->
  reverse ext !! Z.to_nat (- idx - 1) = Some v -> index2value L idx = Some v.
Proof.
  intros Hs Hneg Hreg Hv. apply index2value_neg; [done..|].
  rewrite Hs, reverse_app. by apply lookup_app_l_Some.
Qed.

(** The absolute index of an element given by what lies below it. *)
Lemma index2value_abs_app L base x ext :
  stack L = base ++ x :: ext ->
  index2value L (Z.of_nat (S (length base))) = Some x.
Proof.
  intros Hs. apply index2value_pos; [lia|].
  replace (Z.to_nat (Z.of_nat (S (length base)) - 1)) with (length base) by lia.
  rewrite Hs. by rewrite list_lookup_middle.
Qed.

Lemma lua_absindex_top L base x :
  stack L = base ++ [x] -> lua_absindex L (-1) = Z.of_nat (S (length base)).
Proof.
  intros Hs. unfold lua_absindex, lua_gettop. simpl.
  rewrite Hs, length_app. simpl. lia.
Qed.

Lemma lua_absindex_neg2 L base x y z :
  stack L = base ++ [x; y; z] -> lua_absindex L (-2) = Z.of_nat (S (S (length base))).
Proof.
  intros Hs. unfold lua_absindex, lua_gettop. simpl.
  rewrite Hs, length_app. simpl. lia.
Qed.

Lemma value_at_ok L idx v : index2value L idx = Some v -> value_at idx L = Ok v L.
Proof. unfold value_at. by intros ->. Qed.

Lemma lua_pop_app n L base ext :
  stack L = base ++ ext -> length ext = n ->
  lua_pop n L = Ok tt (set_stack base L).
Proof.
  intros Hs Hn. unfold lua_pop. rewrite Hs, length_app.
  replace (n <=? length base + length ext)%nat with true
    by (symmetry; apply Nat.leb_le; lia).
  do 2 f_equal. replace (length base + length ext - n)%nat with (length base) by lia.
  by rewrite take_app_length.
Qed.

(** ** Tables: reading after writing *)

Lemma rawget_no_key ns k : has_key ns k = false -> rawget ns k = LNil.
Proof.
  induction ns as [|[k' v'] r IH]; simpl; [done|].
  destruct (decide (k = k')); [done | exact IH].
Qed.

Lemma has_key_rawget ns k : rawget ns k <> LNil -> has_key ns k = true.
Proof.
  intros H. destruct (has_key ns k) eqn:E; [done|].
  by rewrite rawget_no_key in H.
Qed.

Lemma has_key_elem ns k : has_key ns k = true <-> k ∈ keys ns.
Proof.
  unfold keys. induction ns as [|[k' v'] r IH]; simpl.
  - split; [done | by intros ?%elem_of_nil].
  - rewrite elem_of_cons. destruct (decide (k = k')); [tauto|].
    rewrite IH. tauto.
Qed.

Lemma rawget_update_node_eq ns k v :
  has_key ns k = true -> rawget (update_node ns k v) k = v.
Proof.
  induction ns as [|[k' v'] r IH]; simpl; [done|].
  destruct (decide (k = k')) as [->|Hne]; simpl.
  - by rewrite decide_True.
  - intros H. rewrite decide_False by done. auto.
Qed.

Lemma rawget_update_node_ne ns k v k' :
  k' <> k -> rawget (update_node ns k v) k' = rawget ns k'.
Proof.
  intros Hne. induction ns as [|[k0 v0] r IH]; simpl; [done|].
  destruct (decide (k = k0)) as [->|Hk]; simpl.
  - by rewrite !decide_False.
  - destruct (decide (k' = k0)); [done | exact IH].
Qed.

Lemma rawget_app ns1 ns2 k :
  rawget (ns1 ++ ns2) k = if has_key ns1 k then rawget ns1 k else rawget ns2 k.
Proof.
  induction ns1 as [|[k' v'] r IH]; simpl; [done|].
  destruct (decide (k = k')); [done | exact IH].
Qed.

Lemma has_key_app ns1 ns2 k :
  has_key (ns1 ++ ns2) k = has_key ns1 k || has_key ns2 k.
Proof.
  induction ns1 as [|[k' v'] r IH]; simpl; [done|].
  destruct (decide (k = k')); [done | exact IH].
Qed.

Lemma rawget_insert_at_eq ns pos k v :
  has_key ns k = false -> rawget (insert_at pos (k, v) ns) k = v.
Proof.
  intros H. unfold insert_at. rewrite rawget_app.
  rewrite <- (take_drop pos ns), has_key_app in H.
  apply orb_false_iff in H as [-> _]. simpl. by rewrite decide_True.
Qed.

Lemma rawget_insert_at_ne ns pos k v k' :
  k' <> k -> rawget (insert_at pos (k, v) ns) k' = rawget ns k'.
Proof.
  intros Hne. unfold insert_at.
  rewrite <- (take_drop pos ns) at 3. rewrite !rawget_app. simpl.
  by rewrite decide_False.
Qed.

Section TableSet.
Variable node_pos : lua_Value -> list node -> nat.

Lemma rawget_table_set_eq ns k v : rawget (table_set node_pos ns k v) k = v.
Proof.
  unfold table_set. destruct (has_key ns k) eqn:E.
  - by apply rawget_update_node_eq.
  - destruct v; simpl; try by apply rawget_insert_at_eq.
    by apply rawget_no_key.
Qed.

Lemma rawget_table_set_ne ns k v k' :
  k' <> k -> rawget (table_set node_pos ns k v) k' = rawget ns k'.
Proof.
  intros Hne. unfold table_set. destruct (has_key ns k).
  - by apply rawget_update_node_ne.
  - destruct (is_nil v); [done | by apply rawget_insert_at_ne].
Qed.
End TableSet.

(** A key that occurs once, at a known place. *)
Lemma rawget_middle pre k v r :
  k ∉ keys pre -> rawget (pre ++ (k, v) :: r) k = v.
Proof.
  intros H. rewrite rawget_app. destruct (has_key pre k) eqn:E.
  - by apply has_key_elem in E.
  - simpl. by rewrite decide_True.
Qed.

Lemma update_node_middle pre k v v' r :
  k ∉ keys pre -> update_node (pre ++ (k, v) :: r) k v' = pre ++ (k, v') :: r.
Proof.
  unfold keys. induction pre as [|[k0 v0] p IH]; simpl; intros H.
  - by rewrite decide_True.
  - apply not_elem_of_cons in H as [Hne H].
    rewrite decide_False by done. by rewrite IH.
Qed.

Lemma after_key_middle pre k v r :
  k ∉ keys pre -> after_key (pre ++ (k, v) :: r) k = Some r.
Proof.
  unfold keys. induction pre as [|[k0 v0] p IH]; simpl; intros H.
  - by rewrite decide_True.
  - apply not_elem_of_cons in H as [Hne H].
    rewrite decide_False by done. by apply IH.
Qed.

Lemma live_clear_all ns : live (clear_all ns) = [].
Proof.
  unfold live, clear_all. induction ns as [|n r IH]; simpl; [done|].
  rewrite filter_cons_False; [exact IH | simpl; by intros ?].
Qed.

Lemma rawget_clear_all ns k : rawget (clear_all ns) k = LNil.
Proof.
  induction ns as [|[k' v'] r IH]; simpl; [done|].
  destruct (decide (k = k')); [done | exact IH].
Qed.


Lemma registry_get_Some L k v :
  registry_get L k = v -> v <> LNil ->
  exists R, tables L !! l_registry L = Some R /\ rawget (t_nodes R) k = v.
Proof.
  unfold registry_get, table_get, table_nodes.
  destruct (tables L !! l_registry L) as [R|]; [eauto | simpl; congruence].
Qed.

Lemma is_nil_false v : v <> LNil -> is_nil v = false.
Proof. by destruct v. Qed.

Lemma load_ok L a U field z :
  udatas L !! a = Some U -> u_mem U !! field = Some (Some z) ->
  load a field L = Ok z L.
Proof.
  intros HU Hz. unfold load, bind, get_udata. rewrite HU. simpl. by rewrite Hz.
Qed.

Lemma store_ok L a U field z :
  udatas L !! a = Some U -> (field < length (u_mem U))%nat ->
  store a field z L =
  Ok tt (set_udatas (<[a := mkUdata (<[field := Some z]> (u_mem U)) (u_meta U)]> (udatas L)) L).
Proof.
  intros HU Hlt. unfold store, bind, get_udata. rewrite HU. simpl.
  apply Nat.ltb_lt in Hlt. by rewrite Hlt.
Qed.

Lemma index_get_live L a T k v :
  tables L !! a = Some T -> rawget (t_nodes T) k = v -> v <> LNil ->
  index_get (LTable a) k L = Ok v L.
Proof.
  intros HT Hv Hnn. unfold index_get, bind, get_table. rewrite HT. simpl.
  rewrite Hv. by rewrite is_nil_false.
Qed.

Lemma luaL_checkudata_ok L idx tname w U m :
  index2value L idx = Some (LUserdata w) ->
  udatas L !! w = Some U -> u_meta U = Some m ->
  registry_get L (LString tname) = LTable m ->
  luaL_checkudata idx tname L = Ok w L.
Proof.
  intros Hi HU Hm Hr.
  apply registry_get_Some in Hr as (R & HR & Hr); [|done].
  unfold luaL_checkudata, luaL_testudata, bind. rewrite Hi.
  unfold get_udata. rewrite HU. cbn [from_option ret]. rewrite Hm.
  rewrite (index_get_live L _ R _ (LTable m)) by done. cbn [ret].
  by rewrite decide_True.
Qed.

Section Steps.
Variable node_pos : lua_Value -> list node -> nat.

Lemma index_set_live L a T k v :
  tables L !! a = Some T -> rawget (t_nodes T) k <> LNil -> k <> LNil ->
  index_set node_pos (LTable a) k v L =
  Ok tt (set_tables (<[a := mkTable (table_set node_pos (t_nodes T) k v) (t_meta T)]> (tables L)) L).
Proof.
  intros HT Hv Hk. unfold index_set, bind, get_table. rewrite HT. simpl.
  rewrite (is_nil_false _ Hv).
  unfold rawset, bind, get_table. rewrite HT. simpl. by destruct k.
Qed.

Lemma lua_geti_registry L n v :
  registry_get L (LInteger n) = v -> v <> LNil ->
  lua_geti LUA_REGISTRYINDEX n L = Ok tt (set_stack (stack L ++ [v]) L).
Proof.
  intros Hr Hv. apply registry_get_Some in Hr as (R & HR & Hr); [|done].
  unfold lua_geti.
  rewrite (bind_ok _ _ _ _ _ (value_at_ok _ _ _ (index2value_registry L))).
  by rewrite (bind_ok _ _ _ _ _ (index_get_live L _ R _ v HR Hr Hv)).
Qed.

Lemma lua_getfield_registry L s v :
  registry_get L (LString s) = v -> v <> LNil ->
  lua_getfield LUA_REGISTRYINDEX s L = Ok tt (set_stack (stack L ++ [v]) L).
Proof.
  intros Hr Hv. apply registry_get_Some in Hr as (R & HR & Hr); [|done].
  unfold lua_getfield.
  rewrite (bind_ok _ _ _ _ _ (value_at_ok _ _ _ (index2value_registry L))).
  by rewrite (bind_ok _ _ _ _ _ (index_get_live L _ R _ v HR Hr Hv)).
Qed.

(** [lua_settable(L, -3)] on a table, a key and a value just pushed, the
    key being live in the table. *)
Lemma lua_settable_pushed L base a T k v :
  stack L = base ++ [LTable a; k; v] ->
  tables L !! a = Some T -> rawget (t_nodes T) k <> LNil -> k <> LNil ->
  lua_settable node_pos (-3) L =
  Ok tt (set_stack (base ++ [LTable a])
           (set_tables (<[a := mkTable (table_set node_pos (t_nodes T) k v) (t_meta T)]> (tables L)) L)).
Proof.
  intros Hs HT Hv Hk. unfold lua_settable.
  rewrite (bind_ok _ _ L (LTable a) L)
    by (apply value_at_ok, (index2value_neg_app L base [LTable a; k; v]); done).
  rewrite (bind_ok _ _ L k L)
    by (apply value_at_ok, (index2value_neg_app L base [LTable a; k; v]); done).
  rewrite (bind_ok _ _ L v L)
    by (apply value_at_ok, (index2value_neg_app L base [LTable a; k; v]); done).
  rewrite (bind_ok _ _ _ _ _ (index_set_live L a T k v HT Hv Hk)).
  rewrite (lua_pop_app 2 _ (base ++ [LTable a]) [k; v]); [done| |done].
  norm_state. rewrite Hs. by rewrite <- app_assoc.
Qed.

End Steps.



Lemma index2value_abs L base x ext idx :
  stack L = base ++ x :: ext -> idx = Z.of_nat (S (length base)) ->
  index2value L idx = Some x.
Proof. intros Hs ->. by eapply index2value_abs_app. Qed.

Lemma lua_next_more L base a T key k' v' idx :
  stack L = base ++ [LTable a; key] -> idx = Z.of_nat (S (length base)) ->
  tables L !! a = Some T -> table_next (t_nodes T) key = Some (Some (k', v')) ->
  lua_next idx L = Ok 1 (set_stack (base ++ [LTable a; k'; v']) L).
Proof.
  intros Hs Hidx HT Hn. unfold lua_next.
  step ltac:(eapply value_at_ok, index2value_abs; eauto).
  step ltac:(eapply value_at_ok, (index2value_neg_app L base [LTable a; key]); done).
  unfold get_table at 1. step ltac:(rewrite HT; reflexivity).
  rewrite Hn.
  step ltac:(eapply (lua_pop_app 1 _ (base ++ [LTable a]) [key]);
             [rewrite Hs, <- app_assoc|]; done).
  unfold bind, push, modify, ret. norm_state. by rewrite <- !app_assoc.
Qed.

Lemma lua_next_end L base a T key idx :
  stack L = base ++ [LTable a; key] -> idx = Z.of_nat (S (length base)) ->
  tables L !! a = Some T -> table_next (t_nodes T) key = Some None ->
  lua_next idx L = Ok 0 (set_stack (base ++ [LTable a]) L).
Proof.
  intros Hs Hidx HT Hn. unfold lua_next.
  step ltac:(eapply value_at_ok, index2value_abs; eauto).
  step ltac:(eapply value_at_ok, (index2value_neg_app L base [LTable a; key]); done).
  unfold get_table at 1. step ltac:(rewrite HT; reflexivity).
  rewrite Hn.
  step ltac:(eapply (lua_pop_app 1 _ (base ++ [LTable a]) [key]);
             [rewrite Hs, <- app_assoc|]; done).
  reflexivity.
Qed.

Lemma registry_get_set_tables_ne L a T k :
  a <> l_registry L ->
  registry_get (set_tables (<[a := T]> (tables L)) L) k = registry_get L k.
Proof.
  intros Hne. unfold registry_get, table_get, table_nodes. norm_state.
  by rewrite lookup_insert_ne.
Qed.

Section Teardown.
Variable node_pos : lua_Value -> list node -> nat.
Variables (w : addr) (args : list lua_Value) (h : ptr) (ref : Z) (ht m : addr).

Let base : list lua_Value := LUserdata w :: args.

Lemma ul_hook_del_by_indexes_spec L pre k v r :
  in_teardown w h ref ht m L ->
  stack L = base ++ [LTable ht; k; v] ->
  tables L !! ht = Some (mkTable (pre ++ (k, v) :: r) None) ->
  k ∉ keys pre -> k <> LNil -> v <> LNil ->
  ul_hook_del_by_indexes node_pos 1 (-2) L =
  Ok tt (set_tables (<[ht := mkTable (pre ++ (k, LNil) :: r) None]> (tables L))
           (emit (Ev_hook_del w k) L)).
Proof.
  intros (HU & Hm & Href & Hreg) Hs HT Hpre Hk Hv.
  unfold ul_hook_del_by_indexes.
  step ltac:(reflexivity).
  rewrite (lua_absindex_neg2 L base _ _ _ Hs).
  step ltac:(eapply luaL_checkudata_ok; [|exact HU|reflexivity|exact Hm];
             apply index2value_pos; [lia|]; rewrite Hs; reflexivity).
  step ltac:(eapply value_at_ok, (index2value_abs L (base ++ [LTable ht]) k [v]);
             [rewrite Hs, <- app_assoc; reflexivity | rewrite length_app; simpl; lia]).
  step ltac:(reflexivity).
  step ltac:(eapply load_ok; [exact HU|reflexivity]).
  step ltac:(eapply lua_geti_registry; [exact Href|done]).
  norm_state.
  unfold lua_pushvalue.
  step ltac:(erewrite bind_ok; [reflexivity|];
             eapply value_at_ok, (index2value_abs _ (base ++ [LTable ht]) k [v; LTable ht]);
             [norm_state; rewrite Hs, <- !app_assoc; reflexivity
             | rewrite length_app; simpl; lia]).
  step ltac:(reflexivity).
  unfold push, modify, lua_pushnil, push, modify. norm_state.
  step ltac:(eapply (lua_settable_pushed _ _ (base ++ [LTable ht; k; v]) ht _ k LNil);
             [norm_state; rewrite Hs, <- !app_assoc; reflexivity
             | norm_state; exact HT
             | simpl; by rewrite rawget_middle
             | done]).
  norm_state.
  erewrite lua_pop_app; [| norm_state; reflexivity | reflexivity].
  norm_state. unfold table_set. cbn [t_nodes t_meta].
  rewrite (proj2 (has_key_elem _ k)), update_node_middle, Hs; [done..|].
  unfold keys. rewrite map_app, elem_of_app. right. simpl. by left.
Qed.

Lemma release_body_spec L pre k v r :
  in_teardown w h ref ht m L ->
  stack L = base ++ [LTable ht; k; v] ->
  tables L !! ht = Some (mkTable (pre ++ (k, v) :: r) None) ->
  k ∉ keys pre -> k <> LNil -> v <> LNil ->
  release_body node_pos 1 L =
  Ok tt (mkState (base ++ [LTable ht; k])
           (<[ht := mkTable (pre ++ (k, LNil) :: r) None]> (tables L))
           (udatas L) (l_registry L) (trace L ++ [Ev_hook_del w k])).
Proof.
  intros Hin Hs HT Hpre Hk Hv. unfold release_body.
  step ltac:(by eapply ul_hook_del_by_indexes_spec).
  by rewrite (lua_pop_app 1 _ (base ++ [LTable ht; k]) [v])
    by (norm_state; by rewrite ?Hs, <- ?app_assoc).
Qed.

Lemma table_next_key ns k :
  k <> LNil -> table_next ns k = first_live <$> after_key ns k.
Proof. by destruct k. Qed.

Lemma keys_middle pre k v r : keys (pre ++ (k, v) :: r) = keys pre ++ k :: keys r.
Proof. unfold keys. by rewrite map_app. Qed.

Lemma teardown_loop suf : forall pre key L fuel,
  in_teardown w h ref ht m L ->
  stack L = base ++ [LTable ht; key] ->
  tables L !! ht = Some (mkTable (pre ++ suf) None) ->
  NoDup (keys (pre ++ suf)) -> LNil ∉ keys (pre ++ suf) ->
  table_next (pre ++ suf) key = Some (first_live suf) ->
  (length suf < fuel)%nat ->
  while fuel (release_cond (Z.of_nat (S (length base)))) (release_body node_pos 1) L =
  Ok tt (mkState (base ++ [LTable ht])
           (<[ht := mkTable (pre ++ clear_all suf) None]> (tables L))
           (udatas L) (l_registry L)
           (trace L ++ map (Ev_hook_del w) (keys (live suf)))).
Proof.
  induction suf as [|[k v] r IH]; intros pre key L fuel Hin Hs HT Hnd Hnil Hnext Hfuel.
  - destruct fuel as [|fuel]; [simpl in Hfuel; lia|].
    cbn [while]. unfold release_cond at 1.
    step ltac:(erewrite bind_ok; [reflexivity|]; by eapply lua_next_end).
    cbn [negb Z.eqb ret]. unfold live. simpl. rewrite !app_nil_r in *.
    rewrite insert_id by done. by destruct L.
  - destruct (decide (v = LNil)) as [->|Hv].
    + rewrite (IH (pre ++ [(k, LNil)]) key L fuel Hin Hs);
        try (rewrite <- app_assoc; assumption); [|simpl in Hfuel; lia].
      unfold live. rewrite filter_cons_False by (simpl; by intros ?).
      simpl. by rewrite <- app_assoc.
    + destruct fuel as [|fuel]; [simpl in Hfuel; lia|].
      rewrite keys_middle in Hnd, Hnil.
      assert (Hpre : k ∉ keys pre).
      { apply NoDup_app in Hnd as (_ & Hnd & _). intros Hin'.
        apply (Hnd _ Hin'). by left. }
      assert (Hk : k <> LNil).
      { intros ->. apply Hnil. rewrite elem_of_app. right. by left. }
      cbn [while]. unfold release_cond at 1.
      step ltac:(erewrite bind_ok; [reflexivity|]; eapply lua_next_more; eauto;
                 cbn [t_nodes]; rewrite Hnext; simpl; by rewrite is_nil_false).
      cbn [negb Z.eqb ret].
      step ltac:(eapply (release_body_spec _ pre k v r);
                 [exact Hin | reflexivity | exact HT | done..]).
      norm_state.
      destruct Hin as (HU & Hm & Href & Hreg).
      rewrite (IH (pre ++ [(k, LNil)]) k _ fuel).
      * norm_state. rewrite insert_insert_eq. unfold live.
        rewrite filter_cons_True by done. simpl.
        by rewrite <- !app_assoc.
      * unfold in_teardown. norm_state. repeat split; try done.
        -- rewrite <- Hm. by apply (registry_get_set_tables_ne L).
        -- rewrite <- Href. by apply (registry_get_set_tables_ne L).
      * reflexivity.
      * norm_state. rewrite lookup_insert_eq. by rewrite <- app_assoc.
      * rewrite <- app_assoc. simpl. by rewrite keys_middle.
      * rewrite <- app_assoc. simpl. by rewrite keys_middle.
      * rewrite table_next_key by done. rewrite <- app_assoc. simpl.
        by rewrite after_key_middle.
      * simpl in Hfuel. lia.
Qed.

End Teardown.


Section Close.
Variable node_pos : lua_Value -> list node -> nat.
Variable uc : EmulationEngine.

Lemma lua_rawgeti_registry L R n :
  tables L !! l_registry L = Some R ->
  lua_rawgeti LUA_REGISTRYINDEX n L =
  Ok tt (set_stack (stack L ++ [rawget (t_nodes R) (LInteger n)]) L).
Proof.
  intros HR. unfold lua_rawgeti.
  step ltac:(apply value_at_ok, index2value_registry).
  unfold get_table at 1. step ltac:(rewrite HR; reflexivity).
  reflexivity.
Qed.

Lemma lua_rawseti_registry L R base v n :
  tables L !! l_registry L = Some R -> stack L = base ++ [v] ->
  lua_rawseti node_pos LUA_REGISTRYINDEX n L =
  Ok tt (mkState base
           (<[l_registry L := mkTable (table_set node_pos (t_nodes R) (LInteger n) v) (t_meta R)]>
              (tables L))
           (udatas L) (l_registry L) (trace L)).
Proof.
  intros HR Hs. unfold lua_rawseti.
  step ltac:(apply value_at_ok, index2value_registry).
  step ltac:(eapply value_at_ok, (index2value_neg_app L base [v]); done).
  unfold rawset, get_table.
  step ltac:(erewrite bind_ok; [reflexivity | rewrite HR; reflexivity]).
  by rewrite (lua_pop_app 1 _ base [v]).
Qed.

Lemma luaL_unref_registry L R ref :
  tables L !! l_registry L = Some R -> 0 <= ref ->
  luaL_unref node_pos LUA_REGISTRYINDEX ref L =
  Ok tt (set_tables
           (<[l_registry L := mkTable (unref_nodes node_pos (t_nodes R) ref) (t_meta R)]> (tables L)) L).
Proof.
  intros HR Href. unfold luaL_unref.
  replace (0 <=? ref) with true by lia.
  step ltac:(reflexivity).
  change (lua_absindex L LUA_REGISTRYINDEX) with LUA_REGISTRYINDEX.
  step ltac:(by eapply lua_rawgeti_registry).
  step ltac:(eapply lua_rawseti_registry; [norm_state; exact HR | reflexivity]).
  step ltac:(reflexivity).
  erewrite lua_rawseti_registry;
    [| norm_state; apply lookup_insert_eq | norm_state; reflexivity].
  norm_state. cbn [t_nodes t_meta]. by rewrite insert_insert_eq.
Qed.

Lemma lookup_registry_get L R k :
  tables L !! l_registry L = Some R -> registry_get L k = rawget (t_nodes R) k.
Proof. intros HR. unfold registry_get, table_get, table_nodes. by rewrite HR. Qed.

Lemma rawget_unref_nodes_string rs ref s :
  rawget (unref_nodes node_pos rs ref) (LString s) = rawget rs (LString s).
Proof. unfold unref_nodes. by rewrite !rawget_table_set_ne. Qed.

Lemma ul_free_engine_object_open L w args h ref ht ns m pm R PM fuel :
  stack L = LUserdata w :: args ->
  h <> NULL -> 0 < ref ->
  udatas L !! w = Some (mkUdata [Some h; Some ref] (Some m)) ->
  tables L !! l_registry L = Some R ->
  rawget (t_nodes R) (LString kEngineMetatableName) = LTable m ->
  rawget (t_nodes R) (LInteger ref) = LTable ht ->
  rawget (t_nodes R) (LString kEnginePointerMapName) = LTable pm ->
  tables L !! ht = Some (mkTable ns None) ->
  tables L !! pm = Some PM ->
  rawget (t_nodes PM) (LLightUserdata h) = LUserdata w ->
  NoDup (keys ns) -> LNil ∉ keys ns ->
  ht <> l_registry L -> pm <> ht -> pm <> l_registry L ->
  (length ns < fuel)%nat ->
  let tr1 := trace L ++ map (Ev_hook_del w) (keys (live ns)) in
  let tbls1 :=
    <[l_registry L := mkTable (unref_nodes node_pos (t_nodes R) ref) (t_meta R)]>
      (<[ht := mkTable (clear_all ns) None]> (tables L)) in
  let LA :=
    mkState (stack L) tbls1
      (<[w := mkUdata [Some h; Some LUA_NOREF] (Some m)]> (udatas L))
      (l_registry L) (tr1 ++ [Ev_uc_close h]) in
  let LB :=
    mkState (stack L)
      (<[pm := mkTable (table_set node_pos (t_nodes PM) (LLightUserdata h) LNil)
                       (t_meta PM)]> tbls1)
      (<[w := mkUdata [Some NULL; Some LUA_NOREF] (Some m)]> (udatas L))
      (l_registry L) (tr1 ++ [Ev_uc_close h]) in
  ul_free_engine_object node_pos uc fuel 1 L =
  if uc_close uc tr1 h =? UC_ERR_OK then Ok tt LB
  else Raise (NativeError (uc_close uc tr1 h)) LA.
Proof.
  intros Hs Hh Href HU HR Hm Hht Hpm HT HPM Hreg Hnd Hnil Hne1 Hne2 Hne3 Hfuel.
  intros tr1 tbls1 LA LB.
  assert (Hrm : registry_get L (LString kEngineMetatableName) = LTable m)
    by (by rewrite (lookup_registry_get L R)).
  assert (Hrr : registry_get L (LInteger ref) = LTable ht)
    by (by rewrite (lookup_registry_get L R)).
  unfold ul_free_engine_object.
  step ltac:(reflexivity).
  change (lua_absindex L 1) with 1.
  step ltac:(eapply luaL_checkudata_ok; [|exact HU|reflexivity|exact Hrm];
             apply index2value_pos; [lia|]; rewrite Hs; reflexivity).
  step ltac:(eapply load_ok; [exact HU|reflexivity]).
  replace (h =? NULL) with false by (unfold NULL in *; lia).
  step ltac:(eapply load_ok; [exact HU|reflexivity]).
  step ltac:(eapply lua_geti_registry; [exact Hrr|done]).
  step ltac:(reflexivity).
  rewrite (lua_absindex_top _ (LUserdata w :: args) (LTable ht))
    by (norm_state; by rewrite Hs).
  step ltac:(reflexivity).
  step ltac:(eapply (teardown_loop node_pos w args h ref ht m ns [] LNil);
             [ by repeat split
             | norm_state; rewrite Hs, <- app_assoc; reflexivity
             | exact HT | exact Hnd | exact Hnil | reflexivity | exact Hfuel ]).
  norm_state. rewrite app_nil_l.
  step ltac:(eapply (lua_pop_app 1 _ (LUserdata w :: args) [LTable ht]); reflexivity).
  norm_state.
  step ltac:(eapply load_ok; [exact HU|reflexivity]).
  step ltac:(eapply luaL_unref_registry;
             [norm_state; rewrite lookup_insert_ne by done; exact HR | lia]).
  norm_state.
  step ltac:(eapply store_ok; [exact HU | cbv; lia]).
  norm_state. cbn [u_mem u_meta]. simpl (<[_ := _]> [_; _]).
  step ltac:(eapply load_ok; [norm_state; apply lookup_insert_eq | reflexivity]).
  step ltac:(reflexivity).
  norm_state. fold tr1. fold tbls1.
  destruct (uc_close uc tr1 h =? UC_ERR_OK) eqn:Hclose.
  - cbn [negb]. step ltac:(reflexivity).
    step ltac:(eapply lua_getfield_registry;
               [ erewrite lookup_registry_get by (norm_state; apply lookup_insert_eq);
                 cbn [t_nodes]; rewrite rawget_unref_nodes_string; exact Hpm
               | done ]).
    step ltac:(eapply load_ok; [norm_state; apply lookup_insert_eq | reflexivity]).
    step ltac:(reflexivity).
    step ltac:(reflexivity).
    unfold push, modify, lua_pushlightuserdata, lua_pushnil, push, modify. norm_state.
    step ltac:(eapply (lua_settable_pushed _ _ (LUserdata w :: args) pm PM
                         (LLightUserdata h) LNil);
               [ norm_state; by rewrite <- !app_assoc
               | norm_state; unfold tbls1; by rewrite !lookup_insert_ne by done
               | by rewrite Hreg
               | done ]).
    norm_state.
    step ltac:(eapply (lua_pop_app 1 _ (LUserdata w :: args) [LTable pm]); reflexivity).
    norm_state.
    erewrite store_ok; [| norm_state; apply lookup_insert_eq | cbv; lia].
    norm_state. cbn [u_mem u_meta]. simpl (<[_ := _]> [_; _]).
    rewrite insert_insert_eq. unfold LB. by rewrite Hs.
  - cbn [negb]. unfold ul_crash_on_error, raise, bind. unfold LA. by rewrite Hs.
Qed.

End Close.

(** ** Closing an engine object *)

Section Lifecycle.
Variable node_pos : lua_Value -> list node -> nat.
Variable uc : EmulationEngine.

Lemma ul_free_engine_object_closed L w args ref m fuel :
  stack L = LUserdata w :: args ->
  udatas L !! w = Some (mkUdata [Some NULL; Some ref] (Some m)) ->
  registry_get L (LString kEngineMetatableName) = LTable m ->
  ul_free_engine_object node_pos uc fuel 1 L = Ok tt L.
Proof.
  intros Hs HU Hm. unfold ul_free_engine_object.
  step ltac:(reflexivity).
  change (lua_absindex L 1) with 1.
  step ltac:(eapply luaL_checkudata_ok; [|exact HU|reflexivity|exact Hm];
             apply index2value_pos; [lia|]; rewrite Hs; reflexivity).
  step ltac:(eapply load_ok; [exact HU|reflexivity]).
  reflexivity.
Qed.

(** The state in which closing an OPEN engine object ends, whether the
    native close succeeds or not. *)
Lemma ul_close_open L w args h ref ht ns fuel :
  stack L = LUserdata w :: args ->
  open_engine L w h ref ht ns ->
  (length ns < fuel)%nat ->
  let tr1 := trace L ++ map (Ev_hook_del w) (keys (live ns)) in
  let status := uc_close uc tr1 h in
  exists m pm R PM L1,
    ul_close node_pos uc fuel L =
      (if status =? UC_ERR_OK then Ok 0 L1 else Raise (NativeError status) L1) /\
    stack L1 = stack L /\
    l_registry L1 = l_registry L /\
    trace L1 = tr1 ++ [Ev_uc_close h] /\
    udatas L1 = <[w := mkUdata [Some (if status =? UC_ERR_OK then NULL else h);
                                Some LUA_NOREF] (Some m)]> (udatas L) /\
    tables L !! l_registry L = Some R /\
    tables L !! pm = Some PM /\
    registry_get L (LString kEnginePointerMapName) = LTable pm /\
    registry_get L (LString kEngineMetatableName) = LTable m /\
    tables L1 =
      (if status =? UC_ERR_OK
       then <[pm := mkTable (table_set node_pos (t_nodes PM) (LLightUserdata h) LNil)
                            (t_meta PM)]>
       else id)
        (<[l_registry L := mkTable (unref_nodes node_pos (t_nodes R) ref) (t_meta R)]>
           (<[ht := mkTable (clear_all ns) None]> (tables L))).
Proof.
  intros Hs (Hh & (m & HU & Hm) & Href & Hht & HT & Hnd & Hnil & Hne1 &
             (pm & Hpm & Hreg & Hne2 & Hne3) & [R HR]) Hfuel tr1 status.
  pose proof Hm as Hm'. pose proof Hht as Hht'. pose proof Hpm as Hpm'.
  rewrite (lookup_registry_get L R) in Hm', Hht', Hpm' by done.
  assert (exists PM, tables L !! pm = Some PM) as [PM HPM].
  { unfold table_get, table_nodes in Hreg.
    destruct (tables L !! pm); [eauto | done]. }
  assert (HregPM : rawget (t_nodes PM) (LLightUserdata h) = LUserdata w).
  { unfold table_get, table_nodes in Hreg. by rewrite HPM in Hreg. }
  pose proof (ul_free_engine_object_open node_pos uc L w args h ref ht ns m pm R PM fuel
                Hs Hh Href HU HR Hm' Hht' Hpm' HT HPM HregPM Hnd Hnil Hne1 Hne2 Hne3 Hfuel)
    as Hfree.
  cbv zeta in Hfree. fold tr1 in Hfree. fold status in Hfree.
  exists m, pm, R, PM. unfold ul_close, bind. rewrite Hfree.
  destruct (status =? UC_ERR_OK); eexists; (split; [reflexivity|]); by repeat split.
Qed.

End Lifecycle.

Lemma native_closes_hook_dels w ks :
  native_closes (map (Ev_hook_del w) ks) = [].
Proof. induction ks; [done | exact IHks]. Qed.

Lemma hook_dels_map w ks :
  hook_dels (map (Ev_hook_del w) ks) = map (pair w) ks.
Proof. induction ks as [|k ks IH]; [done | simpl; by rewrite <- IH]. Qed.

Lemma native_closes_app tr1 tr2 :
  native_closes (tr1 ++ tr2) = native_closes tr1 ++ native_closes tr2.
Proof. apply omap_app. Qed.

Lemma set_stack_set_stack s s' L : set_stack s (set_stack s' L) = set_stack s L.
Proof. reflexivity. Qed.

Lemma set_stack_id L : set_stack (stack L) L = L.
Proof. by destruct L. Qed.

Lemma NoDup_keys_live ns : NoDup (keys ns) -> NoDup (keys (live ns)).
Proof.
  unfold keys, live. induction ns as [|[k v] r IH]; simpl; [done|].
  intros [Hk Hr]%NoDup_cons. specialize (IH Hr).
  destruct (decide (v = LNil)).
  - by rewrite filter_cons_False by (simpl; by intros ?).
  - rewrite filter_cons_True by done. simpl. apply NoDup_cons. split; [|done].
    intros Hin. apply Hk. apply list_elem_of_fmap in Hin as (x & -> & Hx).
    apply list_elem_of_fmap. exists x. split; [done|].
    by apply list_elem_of_filter in Hx as [_ ?].
Qed.

Section Claims.
Variable node_pos : lua_Value -> list node -> nat.
Variable l_str2int : string -> option Z.
Variable uc : EmulationEngine.

Lemma host_call_ul_close_closed L w args ref m fuel :
  udatas L !! w = Some (mkUdata [Some NULL; Some ref] (Some m)) ->
  registry_get L (LString kEngineMetatableName) = LTable m ->
  close_call node_pos uc fuel w args L = Ok [] L.
Proof.
  intros HU Hm. unfold close_call, host_call, ul_close, bind.
  rewrite (ul_free_engine_object_closed node_pos uc _ w args ref m) by done.
  unfold ret, lua_gettop. norm_state. change (0 <=? 0) with true.
  replace (0 <=? Z.of_nat (length (LUserdata w :: args))) with true
      by (symmetry; apply Z.leb_le; lia).
  cbn [andb]. rewrite Nat.sub_0_r, drop_all. by destruct L.
Qed.

(** Closing an OPEN engine object from the host, whether the native
    close succeeds or not. *)
Lemma close_call_open L w args h ref ht ns fuel :
  open_engine L w h ref ht ns ->
  (length ns < fuel)%nat ->
  let tr1 := trace L ++ map (Ev_hook_del w) (keys (live ns)) in
  let status := uc_close uc tr1 h in
  exists m pm R PM L1,
    close_call node_pos uc fuel w args L =
      (if status =? UC_ERR_OK then Ok [] L1 else Raise (NativeError status) L1) /\
    stack L1 = stack L /\
    l_registry L1 = l_registry L /\
    trace L1 = tr1 ++ [Ev_uc_close h] /\
    udatas L1 = <[w := mkUdata [Some (if status =? UC_ERR_OK then NULL else h);
                                Some LUA_NOREF] (Some m)]> (udatas L) /\
    tables L !! l_registry L = Some R /\
    tables L !! pm = Some PM /\
    registry_get L (LString kEnginePointerMapName) = LTable pm /\
    registry_get L (LString kEngineMetatableName) = LTable m /\
    tables L1 =
      (if status =? UC_ERR_OK
       then <[pm := mkTable (table_set node_pos (t_nodes PM) (LLightUserdata h) LNil)
                            (t_meta PM)]>
       else id)
        (<[l_registry L := mkTable (unref_nodes node_pos (t_nodes R) ref) (t_meta R)]>
           (<[ht := mkTable (clear_all ns) None]> (tables L))).
Proof.
  intros Hopen Hfuel tr1 status.
  destruct (ul_close_open node_pos uc (set_stack (LUserdata w :: args) L)
              w args h ref ht ns fuel eq_refl Hopen Hfuel)
    as (m & pm & R & PM & L1 & Hrun & Hs1 & Hr1 & Htr1 & Hu1 & HR & HPM & Hpm & Hm & Ht1).
  cbv zeta in Hrun, Htr1, Hu1, Ht1. norm_state. fold tr1 in Hrun, Htr1, Hu1, Ht1.
  fold status in Hrun, Hu1, Ht1.
  exists m, pm, R, PM, (set_stack (stack L) L1).
  split; [|by repeat split].
  unfold close_call, host_call. norm_state. rewrite Hrun.
  destruct (status =? UC_ERR_OK); [|done].
  unfold lua_gettop. rewrite Hs1. change (0 <=? 0) with true.
  replace (0 <=? Z.of_nat (length (LUserdata w :: args))) with true
    by (symmetry; apply Z.leb_le; lia).
  cbn [andb]. by rewrite Nat.sub_0_r, drop_all.
Qed.

Lemma registry_string_after_close L L1 R pm T s :
  tables L !! l_registry L = Some R ->
  l_registry L1 = l_registry L ->
  pm <> l_registry L ->
  forall (upd : gmap addr Table -> gmap addr Table) ref ht HT,
  (upd = insert pm T \/ upd = id) ->
  tables L1 =
    upd (<[l_registry L := mkTable (unref_nodes node_pos (t_nodes R) ref) (t_meta R)]>
           (<[ht := HT]> (tables L))) ->
  registry_get L1 (LString s) = registry_get L (LString s).
Proof.
  intros HR Hr1 Hne upd ref ht HT Hupd Ht1.
  unfold registry_get, table_get, table_nodes. rewrite Hr1, Ht1, HR.
  destruct Hupd as [-> | ->]; cbn [id];
    rewrite ?lookup_insert_ne by done; rewrite lookup_insert_eq;
    cbn [t_nodes]; by rewrite rawget_unref_nodes_string.
Qed.

Lemma lua_State_eq L1 L2 :
  stack L1 = stack L2 -> tables L1 = tables L2 -> udatas L1 = udatas L2 ->
  l_registry L1 = l_registry L2 -> trace L1 = trace L2 -> L1 = L2.
Proof. destruct L1, L2. simpl. by intros -> -> -> -> ->. Qed.

(** A close that the native library accepts: every such call on the OPEN
    object ends in one and the same state, whatever its other arguments. *)
Lemma close_call_succeeds L w h ref ht ns fuel :
  open_engine L w h ref ht ns ->
  native_close_status uc L w h ns = UC_ERR_OK ->
  (length ns < fuel)%nat ->
  exists L1,
    (forall args, close_call node_pos uc fuel w args L = Ok [] L1) /\
    native_closes (trace L1) = native_closes (trace L) ++ [h] /\
    closed_engine L1 w.
Proof.
  intros Hopen Hok Hfuel.
  destruct (close_call_open L w [] h ref ht ns fuel Hopen Hfuel)
    as (m & pm & R & PM & L1 & Hrun & Hs1 & Hr1 & Htr1 & Hu1 & HR & HPM & Hpm & Hm & Ht1).
  cbv zeta in *. fold (native_close_status uc L w h ns) in *.
  rewrite Hok in *. cbn [Z.eqb UC_ERR_OK] in *.
  assert (Hfirst : forall args, close_call node_pos uc fuel w args L = Ok [] L1).
  { intros args.
    destruct (close_call_open L w args h ref ht ns fuel Hopen Hfuel)
      as (m' & pm' & R' & PM' & L1' & Hrun' & Hs1' & Hr1' & Htr1' & Hu1' & HR' & HPM' &
          Hpm' & Hm' & Ht1').
    cbv zeta in *. fold (native_close_status uc L w h ns) in *.
    rewrite Hok in *. cbn [Z.eqb UC_ERR_OK] in *.
    assert (m' = m) as -> by congruence.
    assert (pm' = pm) as -> by congruence.
    assert (R' = R) as -> by congruence.
    assert (PM' = PM) as -> by congruence.
    rewrite Hrun'. f_equal. apply lua_State_eq; congruence. }
  destruct Hopen as (_ & _ & _ & _ & _ & _ & _ & _ & (pm' & Hpm' & _ & _ & Hne3) & _).
  assert (pm' = pm) as -> by congruence.
  exists L1. split; [exact Hfirst|]. split.
  - rewrite Htr1, !native_closes_app, native_closes_hook_dels.
    by rewrite app_nil_r.
  - exists LUA_NOREF, m. split; [by rewrite Hu1, lookup_insert_eq|].
    rewrite <- Hm.
    by apply (registry_string_after_close L L1 R pm _ _ HR Hr1 Hne3 _ ref ht _
                (or_introl eq_refl) Ht1).
Qed.

(** C1.  Any sequence of close calls on an engine object, made by the
    program ([close]) or by the collector ([__gc], bound to the same
    function), invokes the native close exactly once: the first call, on
    the OPEN object, tears it down and leaves it CLOSED; every later call
    returns successfully and changes nothing. *)
Theorem close_invokes_native_close_once L w h ref ht ns fuel :
  open_engine L w h ref ht ns ->
  native_close_status uc L w h ns = UC_ERR_OK ->
  (length ns < fuel)%nat ->
  registered "__gc" kEngineMetamethods = Some F_ul_close /\
  registered "close" kEngineInstanceMethods = Some F_ul_close /\
  c_function node_pos l_str2int uc fuel F_ul_close = Some (ul_close node_pos uc fuel) /\
  exists L1,
    (forall args, close_call node_pos uc fuel w args L = Ok [] L1) /\
    (forall args argss, close_calls node_pos uc fuel w (args :: argss) L = Ok tt L1) /\
    native_closes (trace L1) = native_closes (trace L) ++ [h] /\
    closed_engine L1 w.
Proof.
  intros Hopen Hok Hfuel. do 3 (split; [reflexivity|]).
  destruct (close_call_succeeds L w h ref ht ns fuel Hopen Hok Hfuel)
    as (L1 & Hfirst & Honce & Hclosed).
  exists L1. split; [exact Hfirst|]. split; [|by split].
  destruct Hclosed as (ref1 & m1 & HU1 & Hm1).
  intros args argss. cbn [close_calls]. unfold bind at 1. rewrite Hfirst.
  induction argss as [|a r IH]; [done|].
  cbn [close_calls]. unfold bind at 1.
  by rewrite (host_call_ul_close_closed _ w a ref1 m1).
Qed.

(** C2, as the code has it.  Closing an OPEN engine object calls the hook
    manager's delete once for each entry of the hook table, in the order
    of the table's nodes, which is the order in which [lua_next] walks the
    table and need not be the order of insertion; all of this happens
    before the native close, and the hook table is empty afterward. *)
Theorem close_releases_hooks_in_table_order L w args h ref ht ns fuel :
  open_engine L w h ref ht ns ->
  (length ns < fuel)%nat ->
  exists L1,
    final_state (close_call node_pos uc fuel w args L) = Some L1 /\
    trace L1 =
      trace L ++ map (Ev_hook_del w) (keys (live ns)) ++ [Ev_uc_close h] /\
    NoDup (keys (live ns)) /\
    live (table_nodes L1 ht) = [].
Proof.
  intros Hopen Hfuel.
  destruct (close_call_open L w args h ref ht ns fuel Hopen Hfuel)
    as (m & pm & R & PM & L1 & Hrun & Hs1 & Hr1 & Htr1 & Hu1 & HR & HPM & Hpm & Hm & Ht1).
  cbv zeta in *.
  destruct Hopen as (_ & _ & _ & _ & _ & Hnd & _ & Hne1 & (pm' & Hpm' & _ & Hne2 & Hne3) & _).
  assert (pm' = pm) as -> by congruence.
  exists L1. repeat split.
  - rewrite Hrun. by destruct (_ =? _).
  - by rewrite Htr1, <- app_assoc.
  - by apply NoDup_keys_live.
  - assert (l_registry L <> ht) by congruence.
    unfold table_nodes. rewrite Ht1.
    destruct (_ =? _); cbn [id]; rewrite !lookup_insert_ne by done;
      rewrite lookup_insert_eq; apply live_clear_all.
Qed.

(** C9.  A status other than success that the native close returns during
    close is raised as a host error through [ul_crash_on_error], carrying
    that status; the native close has then been called once, and is not
    called again. *)
Theorem native_close_failure_is_raised L w args h ref ht ns fuel :
  open_engine L w h ref ht ns ->
  (length ns < fuel)%nat ->
  let status := native_close_status uc L w h ns in
  status <> UC_ERR_OK ->
  exists L1,
    close_call node_pos uc fuel w args L = Raise (NativeError status) L1 /\
    ul_crash_on_error status L1 = Raise (NativeError status) L1 /\
    native_closes (trace L1) = native_closes (trace L) ++ [h].
Proof.
  intros Hopen Hfuel status Hstatus.
  destruct (close_call_open L w args h ref ht ns fuel Hopen Hfuel)
    as (m & pm & R & PM & L1 & Hrun & Hs1 & Hr1 & Htr1 & Hu1 & HR & HPM & Hpm & Hm & Ht1).
  subst status. unfold native_close_status in *. cbv zeta in *.
  apply Z.eqb_neq in Hstatus. rewrite Hstatus in Hrun.
  exists L1. repeat split; [done|].
  rewrite Htr1, !native_closes_app, native_closes_hook_dels.
  by rewrite app_nil_r.
Qed.

End Claims.

Lemma ul_toengine_open L idx w U m h :
  index2value L idx = Some (LUserdata w) ->
  udatas L !! w = Some U -> u_meta U = Some m ->
  u_mem U !! f_engine = Some (Some h) ->
  registry_get L (LString kEngineMetatableName) = LTable m ->
  h <> NULL ->
  ul_toengine idx L = Ok h L.
Proof.
  intros Hi HU Hm Hh Hr Hnn. unfold ul_toengine.
  step ltac:(by eapply luaL_checkudata_ok).
  step ltac:(by eapply load_ok).
  replace (h =? NULL) with false by (unfold NULL in *; lia).
  step ltac:(reflexivity).
  by eapply load_ok.
Qed.

Lemma ul_toengine_closed L idx w U m :
  index2value L idx = Some (LUserdata w) ->
  udatas L !! w = Some U -> u_meta U = Some m ->
  u_mem U !! f_engine = Some (Some NULL) ->
  registry_get L (LString kEngineMetatableName) = LTable m ->
  ul_toengine idx L = Raise closed_engine_error L.
Proof.
  intros Hi HU Hm Hh Hr. unfold ul_toengine.
  step ltac:(by eapply luaL_checkudata_ok).
  step ltac:(by eapply load_ok).
  reflexivity.
Qed.

Lemma table_get_Some L a k v :
  table_get L a k = v -> v <> LNil ->
  exists T, tables L !! a = Some T /\ rawget (t_nodes T) k = v.
Proof.
  unfold table_get, table_nodes.
  destruct (tables L !! a) as [T|]; [eauto | simpl; congruence].
Qed.

Lemma lua_remove_under_top L base x y :
  stack L = base ++ [x; y] -> lua_remove (-2) L = Ok tt (set_stack (base ++ [y]) L).
Proof.
  intros Hs. unfold lua_remove, stack_pos, lua_absindex, lua_gettop.
  rewrite Hs, length_app. cbn [length].
  change (0 <? -2) with false. change (ispseudo (-2)) with false. cbn [orb].
  replace ((1 <=? Z.of_nat (length base + 2) + 1 + -2) &&
           (Z.of_nat (length base + 2) + 1 + -2 <=? Z.of_nat (length base + 2)))
    with true
    by (symmetry; apply andb_true_intro; split; apply Z.leb_le; lia).
  replace (Z.to_nat (Z.of_nat (length base + 2) + 1 + -2 - 1)) with (length base) by lia.
  by rewrite delete_middle.
Qed.

Lemma lua_isnil_top L base v :
  stack L = base ++ [v] -> lua_isnil (-1) L = Ok (is_nil v) L.
Proof.
  intros Hs. unfold lua_isnil.
  rewrite (index2value_neg_app L base [v] (-1) v) by done.
  destruct v; reflexivity.
Qed.

Lemma lua_gettable_pushed L base a k v :
  stack L = base ++ [LTable a; k] ->
  index_get (LTable a) k L = Ok v L ->
  lua_gettable (-2) L = Ok tt (set_stack (base ++ [LTable a; v]) L).
Proof.
  intros Hs Hget. unfold lua_gettable.
  step ltac:(eapply value_at_ok, (index2value_neg_app L base [LTable a; k]); done).
  step ltac:(eapply value_at_ok, (index2value_neg_app L base [LTable a; k]); done).
  step ltac:(exact Hget).
  step ltac:(eapply (lua_pop_app 1 L (base ++ [LTable a]) [k]);
             [by rewrite Hs, <- app_assoc | done]).
  unfold push, modify. norm_state. by rewrite <- app_assoc.
Qed.

Lemma ul_get_engine_object_found L pm h v :
  registry_get L (LString kEnginePointerMapName) = LTable pm ->
  table_get L pm (LLightUserdata h) = v -> v <> LNil ->
  ul_get_engine_object h L = Ok tt (set_stack (stack L ++ [v]) L).
Proof.
  intros Hpm Hv Hnn. apply table_get_Some in Hv as (PM & HPM & Hv); [|done].
  unfold ul_get_engine_object.
  step ltac:(eapply lua_getfield_registry; [exact Hpm | done]).
  step ltac:(reflexivity).
  step ltac:(eapply (lua_gettable_pushed _ (stack L) pm (LLightUserdata h) v);
             [norm_state; by rewrite <- app_assoc | by eapply (index_get_live _ pm PM)]).
  norm_state.
  step ltac:(eapply (lua_isnil_top _ (stack L ++ [LTable pm]) v);
             norm_state; by rewrite <- app_assoc).
  rewrite is_nil_false by done.
  step ltac:(reflexivity).
  by rewrite (lua_remove_under_top _ (stack L) (LTable pm) v).
Qed.

Lemma metamethod_handler_of L mt event v :
  handler_of L mt event = Some v -> metamethod mt event L = Ok v L.
Proof.
  unfold handler_of, metamethod, bind, get_table. destruct mt as [m|]; [|by intros [= <-]].
  destruct (tables L !! m); [by intros [= <-] | done].
Qed.

Lemma index_get_absent L a k :
  no_handler L a "__index" -> table_get L a k = LNil ->
  index_get (LTable a) k L = Ok LNil L.
Proof.
  intros (T & HT & Hh) Hk. unfold table_get, table_nodes in Hk. rewrite HT in Hk.
  unfold index_get, bind, get_table. rewrite HT. cbn [from_option ret].
  rewrite Hk. cbn [is_nil]. by rewrite (metamethod_handler_of _ _ _ _ Hh).
Qed.

Lemma index_get_state L t k v L' : index_get t k L = Ok v L' -> L' = L.
Proof.
  unfold index_get, index_error, bind, get_table, get_udata, metamethod, get_table,
    from_option, ret, stuck, raise, bind.
  intros H. repeat (case_match; simplify_eq; try done).
Qed.

Lemma ul_get_engine_object_missing L pm h :
  registry_get L (LString kEnginePointerMapName) = LTable pm ->
  no_handler L pm "__index" ->
  table_get L pm (LLightUserdata h) = LNil ->
  ul_get_engine_object h L = Raise (not_registered_error h) L.
Proof.
  intros Hpm Hno Hv. unfold ul_get_engine_object.
  step ltac:(eapply lua_getfield_registry; [exact Hpm | done]).
  step ltac:(reflexivity).
  step ltac:(eapply (lua_gettable_pushed _ (stack L) pm (LLightUserdata h) LNil);
             [norm_state; by rewrite <- app_assoc | by eapply (index_get_absent _ pm)]).
  norm_state.
  step ltac:(eapply (lua_isnil_top _ (stack L ++ [LTable pm]) LNil);
             norm_state; by rewrite <- app_assoc).
  cbn [is_nil].
  erewrite bind_raise; [reflexivity|].
  erewrite bind_ok;
    [| by eapply (lua_pop_app 2 _ (stack L) [LTable pm; LNil])].
  unfold luaL_error, raise, not_registered_error. norm_state. by destruct L.
Qed.

Section Claims2.
Variable node_pos : lua_Value -> list node -> nat.
Variable l_str2int : string -> option Z.
Variable uc : EmulationEngine.

Lemma index2value_first L v s : stack L = v :: s -> index2value L 1 = Some v.
Proof. intros Hs. apply index2value_pos; [lia|]. by rewrite Hs. Qed.

(** C10.  Close is not atomic when the native close fails: the error is
    raised once the hooks have been released and the hook table reference
    replaced by [LUA_NOREF], but before the object is removed from the
    pointer map and before its handle is cleared; the object stays OPEN
    and registered, without a hook table. *)
Theorem close_is_not_atomic_on_native_failure L w args h ref ht ns fuel :
  open_engine L w h ref ht ns ->
  (length ns < fuel)%nat ->
  let status := native_close_status uc L w h ns in
  status <> UC_ERR_OK ->
  exists m pm L1,
    close_call node_pos uc fuel w args L = Raise (NativeError status) L1 /\
    trace L1 =
      trace L ++ map (Ev_hook_del w) (keys (live ns)) ++ [Ev_uc_close h] /\
    live (table_nodes L1 ht) = [] /\
    registry_get L1 (LInteger ref) = registry_get L (LInteger freelist) /\
    udatas L1 !! w = Some (mkUdata [Some h; Some LUA_NOREF] (Some m)) /\
    h <> NULL /\
    registry_get L1 (LString kEnginePointerMapName) = LTable pm /\
    table_get L1 pm (LLightUserdata h) = LUserdata w /\
    ul_get_engine_object h L1 = Ok tt (set_stack (stack L1 ++ [LUserdata w]) L1) /\
    forall args', ul_toengine 1 (set_stack (LUserdata w :: args') L1) =
                  Ok h (set_stack (LUserdata w :: args') L1).
Proof.
  intros Hopen Hfuel status Hstatus.
  destruct (close_call_open node_pos uc L w args h ref ht ns fuel Hopen Hfuel)
    as (m & pm & R & PM & L1 & Hrun & Hs1 & Hr1 & Htr1 & Hu1 & HR & HPM & Hpm & Hm & Ht1).
  subst status. unfold native_close_status in *. cbv zeta in *.
  apply Z.eqb_neq in Hstatus. rewrite Hstatus in Hrun, Hu1, Ht1. cbn [id] in Ht1.
  destruct Hopen as (Hh & _ & Href & _ & _ & _ & _ & Hne1 &
                     (pm' & Hpm' & Hreg & Hne2 & Hne3) & _).
  assert (pm' = pm) as -> by congruence.
  assert (Hne1' : l_registry L <> ht) by congruence.
  assert (Hne3' : l_registry L <> pm) by congruence.
  assert (Hne2' : ht <> pm) by congruence.
  assert (Hpm1 : registry_get L1 (LString kEnginePointerMapName) = LTable pm).
  { rewrite <- Hpm.
    by apply (registry_string_after_close node_pos L L1 R pm PM _ HR Hr1 Hne3 _ ref ht _
                (or_intror eq_refl) Ht1). }
  assert (Hm1 : registry_get L1 (LString kEngineMetatableName) = LTable m).
  { rewrite <- Hm.
    by apply (registry_string_after_close node_pos L L1 R pm PM _ HR Hr1 Hne3 _ ref ht _
                (or_intror eq_refl) Ht1). }
  assert (Hreg1 : table_get L1 pm (LLightUserdata h) = LUserdata w).
  { unfold table_get, table_nodes in *. by rewrite Ht1, !lookup_insert_ne. }
  assert (HU1 : udatas L1 !! w = Some (mkUdata [Some h; Some LUA_NOREF] (Some m)))
    by (by rewrite Hu1, lookup_insert_eq).
  exists m, pm, L1. repeat split; try done.
  - by rewrite Htr1, <- app_assoc.
  - unfold table_nodes. rewrite Ht1, lookup_insert_ne, lookup_insert_eq by done.
    apply live_clear_all.
  - unfold registry_get, table_get, table_nodes.
    rewrite Hr1, Ht1, lookup_insert_eq, HR. cbn [t_nodes]. unfold unref_nodes.
    rewrite rawget_table_set_ne by (unfold freelist; intros [= ?]; lia).
    apply rawget_table_set_eq.
  - by apply (ul_get_engine_object_found L1 pm h (LUserdata w)).
  - intros args'.
    by eapply (ul_toengine_open _ 1 w _ m h);
      [by eapply index2value_first | exact HU1 | ..].
Qed.

(** C3.  On an OPEN engine object the guarded accessor returns the handle,
    which is not [NULL].  Once close has succeeded, every operation that
    resolves the handle through the accessor fails with the closed-engine
    error, and does nothing else. *)
Theorem guarded_access L w args h ref ht ns fuel :
  open_engine L w h ref ht ns ->
  native_close_status uc L w h ns = UC_ERR_OK ->
  (length ns < fuel)%nat ->
  h <> NULL /\
  (forall args', ul_toengine 1 (set_stack (LUserdata w :: args') L) =
                 Ok h (set_stack (LUserdata w :: args') L)) /\
  exists L1,
    close_call node_pos uc fuel w args L = Ok [] L1 /\
    forall op args', op ∈ guarded_operations l_str2int uc ->
      op (set_stack (LUserdata w :: args') L1) =
      Raise closed_engine_error (set_stack (LUserdata w :: args') L1).
Proof.
  intros Hopen Hok Hfuel.
  destruct (close_call_succeeds node_pos uc L w h ref ht ns fuel Hopen Hok Hfuel)
    as (L1 & Hrun & _ & (ref1 & m1 & HU1 & Hm1)).
  destruct Hopen as (Hh & (m & HU & Hm) & _).
  split; [done|]. split.
  - intros args'.
    by eapply (ul_toengine_open _ 1 w _ m h);
      [by eapply index2value_first | exact HU | ..].
  - exists L1. split; [apply Hrun|]. intros op args' Hop.
    assert (Hacc : ul_toengine 1 (set_stack (LUserdata w :: args') L1) =
                   Raise closed_engine_error (set_stack (LUserdata w :: args') L1))
      by (by eapply (ul_toengine_closed _ 1 w _ m1);
            [by eapply index2value_first | exact HU1 | ..]).
    unfold guarded_operations in Hop.
    repeat (apply elem_of_cons in Hop as [-> | Hop]);
      [by apply bind_raise.. | by apply elem_of_nil in Hop].
Qed.

(** C4.  Closing an OPEN engine object leaves it in the CLOSED state: its
    handle is [NULL], its hook table is empty and its reference released
    and replaced by [LUA_NOREF], and the pointer map no longer has an
    entry for the former handle, so that looking the handle up fails with
    the not-registered error. *)
Theorem close_establishes_closed_state L w args h ref ht ns pm fuel :
  open_engine L w h ref ht ns ->
  registry_get L (LString kEnginePointerMapName) = LTable pm ->
  no_handler L pm "__index" ->
  native_close_status uc L w h ns = UC_ERR_OK ->
  (length ns < fuel)%nat ->
  exists m L1,
    close_call node_pos uc fuel w args L = Ok [] L1 /\
    udatas L1 !! w = Some (mkUdata [Some NULL; Some LUA_NOREF] (Some m)) /\
    live (table_nodes L1 ht) = [] /\
    registry_get L1 (LInteger ref) = registry_get L (LInteger freelist) /\
    table_get L1 pm (LLightUserdata h) = LNil /\
    ul_get_engine_object h L1 = Raise (not_registered_error h) L1.
Proof.
  intros Hopen Hpm0 (PM0 & HPM0 & Hno) Hok Hfuel.
  destruct (close_call_open node_pos uc L w args h ref ht ns fuel Hopen Hfuel)
    as (m & pm' & R & PM & L1 & Hrun & Hs1 & Hr1 & Htr1 & Hu1 & HR & HPM & Hpm & Hm & Ht1).
  cbv zeta in *. fold (native_close_status uc L w h ns) in *.
  rewrite Hok in *. cbn [Z.eqb UC_ERR_OK] in *.
  assert (pm' = pm) as -> by congruence.
  assert (PM0 = PM) as -> by congruence.
  destruct Hopen as (Hh & _ & Href & _ & HT & _ & _ & Hne1 &
                     (pm' & Hpm' & Hreg & Hne2 & Hne3) & _).
  assert (pm' = pm) as -> by congruence.
  assert (Hne1' : l_registry L <> ht) by congruence.
  assert (Hne3' : l_registry L <> pm) by congruence.
  assert (Hne2' : ht <> pm) by congruence.
  assert (Hpm1 : registry_get L1 (LString kEnginePointerMapName) = LTable pm).
  { rewrite <- Hpm.
    by apply (registry_string_after_close node_pos L L1 R pm _ _ HR Hr1 Hne3 _ ref ht _
                (or_introl eq_refl) Ht1). }
  assert (Hgone : table_get L1 pm (LLightUserdata h) = LNil).
  { unfold table_get, table_nodes. rewrite Ht1, lookup_insert_eq. cbn [t_nodes].
    apply rawget_table_set_eq. }
  exists m, L1. repeat split; try done.
  - by rewrite Hu1, lookup_insert_eq.
  - unfold table_nodes.
    rewrite Ht1, !lookup_insert_ne, lookup_insert_eq by done.
    apply live_clear_all.
  - unfold registry_get, table_get, table_nodes.
    rewrite Hr1, Ht1, lookup_insert_ne, lookup_insert_eq, HR by done.
    cbn [t_nodes]. unfold unref_nodes.
    rewrite rawget_table_set_ne by (unfold freelist; intros [= ?]; lia).
    apply rawget_table_set_eq.
  - apply (ul_get_engine_object_missing L1 pm h); [done| |done].
    eexists. split; [rewrite Ht1; apply lookup_insert_eq|]. cbn [t_meta].
    unfold handler_of in *. destruct (t_meta PM) as [mt|]; [|done].
    rewrite Ht1.
    destruct (decide (mt = pm)) as [->|Hmp].
    { rewrite lookup_insert_eq. cbn [t_nodes]. rewrite rawget_table_set_ne by done.
      by rewrite HPM in Hno. }
    rewrite lookup_insert_ne by done.
    destruct (decide (mt = l_registry L)) as [->|Hmr].
    { rewrite lookup_insert_eq. cbn [t_nodes]. rewrite rawget_unref_nodes_string.
      by rewrite HR in Hno. }
    rewrite lookup_insert_ne by done.
    destruct (decide (mt = ht)) as [->|Hmh].
    { rewrite lookup_insert_eq. cbn [t_nodes]. by rewrite rawget_clear_all. }
    by rewrite lookup_insert_ne.
Qed.

End Claims2.

(** ** Creating and looking up engine objects *)

Lemma fresh_addr_spec L :
  tables L !! fresh_addr L = None /\ udatas L !! fresh_addr L = None /\
  fresh_addr L <> l_registry L.
Proof.
  pose proof (is_fresh (dom (tables L) ∪ dom (udatas L) ∪ {[l_registry L]})) as H.
  fold (fresh_addr L) in H.
  rewrite !not_elem_of_union, !not_elem_of_dom, not_elem_of_singleton in H.
  tauto.
Qed.

Lemma open_engine_handle L w h ref ht ns :
  open_engine L w h ref ht ns -> engine_handle L w h.
Proof.
  intros (Hh & (m & HU & Hm) & _). split; [done|].
  by exists (mkUdata [Some h; Some ref] (Some m)), m.
Qed.

Lemma ul_toengine_handle L w args h :
  engine_handle L w h -> stack L = LUserdata w :: args -> ul_toengine 1 L = Ok h L.
Proof.
  intros (Hh & U & m & HU & Hm & Hmem & Hr) Hs.
  eapply ul_toengine_open; eauto using index2value_first.
Qed.

Lemma luaL_setmetatable_new L base a U tname m :
  stack L = base ++ [LUserdata a] ->
  udatas L !! a = Some U ->
  registry_get L (LString tname) = LTable m ->
  luaL_setmetatable tname L =
  Ok tt (set_udatas (<[a := mkUdata (u_mem U) (Some m)]> (udatas L)) L).
Proof.
  intros Hs HU Hm. unfold luaL_setmetatable, luaL_getmetatable.
  step ltac:(eapply lua_getfield_registry; [exact Hm | done]).
  unfold lua_setmetatable.
  step ltac:(eapply value_at_ok, (index2value_neg_app _ base [LUserdata a; LTable m]);
             [norm_state; by rewrite Hs, <- app_assoc | done..]).
  step ltac:(eapply value_at_ok, (index2value_neg_app _ base [LUserdata a; LTable m]);
             [norm_state; by rewrite Hs, <- app_assoc | done..]).
  step ltac:(reflexivity).
  unfold get_udata at 1.
  step ltac:(erewrite bind_ok; [reflexivity | norm_state; rewrite HU; reflexivity]).
  rewrite (lua_pop_app 1 _ (stack L) [LTable m]) by done.
  by destruct L.
Qed.

Lemma lua_rawlen_registry L R :
  tables L !! l_registry L = Some R ->
  lua_rawlen LUA_REGISTRYINDEX L = Ok (border (t_nodes R)) L.
Proof.
  intros HR. unfold lua_rawlen.
  step ltac:(apply value_at_ok, index2value_registry).
  unfold get_table. step ltac:(rewrite HR; reflexivity).
  reflexivity.
Qed.

Section Steps2.
Variable node_pos : lua_Value -> list node -> nat.
Variable l_str2int : string -> option Z.

Lemma index_set_raw L a T k v :
  tables L !! a = Some T ->
  rawget (t_nodes T) k <> LNil \/ handler_of L (t_meta T) "__newindex" = Some LNil ->
  k <> LNil ->
  index_set node_pos (LTable a) k v L =
  Ok tt (set_tables (<[a := mkTable (table_set node_pos (t_nodes T) k v) (t_meta T)]>
                       (tables L)) L).
Proof.
  intros HT Hraw Hk.
  destruct (decide (rawget (t_nodes T) k = LNil)) as [Hnil|Hlive];
    [|by apply index_set_live].
  destruct Hraw as [?|Hno]; [done|].
  unfold index_set, bind, get_table. rewrite HT. cbn [from_option ret].
  rewrite Hnil. cbn [is_nil]. rewrite (metamethod_handler_of _ _ _ _ Hno).
  cbn [is_nil]. unfold rawset, bind, get_table. rewrite HT. simpl. by destruct k.
Qed.

Lemma lua_settable_raw L base a T k v :
  stack L = base ++ [LTable a; k; v] ->
  tables L !! a = Some T ->
  rawget (t_nodes T) k <> LNil \/ handler_of L (t_meta T) "__newindex" = Some LNil ->
  k <> LNil ->
  lua_settable node_pos (-3) L =
  Ok tt (set_stack (base ++ [LTable a])
           (set_tables (<[a := mkTable (table_set node_pos (t_nodes T) k v) (t_meta T)]>
                          (tables L)) L)).
Proof.
  intros Hs HT Hraw Hk. unfold lua_settable.
  step ltac:(apply value_at_ok, (index2value_neg_app L base [LTable a; k; v]); done).
  step ltac:(apply value_at_ok, (index2value_neg_app L base [LTable a; k; v]); done).
  step ltac:(apply value_at_ok, (index2value_neg_app L base [LTable a; k; v]); done).
  step ltac:(by apply index_set_raw).
  rewrite (lua_pop_app 2 _ (base ++ [LTable a]) [k; v]); [done| |done].
  norm_state. rewrite Hs. by rewrite <- app_assoc.
Qed.

(** A new reference in the registry: the other keys keep their values. *)
Lemma luaL_ref_registry L base v R :
  stack L = base ++ [v] -> v <> LNil ->
  tables L !! l_registry L = Some R ->
  exists ref rs,
    luaL_ref node_pos l_str2int LUA_REGISTRYINDEX L =
      Ok ref (mkState base (<[l_registry L := mkTable rs (t_meta R)]> (tables L))
                (udatas L) (l_registry L) (trace L)) /\
    (forall s, rawget rs (LString s) = rawget (t_nodes R) (LString s)) /\
    rawget rs (LInteger ref) = v.
Proof.
  intros Hs Hv HR. unfold luaL_ref.
  rewrite (bind_ok _ _ _ _ _ (lua_isnil_top L base v Hs)).
  rewrite (is_nil_false _ Hv).
  step ltac:(reflexivity).
  change (lua_absindex L LUA_REGISTRYINDEX) with LUA_REGISTRYINDEX.
  step ltac:(by eapply lua_rawgeti_registry).
  set (f := rawget (t_nodes R) (LInteger freelist)).
  assert (exists r0, lua_tointeger l_str2int (-1) (set_stack (stack L ++ [f]) L) =
                     Ok r0 (set_stack (stack L ++ [f]) L)) as [r0 Hr0].
  { unfold lua_tointeger.
    erewrite bind_ok;
      [| eapply value_at_ok, (index2value_neg_app _ (stack L) [f]); done].
    destruct f; eauto. }
  step ltac:(exact Hr0).
  step ltac:(by eapply (lua_pop_app 1 _ (stack L) [f])).
  norm_state.
  destruct (to_int r0 =? 0) eqn:E; cbn [negb].
  - step ltac:(erewrite bind_ok; [reflexivity | by eapply lua_rawlen_registry]).
    erewrite bind_ok;
      [| eapply (lua_rawseti_registry node_pos _ R base v); [exact HR | exact Hs]].
    norm_state. eexists _, _. split; [reflexivity|]. split.
    + intros s. by rewrite rawget_table_set_ne.
    + apply rawget_table_set_eq.
  - step ltac:(erewrite bind_ok;
                 [| eapply (lua_rawgeti_registry _ R); exact HR];
               cbv beta; erewrite bind_ok;
                 [reflexivity
                 | eapply (lua_rawseti_registry node_pos _ R (stack L)); [exact HR | reflexivity]]).
    erewrite bind_ok;
      [| eapply (lua_rawseti_registry node_pos _ _ base v);
         [norm_state; apply lookup_insert_eq | exact Hs]].
    norm_state. cbn [t_nodes t_meta]. rewrite insert_insert_eq.
    eexists _, _. split; [reflexivity|]. split.
    + intros s. by rewrite !rawget_table_set_ne.
    + apply rawget_table_set_eq.
Qed.

End Steps2.

Section Claims3.
Variable node_pos : lua_Value -> list node -> nat.
Variable l_str2int : string -> option Z.
Variable uc : EmulationEngine.

(** Creating the engine object for handle [h]: the object is new, is left
    on the stack, and the pointer map sends [h] to it. *)
Lemma ul_create_engine_object_registers L h pm m :
  registry_get L (LString kEnginePointerMapName) = LTable pm ->
  registry_get L (LString kEngineMetatableName) = LTable m ->
  pm <> l_registry L ->
  no_handler L pm "__newindex" ->
  exists w L1,
    ul_create_engine_object node_pos l_str2int h L = Ok tt L1 /\
    stack L1 = stack L ++ [LUserdata w] /\
    udatas L !! w = None /\
    registry_get L1 (LString kEnginePointerMapName) = LTable pm /\
    table_get L1 pm (LLightUserdata h) = LUserdata w.
Proof.
  intros Hpm Hm Hne (PM & HPM & Hno).
  destruct (registry_get_Some _ _ _ Hpm ltac:(done)) as (R & HR & _).
  destruct (fresh_addr_spec L) as (Hft & Hfu & Hfr).
  set (w := fresh_addr L) in *.
  unfold ul_create_engine_object.
  step ltac:(reflexivity). fold w.
  step ltac:(eapply store_ok; [norm_state; apply lookup_insert_eq | cbv; lia]).
  norm_state. cbn [u_mem u_meta]. simpl (<[_ := _]> (replicate _ _)).
  rewrite insert_insert_eq.
  step ltac:(eapply (luaL_setmetatable_new _ (stack L) w);
             [reflexivity | norm_state; apply lookup_insert_eq | exact Hm]).
  norm_state. cbn [u_mem]. rewrite insert_insert_eq.
  step ltac:(eapply lua_getfield_registry; [exact Hpm | done]).
  step ltac:(reflexivity).
  unfold lua_pushvalue.
  step ltac:(erewrite bind_ok; [reflexivity|];
             eapply value_at_ok,
               (index2value_neg_app _ (stack L) [LUserdata w; LTable pm; LLightUserdata h]);
             [norm_state; by rewrite <- !app_assoc | done..]).
  unfold push, modify, lua_pushlightuserdata, push, modify. norm_state.
  step ltac:(eapply (lua_settable_raw node_pos _ (stack L ++ [LUserdata w]) pm PM
                       (LLightUserdata h) (LUserdata w));
             [ norm_state; by rewrite <- !app_assoc
             | exact HPM | by right | done ]).
  norm_state.
  step ltac:(eapply (lua_pop_app 1 _ (stack L ++ [LUserdata w]) [LTable pm]); reflexivity).
  norm_state.
  step ltac:(reflexivity).
  norm_state.
  match goal with
  | |- context [LTable ?a] =>
      lazymatch a with fresh_addr _ => set (ht := a) end
  end.
  assert (Hhr : tables L !! l_registry L = Some R) by exact HR.
  edestruct (luaL_ref_registry node_pos l_str2int) as (ref & rs & Href & Hstr & Hget);
    [ | | | erewrite bind_ok; [|exact Href] ].
  - norm_state. reflexivity.
  - done.
  - norm_state. rewrite !lookup_insert_ne; [exact HR | congruence |].
    unfold ht. intros Heq.
    match type of Heq with
    | fresh_addr ?L' = _ =>
        destruct (fresh_addr_spec L') as (_ & _ & Hfr'); by apply Hfr'
    end.
  - cbv beta. norm_state.
    erewrite store_ok; [| norm_state; apply lookup_insert_eq | cbv; lia].
    norm_state. cbn [u_mem u_meta]. simpl (<[_ := _]> [_; _]).
    exists w. eexists. split; [reflexivity|]. norm_state.
    assert (Hhp : ht <> pm).
    { unfold ht. intros Heq.
      match type of Heq with
      | fresh_addr ?L' = _ =>
          destruct (fresh_addr_spec L') as (Hft' & _ & _);
          norm_state; rewrite Heq, lookup_insert_eq in Hft'; done
      end. }
    repeat split; [done| |].
    + unfold registry_get, table_get, table_nodes. norm_state.
      rewrite lookup_insert_eq. cbn [t_nodes]. rewrite Hstr.
      by rewrite <- (lookup_registry_get L R).
    + unfold table_get, table_nodes. norm_state.
      rewrite lookup_insert_ne by congruence.
      rewrite lookup_insert_ne by done.
      rewrite lookup_insert_eq. cbn [t_nodes]. apply rawget_table_set_eq.
Qed.

(** C5.  Registry round trip: once [ul_create_engine_object] has
    registered its new object under the handle, looking the handle up
    pushes that object; and looking up a handle that has no object fails
    with the error that names the handle and leaves the state, and so the
    registry, as it was. *)
Theorem registry_round_trip L h pm m :
  registry_get L (LString kEnginePointerMapName) = LTable pm ->
  registry_get L (LString kEngineMetatableName) = LTable m ->
  pm <> l_registry L ->
  no_handler L pm "__newindex" ->
  no_handler L pm "__index" ->
  (exists w L1,
     ul_create_engine_object node_pos l_str2int h L = Ok tt L1 /\
     stack L1 = stack L ++ [LUserdata w] /\
     ul_get_engine_object h L1 = Ok tt (set_stack (stack L1 ++ [LUserdata w]) L1)) /\
  (forall h', table_get L pm (LLightUserdata h') = LNil ->
     ul_get_engine_object h' L = Raise (not_registered_error h') L).
Proof.
  intros Hpm Hm Hne Hnew Hidx. split.
  - destruct (ul_create_engine_object_registers L h pm m Hpm Hm Hne Hnew)
      as (w & L1 & Hrun & Hs1 & _ & Hpm1 & Hreg1).
    exists w, L1. repeat split; [done..|].
    by apply (ul_get_engine_object_found L1 pm h (LUserdata w)).
  - intros h' Hh'. by apply (ul_get_engine_object_missing L pm h').
Qed.

End Claims3.

(** ** Queries and snapshots *)

Section Claims4.
Variable l_str2int : string -> option Z.
Variable uc : EmulationEngine.

(** C6, what the code does instead.  [ul_query] reads its query type from
    argument 1, which is the engine object and never a number: whatever
    the caller passes as query type, the call fails with an argument error
    on argument 1, and the emulation library's query is not called. *)
Theorem ul_query_rejects_every_call L w args h :
  stack L = LUserdata w :: args ->
  engine_handle L w h ->
  ul_query l_str2int uc L = Raise (ArgError 1 "number") L.
Proof.
  intros Hs Hh. unfold ul_query.
  step ltac:(by eapply ul_toengine_handle).
  apply bind_raise. unfold luaL_checkinteger.
  by rewrite (index2value_first L (LUserdata w) args Hs).
Qed.

(** The new userdata of [ul_context_alloc]: never written. *)
Lemma ul_context_alloc_spec L w args h cm :
  stack L = LUserdata w :: args ->
  engine_handle L w h ->
  registry_get L (LString kContextMetatableName) = LTable cm ->
  let r := uc_context_alloc uc (trace L) h in
  let a := fresh_addr L in
  let L1 := mkState (stack L ++ [LUserdata a]) (tables L)
              (<[a := mkUdata [None] (Some cm)]> (udatas L))
              (l_registry L) (trace L ++ [Ev_uc_context_alloc h]) in
  ul_context_alloc uc L =
  if r.1 =? UC_ERR_OK then Ok 1 L1 else Raise (NativeError r.1) L1.
Proof.
  intros Hs Hh Hcm r a L1. unfold ul_context_alloc.
  step ltac:(by eapply ul_toengine_handle).
  step ltac:(reflexivity). fold a.
  step ltac:(eapply (luaL_setmetatable_new _ (stack L) a);
             [reflexivity | norm_state; apply lookup_insert_eq | exact Hcm]).
  norm_state. cbn [u_mem]. rewrite insert_insert_eq.
  step ltac:(reflexivity).
  norm_state. fold r. simpl (replicate _ _).
  by destruct (r.1 =? UC_ERR_OK).
Qed.

(** C7, what the code does instead.  [ul_context_alloc] asks the emulation
    library for a context and returns a new Snapshot Object, but the
    handle the library hands out is written to a local variable and not
    into the object: the object's block is never written. *)
Theorem ul_context_alloc_drops_the_handle L w args h cm c :
  stack L = LUserdata w :: args ->
  engine_handle L w h ->
  registry_get L (LString kContextMetatableName) = LTable cm ->
  uc_context_alloc uc (trace L) h = (UC_ERR_OK, c) ->
  exists a L1,
    ul_context_alloc uc L = Ok 1 L1 /\
    stack L1 = stack L ++ [LUserdata a] /\
    udatas L !! a = None /\
    udatas L1 !! a = Some (mkUdata [None] (Some cm)) /\
    trace L1 = trace L ++ [Ev_uc_context_alloc h].
Proof.
  intros Hs Hh Hcm Halloc.
  pose proof (ul_context_alloc_spec L w args h cm Hs Hh Hcm) as Hrun.
  cbv zeta in Hrun. rewrite Halloc in Hrun. cbn [fst Z.eqb UC_ERR_OK] in Hrun.
  destruct (fresh_addr_spec L) as (_ & Hfu & _).
  eexists _, _. split; [exact Hrun|]. norm_state.
  repeat split; [done|]. apply lookup_insert_eq.
Qed.

Lemma host_call_result (f : M Z) args L L' v base :
  f (set_stack args L) = Ok 1 L' -> stack L' = base ++ [v] ->
  host_call f args L = Ok [v] (set_stack (stack L) L').
Proof.
  intros Hf Hs. unfold host_call. rewrite Hf. unfold lua_gettop.
  rewrite Hs, length_app. cbn [length].
  replace ((0 <=? 1) && (1 <=? Z.of_nat (length base + 1))) with true
    by (symmetry; apply andb_true_intro; split; apply Z.leb_le; lia).
  replace (length base + 1 - Z.to_nat 1)%nat with (length base) by lia.
  by rewrite drop_app_length.
Qed.


End Claims4.

(** * The theorems at a concrete host *)

Ltac by_decide := apply (bool_decide_unpack _); vm_compute; exact I.

Lemma sample_engine_open :
  open_engine (sample_engine hash_pos) 6%nat sample_handle 1 7%nat
    (map (fun k => (k, k)) (rev sample_hooks)).
Proof.
  split; [(vm_compute; discriminate)|].
  split; [exists 3%nat; split; vm_compute; reflexivity|].
  split; [reflexivity|].
  split; [vm_compute; reflexivity|].
  split; [vm_compute; reflexivity|].
  split; [by_decide|].
  split; [by_decide|].
  split; [(vm_compute; discriminate)|].
  split.
  { exists 1%nat.
    split; [vm_compute; reflexivity|].
    split; [vm_compute; reflexivity|].
    split; (vm_compute; discriminate). }
  vm_compute. eexists. reflexivity.
Qed.

Lemma engine_handle_set_stack s L w h :
  engine_handle L w h -> engine_handle (set_stack s L) w h.
Proof. intros H. exact H. Qed.

Lemma sample_engine_handle :
  engine_handle (sample_engine hash_pos) 6%nat sample_handle.
Proof.
  split; [(vm_compute; discriminate)|].
  exists (mkUdata [Some sample_handle; Some 1] (Some 3%nat)), 3%nat.
  split; [vm_compute; reflexivity|].
  split; [reflexivity|].
  split; [reflexivity|].
  vm_compute; reflexivity.
Qed.

Lemma sample_pointer_map_raw event :
  no_handler (sample_engine hash_pos) 1%nat event ->
  no_handler (sample_loaded hash_pos) 1%nat event.
Proof.
  intros (T & HT & Hh). vm_compute in HT. injection HT as <-.
  eexists. split; [vm_compute; reflexivity|]. exact Hh.
Qed.

(** C1 at the sample engine, closed three times. *)
Lemma close_invokes_native_close_once_witness :
  exists L1,
    close_call hash_pos (sample_uc UC_ERR_OK) 4 6%nat [] (sample_engine hash_pos)
      = Ok [] L1 /\
    native_closes (trace L1) =
      native_closes (trace (sample_engine hash_pos)) ++ [sample_handle] /\
    close_calls hash_pos (sample_uc UC_ERR_OK) 4 6%nat [[]; []; [LNil]]
      (sample_engine hash_pos) = Ok tt L1.
Proof.
  destruct (close_invokes_native_close_once hash_pos no_str2int (sample_uc UC_ERR_OK)
              (sample_engine hash_pos) 6%nat sample_handle 1 7%nat _ 4%nat
              sample_engine_open eq_refl ltac:(vm_compute; lia))
    as (_ & _ & _ & L1 & Hrun & Hseq & Hcl & _).
  exists L1. split; [exact (Hrun [])|]. split; [exact Hcl|]. apply Hseq.
Defined.

(** C2 as stated fails: on a host that places table entries by hash,
    the three hooks of [sample_hooks], registered in that order on the
    engine of [sample_engine], are released in the reverse order. *)
Lemma teardown_order_is_not_insertion_order :
  sample_engine hash_pos =
    state_after
      (ul_create_engine_object hash_pos no_str2int sample_handle ;;
       hook_table_add hash_pos 1 (LLightUserdata 4112) (LLightUserdata 4112) ;;
       hook_table_add hash_pos 1 (LLightUserdata 4096) (LLightUserdata 4096) ;;
       hook_table_add hash_pos 1 (LLightUserdata 4128) (LLightUserdata 4128))
      (sample_loaded hash_pos) /\
  hook_dels
    (trace (state_after (close_call hash_pos (sample_uc UC_ERR_OK) 4 6%nat [])
                        (sample_engine hash_pos))) =
    [(6%nat, LLightUserdata 4128); (6%nat, LLightUserdata 4096);
     (6%nat, LLightUserdata 4112)] /\
  final_state (close_call hash_pos (sample_uc UC_ERR_OK) 4 6%nat []
                 (sample_engine hash_pos)) =
    Some (state_after (close_call hash_pos (sample_uc UC_ERR_OK) 4 6%nat [])
                      (sample_engine hash_pos)) /\
  hook_dels
    (trace (state_after (close_call hash_pos (sample_uc UC_ERR_OK) 4 6%nat [])
                        (sample_engine hash_pos))) <>
    [(6%nat, LLightUserdata 4112); (6%nat, LLightUserdata 4096);
     (6%nat, LLightUserdata 4128)].
Proof.
  split; [vm_compute; reflexivity|].
  split; [vm_compute; reflexivity|].
  split; [vm_compute; reflexivity|].
  vm_compute. discriminate.
Qed.

(** C2, as the code has it, at the sample engine. *)
Lemma close_releases_hooks_in_table_order_witness :
  exists L1,
    final_state (close_call hash_pos (sample_uc UC_ERR_OK) 4 6%nat []
                   (sample_engine hash_pos)) = Some L1 /\
    trace L1 =
      map (Ev_hook_del 6%nat) (rev sample_hooks) ++ [Ev_uc_close sample_handle] /\
    live (table_nodes L1 7%nat) = [].
Proof.
  destruct (close_releases_hooks_in_table_order hash_pos (sample_uc UC_ERR_OK)
              (sample_engine hash_pos) 6%nat [] sample_handle 1 7%nat _ 4%nat
              sample_engine_open ltac:(vm_compute; lia))
    as (L1 & Hrun & Htr & _ & Hempty).
  exists L1. split; [exact Hrun|]. split; [exact Htr | exact Hempty].
Defined.

(** C3 at the sample engine: a query after close. *)
Lemma guarded_access_witness :
  ul_toengine 1 (sample_engine hash_pos) = Ok sample_handle (sample_engine hash_pos) /\
  exists L1,
    close_call hash_pos (sample_uc UC_ERR_OK) 4 6%nat [] (sample_engine hash_pos)
      = Ok [] L1 /\
    ul_errno (sample_uc UC_ERR_OK) (set_stack [LUserdata 6%nat] L1) =
      Raise closed_engine_error (set_stack [LUserdata 6%nat] L1).
Proof.
  destruct (guarded_access hash_pos no_str2int (sample_uc UC_ERR_OK)
              (sample_engine hash_pos) 6%nat [] sample_handle 1 7%nat _ 4%nat
              sample_engine_open eq_refl ltac:(vm_compute; lia))
    as (_ & Hopen & L1 & Hrun & Hclosed).
  split; [exact (Hopen [])|].
  exists L1. split; [exact Hrun|].
  apply Hclosed. unfold guarded_operations.
  do 5 (apply elem_of_cons; right). apply elem_of_cons. left. reflexivity.
Defined.

(** C4 at the sample engine. *)
Lemma close_establishes_closed_state_witness :
  exists m L1,
    close_call hash_pos (sample_uc UC_ERR_OK) 4 6%nat [] (sample_engine hash_pos)
      = Ok [] L1 /\
    udatas L1 !! 6%nat = Some (mkUdata [Some NULL; Some LUA_NOREF] (Some m)) /\
    table_get L1 1%nat (LLightUserdata sample_handle) = LNil /\
    ul_get_engine_object sample_handle L1 =
      Raise (not_registered_error sample_handle) L1.
Proof.
  destruct (close_establishes_closed_state hash_pos (sample_uc UC_ERR_OK)
              (sample_engine hash_pos) 6%nat [] sample_handle 1 7%nat _ 1%nat 4%nat
              sample_engine_open ltac:(vm_compute; reflexivity)
              ltac:(eexists; split; vm_compute; reflexivity)
              eq_refl ltac:(vm_compute; lia))
    as (m & L1 & Hrun & HU & _ & _ & Hgone & Hlookup).
  exists m, L1. split; [exact Hrun|]. split; [exact HU|].
  split; [exact Hgone | exact Hlookup].
Defined.

(** C5 at the loaded library. *)
Lemma registry_round_trip_witness :
  (exists w L1,
     ul_create_engine_object hash_pos no_str2int sample_handle (sample_loaded hash_pos)
       = Ok tt L1 /\
     ul_get_engine_object sample_handle L1 =
       Ok tt (set_stack (stack L1 ++ [LUserdata w]) L1)) /\
  ul_get_engine_object 12288 (sample_loaded hash_pos) =
    Raise (not_registered_error 12288) (sample_loaded hash_pos).
Proof.
  destruct (registry_round_trip hash_pos no_str2int (sample_loaded hash_pos)
              sample_handle 1%nat 3%nat
              ltac:(vm_compute; reflexivity) ltac:(vm_compute; reflexivity)
              ltac:(vm_compute; discriminate)
              ltac:(eexists; split; vm_compute; reflexivity)
              ltac:(eexists; split; vm_compute; reflexivity))
    as ((w & L1 & Hrun & _ & Hget) & Hmiss).
  split; [exists w, L1; split; [exact Hrun | exact Hget] |].
  apply Hmiss. vm_compute. reflexivity.
Defined.

(** C6 at the sample engine: [engine:query(1)]. *)
Lemma ul_query_rejects_every_call_witness :
  let L := set_stack [LUserdata 6%nat; LInteger 1] (sample_engine hash_pos) in
  ul_query no_str2int (sample_uc UC_ERR_OK) L = Raise (ArgError 1 "number") L.
Proof.
  exact (ul_query_rejects_every_call no_str2int (sample_uc UC_ERR_OK)
           (set_stack [LUserdata 6%nat; LInteger 1] (sample_engine hash_pos))
           6%nat [LInteger 1] sample_handle eq_refl
           (engine_handle_set_stack _ _ _ _ sample_engine_handle)).
Defined.

(** C7 at the sample engine: the library hands out the context 16448,
    and the new object's block is left unwritten. *)
Lemma ul_context_alloc_drops_the_handle_witness :
  exists a L1,
    ul_context_alloc (sample_uc UC_ERR_OK) (sample_engine hash_pos) = Ok 1 L1 /\
    stack L1 = stack (sample_engine hash_pos) ++ [LUserdata a] /\
    udatas L1 !! a = Some (mkUdata [None] (Some 5%nat)).
Proof.
  destruct (ul_context_alloc_drops_the_handle (sample_uc UC_ERR_OK)
              (sample_engine hash_pos) 6%nat [] sample_handle 5%nat 16448
              ltac:(vm_compute; reflexivity) sample_engine_handle
              ltac:(vm_compute; reflexivity) eq_refl)
    as (a & L1 & Hrun & Hs & _ & HU & _).
  exists a, L1. split; [exact Hrun|]. split; [exact Hs | exact HU].
Defined.


(** C9 at the sample engine, the native close answering status 3. *)
Lemma native_close_failure_is_raised_witness :
  exists L1,
    close_call hash_pos (sample_uc 3) 4 6%nat [] (sample_engine hash_pos)
      = Raise (NativeError 3) L1 /\
    native_closes (trace L1) = [sample_handle].
Proof.
  destruct (native_close_failure_is_raised hash_pos (sample_uc 3)
              (sample_engine hash_pos) 6%nat [] sample_handle 1 7%nat _ 4%nat
              sample_engine_open ltac:(vm_compute; lia) ltac:(vm_compute; discriminate))
    as (L1 & Hrun & _ & Hcl).
  exists L1. split; [exact Hrun | exact Hcl].
Defined.

(** C10 at the sample engine, the native close answering status 3. *)
Lemma close_is_not_atomic_on_native_failure_witness :
  exists m pm L1,
    close_call hash_pos (sample_uc 3) 4 6%nat [] (sample_engine hash_pos)
      = Raise (NativeError 3) L1 /\
    udatas L1 !! 6%nat = Some (mkUdata [Some sample_handle; Some LUA_NOREF] (Some m)) /\
    registry_get L1 (LString kEnginePointerMapName) = LTable pm /\
    table_get L1 pm (LLightUserdata sample_handle) = LUserdata 6%nat.
Proof.
  destruct (close_is_not_atomic_on_native_failure hash_pos (sample_uc 3)
              (sample_engine hash_pos) 6%nat [] sample_handle 1 7%nat _ 4%nat
              sample_engine_open ltac:(vm_compute; lia) ltac:(vm_compute; discriminate))
    as (m & pm & L1 & Hrun & _ & _ & _ & HU & _ & Hpm & Hreg & _).
  exists m, pm, L1. split; [exact Hrun|]. split; [exact HU|].
  split; [exact Hpm | exact Hreg].
Defined.

(** * Further properties of [engine.c] *)

(** ** Arguments *)

Lemma index2value_lookup L idx :
  0 < idx -> index2value L idx = stack L !! Z.to_nat (idx - 1).
Proof.
  intros Hpos. destruct (stack L !! Z.to_nat (idx - 1)) as [v|] eqn:E.
  - by apply index2value_pos.
  - apply lookup_ge_None in E.
    unfold index2value, stack_pos, lua_absindex, ispseudo, lua_gettop, LUA_REGISTRYINDEX.
    destruct (idx =? -1001000) eqn:E1; [lia|].
    replace (0 <? idx) with true by lia. cbn [orb].
    replace ((1 <=? idx) && (idx <=? Z.of_nat (length (stack L)))) with false; [done|].
    symmetry. apply andb_false_iff. right. apply Z.leb_gt. lia.
Qed.

Lemma luaL_checkudata_reject L idx tname m :
  registry_get L (LString tname) = LTable m ->
  not_tagged L m (index2value L idx) ->
  luaL_checkudata idx tname L = Raise (ArgError idx tname) L.
Proof.
  intros Hr Hnot. apply registry_get_Some in Hr as (R & HR & Hr); [|done].
  unfold luaL_checkudata, luaL_testudata, bind, not_tagged in *.
  destruct (index2value L idx) as [[]|]; try done.
  destruct Hnot as (U & HU & Hm). unfold get_udata. rewrite HU. cbn [from_option ret].
  destruct (u_meta U) as [m'|]; [|done].
  rewrite (index_get_live L _ R _ (LTable m)) by done. cbn [ret].
  rewrite decide_False; [done|]. intros [= ->]. by apply Hm.
Qed.

Lemma luaL_optinteger_zero l_str2int L idx o :
  index2value L idx = o -> optional_integer o ->
  luaL_optinteger l_str2int idx 0 L = Ok (integer_or_zero o) L.
Proof.
  intros <- Ho. unfold luaL_optinteger, lua_isnoneornil, luaL_checkinteger, bind.
  destruct (index2value L idx) as [[]|] eqn:E; simpl in *; rewrite ?E; done.
Qed.

Section Operands.
Variable node_pos : lua_Value -> list node -> nat.
Variable l_str2int : string -> option Z.
Variable uc : EmulationEngine.

(** X1.  The engine operations accept nothing but an engine object: when
    the argument is missing, is not a full userdata, or is a userdata that
    does not carry the engine metatable (a Snapshot Object, say), the
    guarded accessor raises an argument error for that argument, and so
    does close, which checks its argument without the accessor; the state
    is left as it was. *)
Theorem engine_argument_is_checked L idx m fuel :
  registry_get L (LString kEngineMetatableName) = LTable m ->
  not_tagged L m (index2value L idx) ->
  ul_toengine idx L = Raise (ArgError idx kEngineMetatableName) L /\
  (idx = 1 ->
   ul_close node_pos uc fuel L = Raise (ArgError 1 kEngineMetatableName) L).
Proof.
  intros Hr Hnot.
  pose proof (luaL_checkudata_reject L idx _ m Hr Hnot) as Hck. split.
  - unfold ul_toengine. by apply bind_raise.
  - intros ->. unfold ul_close, ul_free_engine_object.
    apply bind_raise. step ltac:(reflexivity).
    change (lua_absindex L 1) with 1. by apply bind_raise.
Qed.

(** X2.  [ul_emu_start] on an OPEN engine with integer start and end
    addresses: the timeout and the instruction count are optional and
    default to 0 when absent or nil; all four are converted to unsigned
    64-bit values; arguments after the fifth are ignored.  The emulation
    library is called once; on success nothing is returned and the stack
    is untouched, and any other status is raised. *)
Theorem ul_emu_start_marshals L w h start end_ rest :
  stack L = LUserdata w :: LInteger start :: LInteger end_ :: rest ->
  engine_handle L w h ->
  optional_integer (rest !! 0%nat) ->
  optional_integer (rest !! 1%nat) ->
  let timeout := to_uint64 (integer_or_zero (rest !! 0%nat)) in
  let count := to_uint64 (integer_or_zero (rest !! 1%nat)) in
  let status :=
    uc_emu_start uc (trace L) h (to_uint64 start) (to_uint64 end_) timeout count in
  let L1 :=
    emit (Ev_uc_emu_start h (to_uint64 start) (to_uint64 end_) timeout count) L in
  ul_emu_start l_str2int uc L =
  if status =? UC_ERR_OK then Ok 0 L1 else Raise (NativeError status) L1.
Proof.
  intros Hs Hh Ht Hn timeout count status L1. unfold ul_emu_start.
  step ltac:(by eapply ul_toengine_handle).
  assert (H2 : index2value L 2 = Some (LInteger start))
    by (rewrite index2value_lookup by lia; by rewrite Hs).
  assert (H3 : index2value L 3 = Some (LInteger end_))
    by (rewrite index2value_lookup by lia; by rewrite Hs).
  assert (H4 : index2value L 4 = rest !! 0%nat)
    by (rewrite index2value_lookup by lia; by rewrite Hs).
  assert (H5 : index2value L 5 = rest !! 1%nat)
    by (rewrite index2value_lookup by lia; by rewrite Hs).
  step ltac:(unfold luaL_checkinteger; rewrite H2; reflexivity).
  step ltac:(unfold luaL_checkinteger; rewrite H3; reflexivity).
  step ltac:(by eapply luaL_optinteger_zero).
  step ltac:(by eapply luaL_optinteger_zero).
  step ltac:(reflexivity).
  fold timeout count status L1. by destruct (status =? UC_ERR_OK).
Qed.

(** X3.  [ul_emu_start] insists on both addresses: called on an OPEN
    engine without a start address, or with a start address only, it
    raises an argument error for the missing argument and does not call
    the emulation library. *)
Theorem ul_emu_start_requires_addresses L w h :
  engine_handle L w h ->
  (stack L = [LUserdata w] ->
   ul_emu_start l_str2int uc L = Raise (ArgError 2 "number") L) /\
  (forall start, stack L = [LUserdata w; LInteger start] ->
   ul_emu_start l_str2int uc L = Raise (ArgError 3 "number") L).
Proof.
  intros Hh. split.
  - intros Hs. unfold ul_emu_start.
    step ltac:(by eapply ul_toengine_handle).
    apply bind_raise. unfold luaL_checkinteger.
    rewrite index2value_lookup by lia. by rewrite Hs.
  - intros start Hs. unfold ul_emu_start.
    step ltac:(by eapply ul_toengine_handle).
    step ltac:(unfold luaL_checkinteger; rewrite index2value_lookup by lia;
               rewrite Hs; reflexivity).
    apply bind_raise. unfold luaL_checkinteger.
    rewrite index2value_lookup by lia. by rewrite Hs.
Qed.

(** X4.  [ul_errno] on an OPEN engine never raises: whatever code the
    emulation library answers, the call returns it as its one result,
    after a single call of the library. *)
Theorem ul_errno_returns_the_code L w args h :
  engine_handle L w h ->
  host_call (ul_errno uc) (LUserdata w :: args) L =
  Ok [LInteger (uc_errno uc (trace L) h)] (emit (Ev_uc_errno h) L).
Proof.
  intros Hh.
  etransitivity; [eapply (host_call_result _ _ _ _ _ (LUserdata w :: args)) |].
  - unfold ul_errno.
    step ltac:(by eapply (ul_toengine_handle _ w args)).
    step ltac:(reflexivity).
    reflexivity.
  - reflexivity.
  - reflexivity.
Qed.

(** X5.  [ul_emu_stop] on an OPEN engine calls the emulation library
    once; on success it returns nothing, and any other status is raised
    as a host error that carries the status. *)
Theorem ul_emu_stop_translates_the_status L w args h :
  stack L = LUserdata w :: args ->
  engine_handle L w h ->
  let status := uc_emu_stop uc (trace L) h in
  ul_emu_stop uc L =
  if status =? UC_ERR_OK then Ok 0 (emit (Ev_uc_emu_stop h) L)
  else Raise (NativeError status) (emit (Ev_uc_emu_stop h) L).
Proof.
  intros Hs Hh status. unfold ul_emu_stop.
  step ltac:(by eapply ul_toengine_handle).
  step ltac:(reflexivity).
  fold status. by destruct (status =? UC_ERR_OK).
Qed.

(** X6.  [ul_context_restore] on an OPEN engine and a Snapshot Object
    hands that object to the native restore, once; it returns nothing on
    success and raises any other status.  Without a Snapshot Object as
    second argument it raises an argument error for argument 2 and the
    native restore is not called. *)
Theorem ul_context_restore_behaviour L w h cm :
  engine_handle L w h ->
  registry_get L (LString kContextMetatableName) = LTable cm ->
  (forall s S rest,
     stack L = LUserdata w :: LUserdata s :: rest ->
     udatas L !! s = Some S -> u_meta S = Some cm ->
     let status := uc_context_restore uc (trace L) h s in
     ul_context_restore uc L =
     if status =? UC_ERR_OK then Ok 0 (emit (Ev_uc_context_restore h s) L)
     else Raise (NativeError status) (emit (Ev_uc_context_restore h s) L)) /\
  (forall args,
     stack L = LUserdata w :: args ->
     not_tagged L cm (index2value L 2) ->
     ul_context_restore uc L = Raise (ArgError 2 kContextMetatableName) L).
Proof.
  intros Hh Hcm. split.
  - intros s S rest Hs HS HSm status. unfold ul_context_restore.
    step ltac:(by eapply ul_toengine_handle).
    unfold ul_tocontext.
    step ltac:(eapply (luaL_checkudata_ok _ 2 _ s S cm); [|done..];
               rewrite index2value_lookup by lia; by rewrite Hs).
    step ltac:(reflexivity).
    fold status. by destruct (status =? UC_ERR_OK).
  - intros args Hs Hnot. unfold ul_context_restore.
    step ltac:(by eapply ul_toengine_handle).
    apply bind_raise. unfold ul_tocontext. by eapply luaL_checkudata_reject.
Qed.

(** X7.  [ul_context_save] returns the value on top of the stack: called
    with a Snapshot Object and further arguments after it, it saves into
    the Snapshot Object but returns the last argument. *)
Theorem ul_context_save_returns_its_last_argument L w s S h cm extra x :
  engine_handle L w h ->
  registry_get L (LString kContextMetatableName) = LTable cm ->
  udatas L !! s = Some S -> u_meta S = Some cm ->
  uc_context_save uc (trace L) h s = UC_ERR_OK ->
  host_call (ul_context_save uc) (LUserdata w :: LUserdata s :: extra ++ [x]) L =
  Ok [x] (emit (Ev_uc_context_save h s) L).
Proof.
  intros Hh Hcm HS HSm Hsave.
  etransitivity;
    [eapply (host_call_result _ _ _ _ _ (LUserdata w :: LUserdata s :: extra)) |].
  - unfold ul_context_save.
    step ltac:(by eapply (ul_toengine_handle _ w (LUserdata s :: extra ++ [x]))).
    step ltac:(reflexivity).
    replace (lua_gettop (set_stack (LUserdata w :: LUserdata s :: extra ++ [x]) L) <? 2)
      with false
      by (symmetry; apply Z.ltb_ge; unfold lua_gettop; cbn [stack set_stack length]; lia).
    step ltac:(reflexivity).
    unfold ul_tocontext.
    step ltac:(eapply (luaL_checkudata_ok _ 2 _ s S cm); [|done..];
               rewrite index2value_lookup by lia; reflexivity).
    step ltac:(reflexivity).
    norm_state. rewrite Hsave. reflexivity.
  - reflexivity.
  - reflexivity.
Qed.

(** X8.  [ul_context_save] without a Snapshot Object, when the emulation
    library refuses to allocate a context: the status is raised, and the
    native save is not called. *)
Theorem ul_context_save_stops_when_allocation_fails L w h cm :
  engine_handle L w h ->
  registry_get L (LString kContextMetatableName) = LTable cm ->
  let status := (uc_context_alloc uc (trace L) h).1 in
  status <> UC_ERR_OK ->
  exists L1,
    host_call (ul_context_save uc) [LUserdata w] L = Raise (NativeError status) L1 /\
    trace L1 = trace L ++ [Ev_uc_context_alloc h].
Proof.
  intros Hh Hcm status Hstatus.
  pose proof (ul_context_alloc_spec uc (set_stack [LUserdata w] L) w [] h cm
                eq_refl Hh Hcm) as Ha.
  cbv zeta in Ha. norm_state. fold status in Ha.
  apply Z.eqb_neq in Hstatus. rewrite Hstatus in Ha.
  eexists. split.
  - unfold host_call, ul_context_save.
    erewrite bind_ok; [|by eapply (ul_toengine_handle _ w [])].
    erewrite bind_ok; [|reflexivity]. cbv beta.
    change (lua_gettop (set_stack [LUserdata w] L) <? 2) with true. cbv iota.
    erewrite bind_raise; [reflexivity|].
    erewrite bind_raise; [reflexivity|]. norm_state. exact Ha.
  - reflexivity.
Qed.

End Operands.

(** ** More on close *)

Lemma bind_stuck {A B} (c : M A) (k : A -> M B) L :
  c L = Stuck -> bind c k L = Stuck.
Proof. unfold bind. by intros ->. Qed.

Section MoreClose.
Variable node_pos : lua_Value -> list node -> nat.
Variable uc : EmulationEngine.

Lemma rawget_unref_nodes_other rs ref k :
  k <> LInteger ref -> k <> LInteger freelist ->
  rawget (unref_nodes node_pos rs ref) k = rawget rs k.
Proof. intros H1 H2. unfold unref_nodes. by rewrite !rawget_table_set_ne. Qed.

(** The registry after a close, successful or not: only the slot of the
    released reference and the head of the free list have changed. *)
Lemma registry_get_after_close L L1 R pm T k :
  tables L !! l_registry L = Some R ->
  l_registry L1 = l_registry L ->
  pm <> l_registry L ->
  forall (upd : gmap addr Table -> gmap addr Table) ref ht HT,
  (upd = insert pm T \/ upd = id) ->
  tables L1 =
    upd (<[l_registry L := mkTable (unref_nodes node_pos (t_nodes R) ref) (t_meta R)]>
           (<[ht := HT]> (tables L))) ->
  k <> LInteger ref -> k <> LInteger freelist ->
  registry_get L1 k = registry_get L k.
Proof.
  intros HR Hr1 Hne upd ref ht HT Hupd Ht1 Hk1 Hk2.
  unfold registry_get, table_get, table_nodes. rewrite Hr1, Ht1, HR.
  destruct Hupd as [-> | ->]; cbn [id];
    rewrite ?lookup_insert_ne by done; rewrite lookup_insert_eq;
    cbn [t_nodes]; by rewrite rawget_unref_nodes_other.
Qed.

(** X9.  Closing one engine object leaves every other OPEN engine object
    OPEN, whether the native close succeeds or fails: its handle, its hook
    table with all its entries, its reference and its entry in the pointer
    map are untouched. *)
Theorem close_leaves_other_engines_open
    L w h ref ht ns w2 h2 ref2 ht2 ns2 args fuel :
  open_engine L w h ref ht ns ->
  open_engine L w2 h2 ref2 ht2 ns2 ->
  w2 <> w -> h2 <> h -> ref2 <> ref -> ht2 <> ht ->
  (length ns < fuel)%nat ->
  exists L1,
    final_state (close_call node_pos uc fuel w args L) = Some L1 /\
    open_engine L1 w2 h2 ref2 ht2 ns2.
Proof.
  intros Hopen Hopen2 Hw Hh Hr Hht Hfuel.
  destruct (close_call_open node_pos uc L w args h ref ht ns fuel Hopen Hfuel)
    as (m & pm & R & PM & L1 & Hrun & Hs1 & Hr1 & Htr1 & Hu1 & HR & HPM & Hpm & Hm & Ht1).
  cbv zeta in *.
  set (status := uc_close uc (trace L ++ map (Ev_hook_del w) (keys (live ns))) h) in *.
  destruct Hopen2 as (Hh2 & (m2 & HU2 & Hm2) & Href2 & Hrr2 & HT2 & Hnd2 & Hnil2 & Hne12 &
                      (pm2 & Hpm2 & Hreg2 & Hne22 & Hne32) & Hsome).
  assert (pm2 = pm) as -> by congruence.
  assert (m2 = m) as -> by congruence.
  destruct Hopen as (_ & _ & _ & _ & _ & _ & _ & _ & (pm1 & Hpm1 & _ & Hne21 & _) & _).
  assert (pm1 = pm) as -> by congruence.
  set (upd := if status =? UC_ERR_OK
              then insert pm (mkTable (table_set node_pos (t_nodes PM) (LLightUserdata h) LNil)
                                      (t_meta PM))
              else id) in *.
  assert (Hupd : upd = insert pm (mkTable (table_set node_pos (t_nodes PM)
                                             (LLightUserdata h) LNil) (t_meta PM))
                 \/ upd = id)
    by (unfold upd; destruct (status =? UC_ERR_OK); auto).
  assert (Hreg_other : forall k, k <> LInteger ref -> k <> LInteger freelist ->
                                 registry_get L1 k = registry_get L k).
  { intros k Hk1 Hk2.
    by apply (registry_get_after_close L L1 R pm _ k HR Hr1 Hne32 upd ref ht _ Hupd Ht1). }
  exists L1. split; [rewrite Hrun; by destruct (status =? UC_ERR_OK)|].
  split; [done|]. split.
  { exists m. split; [by rewrite Hu1, lookup_insert_ne | by rewrite Hreg_other]. }
  split; [done|]. split.
  { rewrite Hreg_other; [done | congruence | unfold freelist; intros [= ?]; lia]. }
  split.
  { rewrite Ht1. destruct Hupd as [-> | ->]; cbn [id];
      by rewrite !lookup_insert_ne by congruence. }
  split; [done|]. split; [done|]. split; [by rewrite Hr1|]. split.
  { exists pm. split; [by rewrite Hreg_other|]. split; [|by rewrite Hr1].
    unfold table_get, table_nodes in *. rewrite HPM in Hreg2. rewrite Ht1.
    destruct Hupd as [-> | ->]; cbn [id].
    - rewrite lookup_insert_eq. cbn [t_nodes].
      rewrite rawget_table_set_ne by congruence. exact Hreg2.
    - rewrite !lookup_insert_ne by congruence. by rewrite HPM. }
  rewrite Hr1, Ht1. destruct Hupd as [-> | ->]; cbn [id];
    rewrite ?lookup_insert_ne by congruence; by rewrite lookup_insert_eq.
Qed.

Lemma lua_geti_registry_absent L R n :
  tables L !! l_registry L = Some R -> t_meta R = None ->
  rawget (t_nodes R) (LInteger n) = LNil ->
  lua_geti LUA_REGISTRYINDEX n L = Ok tt (set_stack (stack L ++ [LNil]) L).
Proof.
  intros HR Hmeta Hn. unfold lua_geti.
  step ltac:(apply value_at_ok, index2value_registry).
  unfold index_get, get_table.
  step ltac:(erewrite bind_ok; [|rewrite HR; reflexivity]; cbv beta;
             rewrite Hn, Hmeta; reflexivity).
  reflexivity.
Qed.

Lemma lua_next_not_a_table L base v key idx :
  stack L = base ++ [v; key] -> idx = Z.of_nat (S (length base)) ->
  (forall a, v <> LTable a) ->
  lua_next idx L = Stuck.
Proof.
  intros Hs Hidx Hv. unfold lua_next.
  step ltac:(eapply value_at_ok, index2value_abs; eauto).
  step ltac:(eapply value_at_ok, (index2value_neg_app L base [v; key]); done).
  destruct v; try done. by destruct (Hv a).
Qed.

(** X10.  After a close that failed in the native close, a further close
    of the same object (the collector's, at the latest) is undefined: the
    object still counts as OPEN, its hook table reference is [LUA_NOREF],
    under which the registry holds nothing, and the teardown loop calls
    [lua_next] on nil where the host requires a table. *)
Theorem close_after_failed_close_is_undefined L w h ref ht ns args args' fuel :
  open_engine L w h ref ht ns ->
  (exists R, tables L !! l_registry L = Some R /\ t_meta R = None) ->
  registry_get L (LInteger LUA_NOREF) = LNil ->
  (length ns < fuel)%nat ->
  native_close_status uc L w h ns <> UC_ERR_OK ->
  exists L1,
    close_call node_pos uc fuel w args L =
      Raise (NativeError (native_close_status uc L w h ns)) L1 /\
    close_call node_pos uc fuel w args' L1 = Stuck.
Proof.
  intros Hopen (R0 & HR0 & Hmeta) Hnoref Hfuel Hstatus.
  destruct (close_call_open node_pos uc L w args h ref ht ns fuel Hopen Hfuel)
    as (m & pm & R & PM & L1 & Hrun & Hs1 & Hr1 & Htr1 & Hu1 & HR & HPM & Hpm & Hm & Ht1).
  cbv zeta in *. fold (native_close_status uc L w h ns) in *.
  apply Z.eqb_neq in Hstatus. rewrite Hstatus in *. cbn [id] in Ht1.
  assert (R0 = R) as -> by congruence.
  destruct Hopen as (Hh & _ & Href & _ & _ & _ & _ & Hne1 &
                     (pm' & Hpm' & _ & _ & Hne3) & _).
  assert (pm' = pm) as -> by congruence.
  exists L1. split; [exact Hrun|].
  assert (HR1 : tables L1 !! l_registry L1 =
                Some (mkTable (unref_nodes node_pos (t_nodes R) ref) (t_meta R)))
    by (by rewrite Hr1, Ht1, lookup_insert_eq).
  assert (Hm1 : registry_get L1 (LString kEngineMetatableName) = LTable m).
  { rewrite <- Hm.
    by apply (registry_string_after_close node_pos L L1 R pm PM _ HR Hr1 Hne3 _ ref ht _
                (or_intror eq_refl) Ht1). }
  assert (HU1 : udatas L1 !! w = Some (mkUdata [Some h; Some LUA_NOREF] (Some m)))
    by (by rewrite Hu1, lookup_insert_eq).
  destruct fuel as [|fuel]; [lia|].
  unfold close_call, host_call, ul_close.
  erewrite bind_stuck; [reflexivity|].
  unfold ul_free_engine_object.
  step ltac:(reflexivity).
  change (lua_absindex (set_stack (LUserdata w :: args') L1) 1) with 1.
  step ltac:(eapply luaL_checkudata_ok; [|exact HU1|reflexivity|exact Hm1];
             by eapply index2value_first).
  step ltac:(eapply load_ok; [exact HU1|reflexivity]).
  replace (h =? NULL) with false by (unfold NULL in *; lia).
  step ltac:(eapply load_ok; [exact HU1|reflexivity]).
  step ltac:(eapply (lua_geti_registry_absent _ _ LUA_NOREF); [exact HR1 | exact Hmeta |];
             cbn [t_nodes];
             rewrite rawget_unref_nodes_other
               by (unfold LUA_NOREF, freelist; intros [= ?]; lia);
             by rewrite <- (lookup_registry_get L R)).
  step ltac:(reflexivity).
  rewrite (lua_absindex_top _ (LUserdata w :: args') LNil) by reflexivity.
  step ltac:(reflexivity).
  apply bind_stuck. cbn [while]. apply bind_stuck. apply bind_stuck.
  eapply (lua_next_not_a_table _ (LUserdata w :: args') LNil LNil);
    [norm_state; by rewrite <- app_assoc | reflexivity | done].
Qed.

End MoreClose.

(** ** More on creation *)

Lemma border_nonneg ns : 0 <= border ns.
Proof. unfold border. destruct (List.find _ _); lia. Qed.

Lemma to_int_small z : 0 <= z < 2^31 -> to_int z = z.
Proof. intros Hz. unfold to_int. rewrite Z.mod_small by lia. lia. Qed.

Section MoreCreate.
Variable node_pos : lua_Value -> list node -> nat.
Variable l_str2int : string -> option Z.
Variable uc : EmulationEngine.

(** A new reference in a registry whose free list is in order. *)
Lemma luaL_ref_registry_positive L base v R :
  stack L = base ++ [v] -> v <> LNil ->
  tables L !! l_registry L = Some R ->
  free_list_ok L ->
  exists ref rs,
    luaL_ref node_pos l_str2int LUA_REGISTRYINDEX L =
      Ok ref (mkState base (<[l_registry L := mkTable rs (t_meta R)]> (tables L))
                (udatas L) (l_registry L) (trace L)) /\
    (forall s, rawget rs (LString s) = rawget (t_nodes R) (LString s)) /\
    rawget rs (LInteger ref) = v /\
    0 < ref.
Proof.
  intros Hs Hv HR Hfree. unfold luaL_ref.
  rewrite (bind_ok _ _ _ _ _ (lua_isnil_top L base v Hs)).
  rewrite (is_nil_false _ Hv).
  step ltac:(reflexivity).
  change (lua_absindex L LUA_REGISTRYINDEX) with LUA_REGISTRYINDEX.
  step ltac:(by eapply lua_rawgeti_registry).
  unfold free_list_ok in Hfree.
  rewrite (lookup_registry_get L R) in Hfree by done.
  unfold table_nodes in Hfree. rewrite HR in Hfree.
  destruct (rawget (t_nodes R) (LInteger freelist)) as [| | n | | | | |] eqn:Ef;
    try done; unfold lua_tointeger.
  - step ltac:(erewrite bind_ok;
                 [| eapply value_at_ok, (index2value_neg_app _ (stack L) [LNil]); done];
               reflexivity).
    step ltac:(by eapply (lua_pop_app 1 _ (stack L) [LNil])).
    norm_state.
    change (to_int 0 =? 0) with true. cbn [negb].
    step ltac:(erewrite bind_ok; [reflexivity | by eapply lua_rawlen_registry]).
    erewrite bind_ok;
      [| eapply (lua_rawseti_registry node_pos _ R base v); [exact HR | exact Hs]].
    norm_state. eexists _, _. split; [reflexivity|]. split; [|split].
    + intros s. by rewrite rawget_table_set_ne.
    + apply rawget_table_set_eq.
    + pose proof (border_nonneg (t_nodes R)). rewrite to_int_small by lia. lia.
  - step ltac:(erewrite bind_ok;
                 [| eapply value_at_ok,
                      (index2value_neg_app _ (stack L) [LInteger n]); done];
               reflexivity).
    step ltac:(by eapply (lua_pop_app 1 _ (stack L) [LInteger n])).
    norm_state.
    replace (to_int n =? 0) with false by lia. cbn [negb].
    step ltac:(erewrite bind_ok;
                 [| eapply (lua_rawgeti_registry _ R); exact HR];
               cbv beta; erewrite bind_ok;
                 [reflexivity
                 | eapply (lua_rawseti_registry node_pos _ R (stack L));
                   [exact HR | reflexivity]]).
    erewrite bind_ok;
      [| eapply (lua_rawseti_registry node_pos _ _ base v);
         [norm_state; apply lookup_insert_eq | exact Hs]].
    norm_state. cbn [t_nodes t_meta]. rewrite insert_insert_eq.
    eexists _, _. split; [reflexivity|]. split; [|split].
    + intros s. by rewrite !rawget_table_set_ne.
    + apply rawget_table_set_eq.
    + done.
Qed.

Lemma no_handler_preserved L L1 a ev T' :
  no_handler L a ev ->
  tables L1 !! a = Some T' ->
  (forall T, tables L !! a = Some T -> t_meta T' = t_meta T) ->
  (forall mt T, tables L !! mt = Some T ->
     exists T1, tables L1 !! mt = Some T1 /\
                rawget (t_nodes T1) (LString ev) = rawget (t_nodes T) (LString ev)) ->
  no_handler L1 a ev.
Proof.
  intros (T & HT & Hh) HT' Hmeta Hkeep. exists T'. split; [done|].
  rewrite (Hmeta T HT). unfold handler_of in *.
  destruct (t_meta T) as [mt|]; [|done].
  destruct (tables L !! mt) as [MT|] eqn:E; [|done].
  destruct (Hkeep mt MT E) as (T1 & -> & ->). done.
Qed.

(** Creation from a registry in order: the new object is OPEN. *)
Lemma ul_create_engine_object_open L h pm m :
  h <> NULL ->
  registry_get L (LString kEnginePointerMapName) = LTable pm ->
  registry_get L (LString kEngineMetatableName) = LTable m ->
  pm <> l_registry L ->
  no_handler L pm "__newindex" ->
  free_list_ok L ->
  exists w ref ht L1,
    ul_create_engine_object node_pos l_str2int h L = Ok tt L1 /\
    stack L1 = stack L ++ [LUserdata w] /\
    trace L1 = trace L /\
    udatas L !! w = None /\ tables L !! ht = None /\
    open_engine L1 w h ref ht [] /\
    (forall ev, no_handler L pm ev -> no_handler L1 pm ev) /\
    (forall s, registry_get L1 (LString s) = registry_get L (LString s)).
Proof.
  intros Hh Hpm Hm Hne (PM & HPM & Hno) Hfree.
  destruct (registry_get_Some _ _ _ Hpm ltac:(done)) as (R & HR & _).
  destruct (fresh_addr_spec L) as (Hft & Hfu & Hfr).
  set (w := fresh_addr L) in *.
  unfold ul_create_engine_object.
  step ltac:(reflexivity). fold w.
  step ltac:(eapply store_ok; [norm_state; apply lookup_insert_eq | cbv; lia]).
  norm_state. cbn [u_mem u_meta]. simpl (<[_ := _]> (replicate _ _)).
  rewrite insert_insert_eq.
  step ltac:(eapply (luaL_setmetatable_new _ (stack L) w);
             [reflexivity | norm_state; apply lookup_insert_eq | exact Hm]).
  norm_state. cbn [u_mem]. rewrite insert_insert_eq.
  step ltac:(eapply lua_getfield_registry; [exact Hpm | done]).
  step ltac:(reflexivity).
  unfold lua_pushvalue.
  step ltac:(erewrite bind_ok; [reflexivity|];
             eapply value_at_ok,
               (index2value_neg_app _ (stack L) [LUserdata w; LTable pm; LLightUserdata h]);
             [norm_state; by rewrite <- !app_assoc | done..]).
  unfold push, modify, lua_pushlightuserdata, push, modify. norm_state.
  step ltac:(eapply (lua_settable_raw node_pos _ (stack L ++ [LUserdata w]) pm PM
                       (LLightUserdata h) (LUserdata w));
             [ norm_state; by rewrite <- !app_assoc
             | exact HPM | by right | done ]).
  norm_state.
  step ltac:(eapply (lua_pop_app 1 _ (stack L ++ [LUserdata w]) [LTable pm]); reflexivity).
  norm_state.
  step ltac:(reflexivity).
  norm_state.
  match goal with
  | |- context [LTable ?a] =>
      lazymatch a with fresh_addr ?L' =>
        destruct (fresh_addr_spec L') as (Hht1 & _ & Hht2); set (ht := a) in *
      end
  end.
  norm_state.
  assert (Hhp : ht <> pm).
  { intros Heq. rewrite Heq, lookup_insert_eq in Hht1. done. }
  assert (Hht0 : tables L !! ht = None).
  { by rewrite lookup_insert_ne in Hht1 by congruence. }
  edestruct (luaL_ref_registry_positive) as (ref & rs & Href & Hstr & Hget & Hpos);
    [ | | | | erewrite bind_ok; [|exact Href] ].
  - norm_state. reflexivity.
  - done.
  - norm_state. rewrite !lookup_insert_ne by congruence. exact HR.
  - unfold free_list_ok, registry_get, table_get, table_nodes in *. norm_state.
    by rewrite !lookup_insert_ne by congruence.
  - cbv beta. norm_state.
    erewrite store_ok; [| norm_state; apply lookup_insert_eq | cbv; lia].
    norm_state. cbn [u_mem u_meta]. simpl (<[_ := _]> [_; _]).
    rewrite insert_insert_eq.
    exists w, ref, ht. eexists. split; [reflexivity|]. norm_state.
    assert (Hreg1 : forall L1 k,
              tables L1 !! l_registry L1 = Some (mkTable rs (t_meta R)) ->
              registry_get L1 k = rawget rs k).
    { intros L1 k HR1. unfold registry_get, table_get, table_nodes. by rewrite HR1. }
    split; [done|]. split; [done|]. split; [done|]. split; [done|].
    split; [|split].
    + split; [done|]. split.
      { exists m. split; [norm_state; apply lookup_insert_eq|].
        rewrite Hreg1 by (norm_state; apply lookup_insert_eq).
        rewrite Hstr. by rewrite <- (lookup_registry_get L R). }
      split; [done|]. split.
      { by rewrite Hreg1 by (norm_state; apply lookup_insert_eq). }
      split.
      { norm_state. by rewrite lookup_insert_ne, lookup_insert_eq by congruence. }
      split; [apply NoDup_nil_2|]. split; [apply not_elem_of_nil|].
      split; [norm_state; congruence|]. split.
      { exists pm. split.
        - rewrite Hreg1 by (norm_state; apply lookup_insert_eq).
          rewrite Hstr. by rewrite <- (lookup_registry_get L R).
        - split; [|split; [congruence | done]].
          unfold table_get, table_nodes. norm_state.
          rewrite !lookup_insert_ne by congruence.
          rewrite lookup_insert_eq. cbn [t_nodes]. apply rawget_table_set_eq. }
      norm_state. rewrite lookup_insert_eq. by eexists.
    + intros ev Hev.
      eapply (no_handler_preserved L _ pm ev); [exact Hev | | |].
      * norm_state. rewrite !lookup_insert_ne by congruence. apply lookup_insert_eq.
      * intros T HT. cbn [t_meta]. congruence.
      * intros mt T HT. norm_state.
        destruct (decide (mt = l_registry L)) as [->|Hmr].
        { rewrite lookup_insert_eq. eexists. split; [reflexivity|].
          cbn [t_nodes]. rewrite Hstr. congruence. }
        rewrite lookup_insert_ne by congruence.
        assert (mt <> ht) by congruence.
        rewrite lookup_insert_ne by congruence.
        destruct (decide (mt = pm)) as [->|Hmp].
        { rewrite lookup_insert_eq. eexists. split; [reflexivity|].
          cbn [t_nodes]. rewrite rawget_table_set_ne by done. congruence. }
        rewrite lookup_insert_ne by congruence. eauto.
    + intros s. rewrite Hreg1 by (norm_state; apply lookup_insert_eq).
      rewrite Hstr. by rewrite <- (lookup_registry_get L R).
Qed.

(** X11.  [ul_create_engine_object] makes an OPEN engine object: a new
    userdata, left on top of the stack, that holds the handle, carries the
    engine metatable, is registered in the pointer map under the handle,
    and owns a new, empty hook table through a positive reference.  No
    native call is made, the pointer map keeps being accessed raw, and the
    entries the registry has under string keys are left as they were. *)
Theorem ul_create_engine_object_opens L h pm m :
  h <> NULL ->
  registry_get L (LString kEnginePointerMapName) = LTable pm ->
  registry_get L (LString kEngineMetatableName) = LTable m ->
  pm <> l_registry L ->
  no_handler L pm "__newindex" ->
  free_list_ok L ->
  exists w ref ht L1,
    ul_create_engine_object node_pos l_str2int h L = Ok tt L1 /\
    stack L1 = stack L ++ [LUserdata w] /\
    trace L1 = trace L /\
    udatas L !! w = None /\ tables L !! ht = None /\
    open_engine L1 w h ref ht [] /\
    (forall ev, no_handler L pm ev -> no_handler L1 pm ev) /\
    (forall s, registry_get L1 (LString s) = registry_get L (LString s)).
Proof. apply ul_create_engine_object_open. Qed.

End MoreCreate.

(** ** A whole life of an engine object *)

Section Life.
Variable node_pos : lua_Value -> list node -> nat.
Variable l_str2int : string -> option Z.
Variable uc : EmulationEngine.

(** After a close that succeeds the handle is no longer found. *)
Lemma close_call_unregisters L w args h ref ht ns pm fuel :
  open_engine L w h ref ht ns ->
  registry_get L (LString kEnginePointerMapName) = LTable pm ->
  no_handler L pm "__index" ->
  native_close_status uc L w h ns = UC_ERR_OK ->
  (length ns < fuel)%nat ->
  exists L1,
    close_call node_pos uc fuel w args L = Ok [] L1 /\
    stack L1 = stack L /\
    trace L1 = trace L ++ map (Ev_hook_del w) (keys (live ns)) ++ [Ev_uc_close h] /\
    ul_get_engine_object h L1 = Raise (not_registered_error h) L1.
Proof.
  intros Hopen Hpm0 (PM0 & HPM0 & Hno) Hok Hfuel.
  destruct (close_call_open node_pos uc L w args h ref ht ns fuel Hopen Hfuel)
    as (m & pm' & R & PM & L1 & Hrun & Hs1 & Hr1 & Htr1 & Hu1 & HR & HPM & Hpm & Hm & Ht1).
  cbv zeta in *. fold (native_close_status uc L w h ns) in *.
  rewrite Hok in *. cbn [Z.eqb UC_ERR_OK] in *.
  assert (pm' = pm) as -> by congruence.
  assert (PM0 = PM) as -> by congruence.
  destruct Hopen as (_ & _ & _ & _ & _ & _ & _ & Hne1 &
                     (pm' & Hpm' & _ & Hne2 & Hne3) & _).
  assert (pm' = pm) as -> by congruence.
  exists L1. split; [done|]. split; [done|].
  split; [by rewrite Htr1, <- app_assoc|].
  apply (ul_get_engine_object_missing L1 pm h).
  - rewrite <- Hpm.
    by apply (registry_string_after_close node_pos L L1 R pm _ _ HR Hr1 Hne3 _ ref ht _
                (or_introl eq_refl) Ht1).
  - eexists. split; [rewrite Ht1; apply lookup_insert_eq|]. cbn [t_meta].
    unfold handler_of in *. destruct (t_meta PM) as [mt|]; [|done].
    rewrite Ht1.
    destruct (decide (mt = pm)) as [->|Hmp].
    { rewrite lookup_insert_eq. cbn [t_nodes]. rewrite rawget_table_set_ne by done.
      by rewrite HPM in Hno. }
    rewrite lookup_insert_ne by done.
    destruct (decide (mt = l_registry L)) as [->|Hmr].
    { rewrite lookup_insert_eq. cbn [t_nodes]. rewrite rawget_unref_nodes_string.
      by rewrite HR in Hno. }
    rewrite lookup_insert_ne by done.
    destruct (decide (mt = ht)) as [->|Hmh].
    { rewrite lookup_insert_eq. cbn [t_nodes]. by rewrite rawget_clear_all. }
    by rewrite lookup_insert_ne.
  - unfold table_get, table_nodes. rewrite Ht1, lookup_insert_eq. cbn [t_nodes].
    apply rawget_table_set_eq.
Qed.

(** X12.  Creation composed with close: an engine object made by
    [ul_create_engine_object] and closed at once, the native close
    succeeding, has cost exactly one native call, the close of its handle;
    the object stays on the stack, CLOSED, and its handle is no longer
    registered. *)
Theorem create_then_close L h pm m args fuel :
  h <> NULL ->
  registry_get L (LString kEnginePointerMapName) = LTable pm ->
  registry_get L (LString kEngineMetatableName) = LTable m ->
  pm <> l_registry L ->
  no_handler L pm "__newindex" ->
  no_handler L pm "__index" ->
  free_list_ok L ->
  uc_close uc (trace L) h = UC_ERR_OK ->
  (0 < fuel)%nat ->
  exists w L1 L2,
    ul_create_engine_object node_pos l_str2int h L = Ok tt L1 /\
    close_call node_pos uc fuel w args L1 = Ok [] L2 /\
    stack L2 = stack L ++ [LUserdata w] /\
    trace L2 = trace L ++ [Ev_uc_close h] /\
    closed_engine L2 w /\
    ul_get_engine_object h L2 = Raise (not_registered_error h) L2.
Proof.
  intros Hh Hpm Hm Hne Hnew Hix Hfree Hok Hfuel.
  destruct (ul_create_engine_object_open node_pos l_str2int L h pm m
              Hh Hpm Hm Hne Hnew Hfree)
    as (w & ref & ht & L1 & Hrun & Hs1 & Htr1 & _ & _ & Hopen & Hkeep & Hreg).
  assert (Hok1 : native_close_status uc L1 w h [] = UC_ERR_OK).
  { unfold native_close_status. cbn [live keys map]. by rewrite app_nil_r, Htr1. }
  destruct (close_call_unregisters L1 w args h ref ht [] pm fuel Hopen
              ltac:(by rewrite Hreg) (Hkeep _ Hix) Hok1 Hfuel)
    as (L2 & Hclose & Hs2 & Htr2 & Hgone).
  destruct (close_call_succeeds node_pos uc L1 w h ref ht [] fuel Hopen Hok1 Hfuel)
    as (L2' & Hclose' & _ & Hclosed).
  assert (L2' = L2) as -> by (specialize (Hclose' args); congruence).
  exists w, L1, L2. split; [done|]. split; [done|].
  split; [congruence|]. split; [by rewrite Htr2, Htr1|]. done.
Qed.

End Life.

(** ** The border of a table *)

Lemma find_seq_least (P : nat -> bool) len : forall s n,
  List.find P (seq s len) = Some n ->
  P n = true /\ forall m, (s <= m < n)%nat -> P m = false.
Proof.
  induction len as [|len IH]; intros s n; [done|].
  cbn [seq List.find]. destruct (P s) eqn:E.
  - intros [= <-]. split; [done|]. lia.
  - intros H. destruct (IH _ _ H) as [Hn Hm]. split; [done|].
    intros m Hle. destruct (decide (m = s)) as [->|]; [done|]. apply Hm. lia.
Qed.

(** A table of [n] nodes has a nil among its first [n + 1] integer keys. *)
Lemma border_found ns :
  exists n, List.find (fun n => is_nil (rawget ns (LInteger (Z.of_nat (S n)))))
                      (seq 0 (S (length ns))) = Some n.
Proof.
  destruct (List.find _ _) as [n|] eqn:E; [by eexists|]. exfalso.
  set (l := (fun n => LInteger (Z.of_nat (S n))) <$> seq 0 (S (length ns))).
  assert (Hnd : NoDup l).
  { apply NoDup_fmap_2; [|apply NoDup_seq]. intros a b [= H]. lia. }
  assert (Hsub : forall k, k ∈ l -> k ∈ keys ns).
  { intros k Hk. apply list_elem_of_fmap in Hk as (n & -> & Hn).
    apply has_key_elem, has_key_rawget.
    apply list_elem_of_In in Hn.
    pose proof (List.find_none _ _ E n Hn) as Hnil. cbv beta in Hnil.
    intros Heq. by rewrite Heq in Hnil. }
  pose proof (submseteq_length _ _ (NoDup_submseteq _ _ Hnd Hsub)) as Hlen.
  unfold l, keys in Hlen. rewrite length_fmap, length_seq, length_map in Hlen. unfold node in *. lia.
Qed.

(** The border depends on the integer keys only. *)
Lemma border_ext ns ns' :
  (forall n, rawget ns' (LInteger n) = rawget ns (LInteger n)) ->
  border ns' = border ns.
Proof.
  intros Hext. unfold border.
  destruct (border_found ns) as (n & Hn). destruct (border_found ns') as (n' & Hn').
  rewrite Hn, Hn'.
  destruct (find_seq_least _ _ _ _ Hn) as [Hp Hl].
  destruct (find_seq_least _ _ _ _ Hn') as [Hp' Hl'].
  cbv beta in *.
  destruct (lt_eq_lt_dec n n') as [[Hlt|Heq]|Hlt]; [| by subst |].
  - rewrite <- Hext, Hl' in Hp by lia. done.
  - rewrite Hext, Hl in Hp' by lia. done.
Qed.

(** ** Loading the library *)

Section Init.
Variable node_pos : lua_Value -> list node -> nat.

Lemma lua_setfield_under_top L base a T k v :
  stack L = base ++ [LTable a; v] ->
  tables L !! a = Some T ->
  rawget (t_nodes T) (LString k) <> LNil \/
    handler_of L (t_meta T) "__newindex" = Some LNil ->
  lua_setfield node_pos (-2) k L =
  Ok tt (set_stack (base ++ [LTable a])
           (set_tables (<[a := mkTable (table_set node_pos (t_nodes T) (LString k) v)
                                       (t_meta T)]> (tables L)) L)).
Proof.
  intros Hs HT Hraw. unfold lua_setfield.
  step ltac:(apply value_at_ok, (index2value_neg_app L base [LTable a; v]); done).
  step ltac:(apply value_at_ok, (index2value_neg_app L base [LTable a; v]); done).
  step ltac:(by apply index_set_raw).
  rewrite (lua_pop_app 1 _ (base ++ [LTable a]) [v]); [done| |done].
  norm_state. rewrite Hs. by rewrite <- app_assoc.
Qed.

Lemma lua_setfield_registry L base v R k :
  stack L = base ++ [v] ->
  tables L !! l_registry L = Some R ->
  rawget (t_nodes R) (LString k) <> LNil \/
    handler_of L (t_meta R) "__newindex" = Some LNil ->
  lua_setfield node_pos LUA_REGISTRYINDEX k L =
  Ok tt (set_stack base
           (set_tables (<[l_registry L :=
                            mkTable (table_set node_pos (t_nodes R) (LString k) v)
                                    (t_meta R)]> (tables L)) L)).
Proof.
  intros Hs HR Hraw. unfold lua_setfield.
  step ltac:(apply value_at_ok, index2value_registry).
  step ltac:(apply value_at_ok, (index2value_neg_app L base [v]); done).
  step ltac:(by apply index_set_raw).
  by rewrite (lua_pop_app 1 _ base [v]).
Qed.

Lemma lua_getfield_registry_absent L s :
  no_handler L (l_registry L) "__index" ->
  registry_get L (LString s) = LNil ->
  lua_getfield LUA_REGISTRYINDEX s L = Ok tt (set_stack (stack L ++ [LNil]) L).
Proof.
  intros Hno Hnil. unfold lua_getfield.
  step ltac:(apply value_at_ok, index2value_registry).
  step ltac:(by apply index_get_absent).
  reflexivity.
Qed.

(** [luaL_setfuncs] on a table without metatable binds every name of the
    list, and touches no other key. *)
Lemma luaL_setfuncs_spec l : forall L base a ns,
  stack L = base ++ [LTable a] ->
  tables L !! a = Some (mkTable ns None) ->
  exists ns',
    luaL_setfuncs node_pos l L =
      Ok tt (set_tables (<[a := mkTable ns' None]> (tables L)) L) /\
    (forall name f, NoDup l.*1 -> (name, f) ∈ l ->
       rawget ns' (LString name) = LCFunction f) /\
    (forall k, (forall name, name ∈ l.*1 -> k <> LString name) ->
       rawget ns' k = rawget ns k).
Proof.
  induction l as [|[name func] r IH]; intros L base a ns Hs HT.
  - exists ns. split; [|split].
    + cbn [luaL_setfuncs ret]. f_equal. destruct L as [st tb ud rg tr]. unfold set_tables.
      cbn [stack tables udatas l_registry trace] in *. by rewrite insert_id.
    + intros ? ? _ H. by apply elem_of_nil in H.
    + done.
  - cbn [luaL_setfuncs].
    step ltac:(reflexivity).
    step ltac:(eapply (lua_setfield_under_top _ base a (mkTable ns None) name (LCFunction func));
               [norm_state; by rewrite Hs, <- app_assoc | exact HT | by right]).
    cbn [t_nodes t_meta].
    match goal with
    | |- context [luaL_setfuncs _ r ?L'] =>
        destruct (IH L' base a (table_set node_pos ns (LString name) (LCFunction func)))
          as (ns' & Hrun & Hin & Hout);
          [reflexivity | norm_state; apply lookup_insert_eq | rewrite Hrun]
    end.
    + exists ns'. split; [|split].
      * f_equal. norm_state. rewrite insert_insert_eq. destruct L as [st tb ud rg tr].
        cbn [stack tables udatas l_registry trace] in *. by rewrite Hs.
      * intros name' f Hnd Hel. cbn [fmap list_fmap fst] in Hnd.
        apply NoDup_cons in Hnd as [Hnot Hnd].
        apply elem_of_cons in Hel as [[= -> ->]|Hel].
        -- rewrite Hout; [apply rawget_table_set_eq|].
           intros name' Hname' [= ->]. done.
        -- by apply Hin.
      * intros k Hk. rewrite Hout.
        -- apply rawget_table_set_ne. apply Hk. cbn. left.
        -- intros name' Hname'. apply Hk. cbn. by right.
Qed.

Lemma ul_create_weak_table_spec L mode :
  exists a mt,
    ul_create_weak_table node_pos mode L =
      Ok tt (mkState (stack L ++ [LTable a])
               (<[a := mkTable [] (Some mt)]>
                  (<[mt := mkTable (table_set node_pos [] (LString "__mode") (LString mode))
                                   None]> (tables L)))
               (udatas L) (l_registry L) (trace L)) /\
    tables L !! a = None /\ tables L !! mt = None /\ a <> mt /\
    a <> l_registry L /\ mt <> l_registry L.
Proof.
  unfold ul_create_weak_table.
  destruct (fresh_addr_spec L) as (Hpt & _ & Hpr).
  set (pm := fresh_addr L) in *.
  step ltac:(reflexivity). fold pm.
  step ltac:(reflexivity).
  match goal with
  | |- context [LTable ?a] =>
      lazymatch a with fresh_addr ?L' =>
        destruct (fresh_addr_spec L') as (Hmt & _ & Hmr); set (mm := a) in *
      end
  end.
  norm_state.
  assert (Hne : pm <> mm).
  { intros Heq. rewrite <- Heq, lookup_insert_eq in Hmt. done. }
  rewrite lookup_insert_ne in Hmt by done.
  step ltac:(reflexivity).
  norm_state.
  step ltac:(eapply (lua_setfield_under_top _ (stack L ++ [LTable pm]) mm
                       (mkTable [] None) "__mode" (LString mode));
             [ norm_state; by rewrite <- !app_assoc
             | norm_state; apply lookup_insert_eq
             | by right ]).
  norm_state. cbn [t_nodes t_meta]. rewrite insert_insert_eq.
  unfold lua_setmetatable.
  step ltac:(eapply value_at_ok, (index2value_neg_app _ (stack L) [LTable pm; LTable mm]);
             [norm_state; by rewrite <- !app_assoc | done..]).
  step ltac:(eapply value_at_ok, (index2value_neg_app _ (stack L) [LTable pm; LTable mm]);
             [norm_state; by rewrite <- !app_assoc | done..]).
  step ltac:(reflexivity).
  unfold get_table at 1.
  step ltac:(erewrite bind_ok;
               [reflexivity
               | norm_state; rewrite lookup_insert_ne, lookup_insert_eq by done;
                 reflexivity]).
  rewrite (lua_pop_app 1 _ (stack L ++ [LTable pm]) [LTable mm]);
    [| norm_state; by rewrite <- !app_assoc | done].
  norm_state. cbn [t_nodes].
  exists pm, mm. split; [|done].
  do 2 f_equal.
  rewrite (insert_insert_ne _ mm pm) by done. by rewrite insert_insert_eq.
Qed.

Lemma luaL_newmetatable_new L R tname :
  tables L !! l_registry L = Some R -> t_meta R = None ->
  rawget (t_nodes R) (LString tname) = LNil ->
  exists m,
    luaL_newmetatable node_pos tname L =
      Ok 1 (mkState (stack L ++ [LTable m])
              (<[l_registry L :=
                   mkTable (table_set node_pos (t_nodes R) (LString tname) (LTable m)) None]>
                 (<[m := mkTable (table_set node_pos [] (LString "__name") (LString tname))
                                 None]> (tables L)))
              (udatas L) (l_registry L) (trace L)) /\
    tables L !! m = None /\ m <> l_registry L.
Proof.
  intros HR HRm Hnil. unfold luaL_newmetatable, luaL_getmetatable.
  step ltac:(eapply lua_getfield_registry_absent;
             [ exists R; split; [done|]; by rewrite HRm
             | by rewrite (lookup_registry_get L R) ]).
  step ltac:(by eapply (lua_isnil_top _ (stack L) LNil)).
  cbn [is_nil negb].
  step ltac:(by eapply (lua_pop_app 1 _ (stack L) [LNil])).
  norm_state.
  step ltac:(reflexivity).
  match goal with
  | |- context [LTable ?a] =>
      lazymatch a with fresh_addr ?L' =>
        destruct (fresh_addr_spec L') as (Hmt & _ & Hmr); set (m := a) in *
      end
  end.
  norm_state.
  step ltac:(reflexivity).
  norm_state.
  step ltac:(eapply (lua_setfield_under_top _ (stack L) m
                       (mkTable [] None) "__name" (LString tname));
             [ norm_state; by rewrite <- !app_assoc
             | norm_state; apply lookup_insert_eq
             | by right ]).
  norm_state. cbn [t_nodes t_meta]. rewrite insert_insert_eq.
  unfold lua_pushvalue.
  step ltac:(erewrite bind_ok; [reflexivity|];
             eapply value_at_ok, (index2value_neg_app _ (stack L) [LTable m]); done).
  unfold push, modify. norm_state.
  step ltac:(eapply (lua_setfield_registry _ (stack L ++ [LTable m]) (LTable m) R tname);
             [ norm_state; by rewrite <- !app_assoc
             | norm_state; by rewrite lookup_insert_ne
             | right; by rewrite HRm ]).
  norm_state. rewrite HRm.
  exists m. done.
Qed.

(** What [ul_init_engines_lib] sets up. *)
Lemma ul_init_engines_lib_spec L base x R :
  stack L = base ++ [x] ->
  tables L !! l_registry L = Some R -> t_meta R = None ->
  registry_get L (LString kEngineMetatableName) = LNil ->
  exists pm mm m ix L1,
    ul_init_engines_lib node_pos L = Ok tt L1 /\
    stack L1 = base /\ trace L1 = trace L /\ udatas L1 = udatas L /\
    l_registry L1 = l_registry L /\
    registry_get L1 (LString kEnginePointerMapName) = LTable pm /\
    registry_get L1 (LString kEngineMetatableName) = LTable m /\
    (forall k, k <> LString kEnginePointerMapName ->
               k <> LString kEngineMetatableName ->
               registry_get L1 k = registry_get L k) /\
    pm <> l_registry L /\
    tables L1 !! pm = Some (mkTable [] (Some mm)) /\
    table_get L1 mm (LString "__mode") = LString "v" /\
    no_handler L1 pm "__index" /\ no_handler L1 pm "__newindex" /\
    table_get L1 m (LString "__gc") = LCFunction F_ul_close /\
    table_get L1 m (LString "__index") = LTable ix /\
    (forall name f, (name, f) ∈ kEngineInstanceMethods ->
                    table_get L1 ix (LString name) = LCFunction f) /\
    (free_list_ok L -> free_list_ok L1).
Proof.
  intros Hs HR HRm Hfree.
  rewrite (lookup_registry_get L R) in Hfree by done.
  unfold ul_init_engines_lib.
  destruct (ul_create_weak_table_spec L "v")
    as (pm & mm & Hweak & Hpm0 & Hmm0 & Hpmm & Hpmr & Hmmr).
  step ltac:(exact Hweak).
  step ltac:(eapply (lua_setfield_registry _ (stack L) (LTable pm) R);
             [ reflexivity
             | norm_state; by rewrite !lookup_insert_ne
             | right; by rewrite HRm ]).
  norm_state. rewrite HRm.
  match goal with
  | |- context [bind (luaL_newmetatable _ _) _ ?L'] =>
      destruct (luaL_newmetatable_new L' _ kEngineMetatableName
                  ltac:(norm_state; apply lookup_insert_eq) eq_refl)
        as (m & Hnew & Hm0 & Hmr)
  end.
  { cbn [t_nodes]. by rewrite rawget_table_set_ne. }
  step ltac:(exact Hnew). clear Hnew. norm_state. cbn [t_nodes] in *.
  rewrite !lookup_insert_ne in Hm0 by done.
  assert (Hmpm : m <> pm).
  { intros ->. by rewrite lookup_insert_eq in Hm0. }
  rewrite lookup_insert_ne in Hm0 by done.
  assert (Hmmm : m <> mm).
  { intros ->. by rewrite lookup_insert_eq in Hm0. }
  rewrite lookup_insert_ne in Hm0 by done.
  match goal with
  | |- context [bind (luaL_setfuncs _ _) _ ?L'] =>
      destruct (luaL_setfuncs_spec kEngineMetamethods L' (stack L) m
                  (table_set node_pos [] (LString "__name")
                     (LString kEngineMetatableName)) eq_refl)
        as (ms & Hfuncs & Hms & Hms')
  end.
  { norm_state. by rewrite lookup_insert_ne, lookup_insert_eq. }
  step ltac:(exact Hfuncs). clear Hfuncs. norm_state.
  step ltac:(reflexivity).
  match goal with
  | |- context [LTable ?a] =>
      lazymatch a with fresh_addr ?L' =>
        destruct (fresh_addr_spec L') as (Hix0 & _ & Hixr); set (ix := a) in *
      end
  end.
  norm_state.
  assert (Hixm : ix <> m).
  { intros Heq. by rewrite Heq, lookup_insert_eq in Hix0. }
  match goal with
  | |- context [bind (luaL_setfuncs _ _) _ ?L'] =>
      destruct (luaL_setfuncs_spec kEngineInstanceMethods L' (stack L ++ [LTable m]) ix
                  [] eq_refl)
        as (xs & Hfuncs & Hxs & _)
  end.
  { norm_state. by rewrite lookup_insert_eq. }
  step ltac:(exact Hfuncs). clear Hfuncs. norm_state.
  rewrite insert_insert_eq.
  step ltac:(eapply (lua_setfield_under_top _ (stack L) m (mkTable ms None)
                       "__index" (LTable ix));
             [ norm_state; by rewrite <- !app_assoc
             | norm_state; by rewrite lookup_insert_ne, lookup_insert_eq
             | by right ]).
  norm_state. cbn [t_nodes t_meta].
  rewrite (lua_pop_app 2 _ base [x; LTable m]);
    [| norm_state; by rewrite Hs, <- app_assoc | done].
  norm_state.
  rewrite lookup_insert_ne, lookup_insert_ne, lookup_insert_ne, lookup_insert_ne
    in Hix0 by congruence.
  assert (Hixpm : ix <> pm).
  { intros Heq. by rewrite Heq, lookup_insert_eq in Hix0. }
  rewrite lookup_insert_ne in Hix0 by done.
  assert (Hixmm : ix <> mm).
  { intros Heq. by rewrite Heq, lookup_insert_eq in Hix0. }
  clear Hix0. clearbody ix.
  exists pm, mm, m, ix. eexists. split; [reflexivity|].
  unfold free_list_ok, no_handler, handler_of, registry_get, table_get, table_nodes.
  norm_state.
  repeat first [rewrite lookup_insert_eq | rewrite lookup_insert_ne by congruence].
  cbn [t_nodes t_meta].
  repeat first [rewrite lookup_insert_eq | rewrite lookup_insert_ne by congruence].
  rewrite HR.
  split; [done|]. split; [done|]. split; [done|]. split; [done|].
  split; [by rewrite rawget_table_set_ne, rawget_table_set_eq|].
  split; [by rewrite rawget_table_set_eq|].
  split; [intros k Hk1 Hk2; by rewrite !rawget_table_set_ne|].
  split; [done|]. split; [done|].
  split; [by rewrite rawget_table_set_eq|].
  split.
  { eexists. split; [reflexivity|]. cbn [t_meta].
    repeat first [rewrite lookup_insert_eq | rewrite lookup_insert_ne by congruence].
    cbn [t_nodes]. by rewrite rawget_table_set_ne. }
  split.
  { eexists. split; [reflexivity|]. cbn [t_meta].
    repeat first [rewrite lookup_insert_eq | rewrite lookup_insert_ne by congruence].
    cbn [t_nodes]. by rewrite rawget_table_set_ne. }
  split.
  { rewrite rawget_table_set_ne by done.
    apply Hms; [apply (bool_decide_unpack _); by vm_compute | by left]. }
  split; [by rewrite rawget_table_set_eq|].
  split.
  { intros name f Hel. apply Hxs; [|done].
    apply (bool_decide_unpack _). by vm_compute. }
  rewrite !rawget_table_set_ne by done.
  rewrite (border_ext (t_nodes R) (table_set _ _ _ _)); [done|].
  intros n. by rewrite !rawget_table_set_ne.
Qed.

(** X13.  [ul_init_engines_lib], run on a registry without metatable that
    does not hold the engine metatable yet, registers the pointer map, an
    empty table whose metatable sets [__mode] to "v" and nothing else, so
    that it is accessed raw; and the engine metatable, whose [__gc] is
    [ul_close] and whose [__index] is a table that binds every name of
    [kEngineInstanceMethods] to its function.  No other entry of the
    registry changes, no userdata and no native state is touched.  The
    function ends with [lua_pop(L, 2)] while one table of its own is left
    on the stack ([ul_create_weak_table] leaving the one table it makes):
    the second value popped is the caller's. *)
Theorem ul_init_engines_lib_registers L base x R :
  stack L = base ++ [x] ->
  tables L !! l_registry L = Some R -> t_meta R = None ->
  registry_get L (LString kEngineMetatableName) = LNil ->
  exists pm mm m ix L1,
    ul_init_engines_lib node_pos L = Ok tt L1 /\
    stack L1 = base /\ trace L1 = trace L /\ udatas L1 = udatas L /\
    l_registry L1 = l_registry L /\
    registry_get L1 (LString kEnginePointerMapName) = LTable pm /\
    registry_get L1 (LString kEngineMetatableName) = LTable m /\
    (forall k, k <> LString kEnginePointerMapName ->
               k <> LString kEngineMetatableName ->
               registry_get L1 k = registry_get L k) /\
    pm <> l_registry L /\
    tables L1 !! pm = Some (mkTable [] (Some mm)) /\
    table_get L1 mm (LString "__mode") = LString "v" /\
    no_handler L1 pm "__index" /\ no_handler L1 pm "__newindex" /\
    table_get L1 m (LString "__gc") = LCFunction F_ul_close /\
    table_get L1 m (LString "__index") = LTable ix /\
    (forall name f, (name, f) ∈ kEngineInstanceMethods ->
                    table_get L1 ix (LString name) = LCFunction f) /\
    (free_list_ok L -> free_list_ok L1).
Proof. apply ul_init_engines_lib_spec. Qed.

End Init.

Section Load.
Variable node_pos : lua_Value -> list node -> nat.
Variable l_str2int : string -> option Z.

(** X14.  Loading composed with creation: in a host where the library has
    just been loaded by [ul_init_engines_lib], [ul_create_engine_object]
    succeeds on any handle other than [NULL]; the object it leaves on the
    stack is OPEN, the accessor resolves it to the handle, and the handle
    is found in the pointer map.  Neither step makes a native call. *)
Theorem loaded_library_makes_engines L base x R h :
  stack L = base ++ [x] ->
  tables L !! l_registry L = Some R -> t_meta R = None ->
  registry_get L (LString kEngineMetatableName) = LNil ->
  free_list_ok L ->
  h <> NULL ->
  exists w ref ht L1 L2,
    ul_init_engines_lib node_pos L = Ok tt L1 /\
    ul_create_engine_object node_pos l_str2int h L1 = Ok tt L2 /\
    stack L2 = base ++ [LUserdata w] /\
    trace L2 = trace L /\
    open_engine L2 w h ref ht [] /\
    ul_toengine (-1) L2 = Ok h L2 /\
    ul_get_engine_object h L2 = Ok tt (set_stack (stack L2 ++ [LUserdata w]) L2).
Proof.
  intros Hs HR HRm Hnil Hfree Hh.
  destruct (ul_init_engines_lib_spec node_pos L base x R Hs HR HRm Hnil)
    as (pm & mm & m & ix & L1 & Hinit & Hs1 & Htr1 & _ & Hr1 & Hpm & Hm & _ & Hpmr &
        _ & _ & _ & Hnew & _ & _ & _ & Hfree1).
  destruct (ul_create_engine_object_open node_pos l_str2int L1 h pm m Hh Hpm Hm
              ltac:(by rewrite Hr1) Hnew (Hfree1 Hfree))
    as (w & ref & ht & L2 & Hrun & Hs2 & Htr2 & _ & _ & Hopen & _ & _).
  exists w, ref, ht, L1, L2.
  split; [done|]. split; [done|]. split; [by rewrite Hs2, Hs1|].
  split; [congruence|]. split; [done|].
  destruct Hopen as (_ & (m' & HU & Hm') & _ & _ & _ & _ & _ & _ &
                     (pm' & Hpm' & Hreg & _) & _).
  split.
  - eapply (ul_toengine_open L2 (-1) w _ m' h); [|exact HU|done|done|done|done].
    by eapply (index2value_neg_app L2 (stack L1) [LUserdata w]).
  - by eapply ul_get_engine_object_found.
Qed.

End Load.

(** * The further properties at the concrete host *)

Lemma sample_snapshot_handle :
  engine_handle sample_snapshot 6%nat sample_handle.
Proof.
  split; [(vm_compute; discriminate)|].
  exists (mkUdata [Some sample_handle; Some 1] (Some 3%nat)), 3%nat.
  split; [vm_compute; reflexivity|].
  split; [reflexivity|].
  split; [reflexivity|].
  vm_compute; reflexivity.
Qed.

Lemma sample_two_engines_first :
  open_engine sample_two_engines 6%nat sample_handle 1 7%nat
    (map (fun k => (k, k)) (rev sample_hooks)).
Proof.
  split; [(vm_compute; discriminate)|].
  split; [exists 3%nat; split; vm_compute; reflexivity|].
  split; [reflexivity|].
  split; [vm_compute; reflexivity|].
  split; [vm_compute; reflexivity|].
  split; [by_decide|].
  split; [by_decide|].
  split; [(vm_compute; discriminate)|].
  split.
  { exists 1%nat.
    split; [vm_compute; reflexivity|].
    split; [vm_compute; reflexivity|].
    split; (vm_compute; discriminate). }
  vm_compute. eexists. reflexivity.
Qed.

Lemma sample_two_engines_second :
  open_engine sample_two_engines 8%nat 12288 2 9%nat [].
Proof.
  split; [(vm_compute; discriminate)|].
  split; [exists 3%nat; split; vm_compute; reflexivity|].
  split; [reflexivity|].
  split; [vm_compute; reflexivity|].
  split; [vm_compute; reflexivity|].
  split; [by_decide|].
  split; [by_decide|].
  split; [(vm_compute; discriminate)|].
  split.
  { exists 1%nat.
    split; [vm_compute; reflexivity|].
    split; [vm_compute; reflexivity|].
    split; (vm_compute; discriminate). }
  vm_compute. eexists. reflexivity.
Qed.

(** X1 at the sample snapshot: the Snapshot Object passed where an engine
    is expected. *)
Lemma engine_argument_is_checked_witness :
  let L := set_stack [LUserdata 8%nat] sample_snapshot in
  ul_toengine 1 L = Raise (ArgError 1 kEngineMetatableName) L /\
  ul_close hash_pos (sample_uc UC_ERR_OK) 1 L =
    Raise (ArgError 1 kEngineMetatableName) L.
Proof.
  destruct (engine_argument_is_checked hash_pos (sample_uc UC_ERR_OK)
              (set_stack [LUserdata 8%nat] sample_snapshot) 1 3%nat 1%nat
              ltac:(vm_compute; reflexivity)
              ltac:(vm_compute; exists (mkUdata [None] (Some 5%nat));
                    split; [reflexivity | discriminate]))
    as [Ha Hb].
  split; [exact Ha | exact (Hb eq_refl)].
Defined.

(** X2 at the sample engine: [engine:emu_start(4096, -1, nil, 100)]. *)
Lemma ul_emu_start_marshals_witness :
  let L := set_stack [LUserdata 6%nat; LInteger 4096; LInteger (-1); LNil; LInteger 100]
             (sample_engine hash_pos) in
  ul_emu_start no_str2int (sample_uc UC_ERR_OK) L =
  Ok 0 (emit (Ev_uc_emu_start sample_handle 4096 18446744073709551615 0 100) L).
Proof.
  exact (ul_emu_start_marshals no_str2int (sample_uc UC_ERR_OK)
           (set_stack [LUserdata 6%nat; LInteger 4096; LInteger (-1); LNil; LInteger 100]
              (sample_engine hash_pos))
           6%nat sample_handle 4096 (-1) [LNil; LInteger 100] eq_refl
           (engine_handle_set_stack _ _ _ _ sample_engine_handle) I I).
Defined.

(** X3 at the sample engine: [engine:emu_start()] and
    [engine:emu_start(4096)]. *)
Lemma ul_emu_start_requires_addresses_witness :
  ul_emu_start no_str2int (sample_uc UC_ERR_OK) (sample_engine hash_pos) =
    Raise (ArgError 2 "number") (sample_engine hash_pos) /\
  (let L := set_stack [LUserdata 6%nat; LInteger 4096] (sample_engine hash_pos) in
   ul_emu_start no_str2int (sample_uc UC_ERR_OK) L = Raise (ArgError 3 "number") L).
Proof.
  split.
  - apply (proj1 (ul_emu_start_requires_addresses no_str2int (sample_uc UC_ERR_OK)
                    (sample_engine hash_pos) 6%nat sample_handle sample_engine_handle)).
    vm_compute. reflexivity.
  - exact (proj2 (ul_emu_start_requires_addresses no_str2int (sample_uc UC_ERR_OK)
                    (set_stack [LUserdata 6%nat; LInteger 4096] (sample_engine hash_pos))
                    6%nat sample_handle
                    (engine_handle_set_stack _ _ _ _ sample_engine_handle))
             4096 eq_refl).
Defined.

(** X4 at the sample engine. *)
Lemma ul_errno_returns_the_code_witness :
  host_call (ul_errno (sample_uc UC_ERR_OK)) [LUserdata 6%nat] (sample_engine hash_pos) =
  Ok [LInteger UC_ERR_OK] (emit (Ev_uc_errno sample_handle) (sample_engine hash_pos)).
Proof.
  exact (ul_errno_returns_the_code (sample_uc UC_ERR_OK) (sample_engine hash_pos)
           6%nat [] sample_handle sample_engine_handle).
Defined.

(** X5 at the sample engine. *)
Lemma ul_emu_stop_translates_the_status_witness :
  ul_emu_stop (sample_uc UC_ERR_OK) (sample_engine hash_pos) =
  Ok 0 (emit (Ev_uc_emu_stop sample_handle) (sample_engine hash_pos)).
Proof.
  exact (ul_emu_stop_translates_the_status (sample_uc UC_ERR_OK)
           (sample_engine hash_pos) 6%nat [] sample_handle
           ltac:(vm_compute; reflexivity) sample_engine_handle).
Defined.

(** X6 at the sample snapshot: a restore of the Snapshot Object, and a
    restore without one. *)
Lemma ul_context_restore_behaviour_witness :
  ul_context_restore (sample_uc UC_ERR_OK) sample_snapshot =
    Ok 0 (emit (Ev_uc_context_restore sample_handle 8%nat) sample_snapshot) /\
  (let L := set_stack [LUserdata 6%nat] sample_snapshot in
   ul_context_restore (sample_uc UC_ERR_OK) L =
     Raise (ArgError 2 kContextMetatableName) L).
Proof.
  split.
  - apply (proj1 (ul_context_restore_behaviour (sample_uc UC_ERR_OK) sample_snapshot
                    6%nat sample_handle 5%nat sample_snapshot_handle
                    ltac:(vm_compute; reflexivity))
             8%nat (mkUdata [None] (Some 5%nat)) []);
      [vm_compute; reflexivity | vm_compute; reflexivity | reflexivity].
  - apply (proj2 (ul_context_restore_behaviour (sample_uc UC_ERR_OK)
                    (set_stack [LUserdata 6%nat] sample_snapshot)
                    6%nat sample_handle 5%nat
                    (engine_handle_set_stack _ _ _ _ sample_snapshot_handle)
                    ltac:(vm_compute; reflexivity))
             []);
      [reflexivity | vm_compute; exact I].
Defined.

(** X7 at the sample snapshot: [engine:context_save(snapshot, 7)]
    returns 7. *)
Lemma ul_context_save_returns_its_last_argument_witness :
  host_call (ul_context_save (sample_uc UC_ERR_OK))
    [LUserdata 6%nat; LUserdata 8%nat; LInteger 7] sample_snapshot =
  Ok [LInteger 7] (emit (Ev_uc_context_save sample_handle 8%nat) sample_snapshot).
Proof.
  exact (ul_context_save_returns_its_last_argument (sample_uc UC_ERR_OK)
           sample_snapshot 6%nat 8%nat (mkUdata [None] (Some 5%nat)) sample_handle
           5%nat [] (LInteger 7) sample_snapshot_handle
           ltac:(vm_compute; reflexivity) ltac:(vm_compute; reflexivity)
           eq_refl eq_refl).
Defined.

(** X8 at the sample engine, the library being out of memory. *)
Lemma ul_context_save_stops_when_allocation_fails_witness :
  exists L1,
    host_call (ul_context_save sample_uc_nomem) [LUserdata 6%nat]
      (sample_engine hash_pos) = Raise (NativeError 1) L1 /\
    trace L1 = trace (sample_engine hash_pos) ++ [Ev_uc_context_alloc sample_handle].
Proof.
  exact (ul_context_save_stops_when_allocation_fails sample_uc_nomem
           (sample_engine hash_pos) 6%nat sample_handle 5%nat sample_engine_handle
           ltac:(vm_compute; reflexivity) ltac:(vm_compute; discriminate)).
Defined.

(** X9 at the two sample engines: the first closed, with a native close
    that fails; the second stays OPEN. *)
Lemma close_leaves_other_engines_open_witness :
  exists L1,
    final_state (close_call hash_pos (sample_uc 3) 4 6%nat [] sample_two_engines)
      = Some L1 /\
    open_engine L1 8%nat 12288 2 9%nat [].
Proof.
  exact (close_leaves_other_engines_open hash_pos (sample_uc 3) sample_two_engines
           6%nat sample_handle 1 7%nat _ 8%nat 12288 2 9%nat [] [] 4%nat
           sample_two_engines_first sample_two_engines_second
           ltac:(vm_compute; discriminate) ltac:(vm_compute; discriminate)
           ltac:(vm_compute; discriminate) ltac:(vm_compute; discriminate)
           ltac:(vm_compute; lia)).
Defined.

(** X10 at the sample engine, the native close answering status 3. *)
Lemma close_after_failed_close_is_undefined_witness :
  exists L1,
    close_call hash_pos (sample_uc 3) 4 6%nat [] (sample_engine hash_pos) =
      Raise (NativeError 3) L1 /\
    close_call hash_pos (sample_uc 3) 4 6%nat [] L1 = Stuck.
Proof.
  exact (close_after_failed_close_is_undefined hash_pos (sample_uc 3)
           (sample_engine hash_pos) 6%nat sample_handle 1 7%nat _ [] [] 4%nat
           sample_engine_open
           ltac:(eexists; split; vm_compute; reflexivity)
           ltac:(vm_compute; reflexivity)
           ltac:(vm_compute; lia) ltac:(vm_compute; discriminate)).
Defined.

(** X11 at the loaded library. *)
Lemma ul_create_engine_object_opens_witness :
  exists w ref ht L1,
    ul_create_engine_object hash_pos no_str2int sample_handle (sample_loaded hash_pos)
      = Ok tt L1 /\
    stack L1 = stack (sample_loaded hash_pos) ++ [LUserdata w] /\
    open_engine L1 w sample_handle ref ht [].
Proof.
  destruct (ul_create_engine_object_opens hash_pos no_str2int (sample_loaded hash_pos)
              sample_handle 1%nat 3%nat
              ltac:(vm_compute; discriminate)
              ltac:(vm_compute; reflexivity) ltac:(vm_compute; reflexivity)
              ltac:(vm_compute; discriminate)
              ltac:(eexists; split; vm_compute; reflexivity)
              ltac:(vm_compute; reflexivity))
    as (w & ref & ht & L1 & Hrun & Hs & _ & _ & _ & Hopen & _).
  exists w, ref, ht, L1. split; [exact Hrun|]. split; [exact Hs | exact Hopen].
Defined.

(** X12 at the loaded library. *)
Lemma create_then_close_witness :
  exists w L1 L2,
    ul_create_engine_object hash_pos no_str2int sample_handle (sample_loaded hash_pos)
      = Ok tt L1 /\
    close_call hash_pos (sample_uc UC_ERR_OK) 1 w [] L1 = Ok [] L2 /\
    trace L2 = trace (sample_loaded hash_pos) ++ [Ev_uc_close sample_handle] /\
    closed_engine L2 w /\
    ul_get_engine_object sample_handle L2 =
      Raise (not_registered_error sample_handle) L2.
Proof.
  destruct (create_then_close hash_pos no_str2int (sample_uc UC_ERR_OK)
              (sample_loaded hash_pos) sample_handle 1%nat 3%nat [] 1%nat
              ltac:(vm_compute; discriminate)
              ltac:(vm_compute; reflexivity) ltac:(vm_compute; reflexivity)
              ltac:(vm_compute; discriminate)
              ltac:(eexists; split; vm_compute; reflexivity)
              ltac:(eexists; split; vm_compute; reflexivity)
              ltac:(vm_compute; reflexivity)
              eq_refl ltac:(vm_compute; lia))
    as (w & L1 & L2 & Hrun & Hclose & _ & Htr & Hclosed & Hgone).
  exists w, L1, L2. split; [exact Hrun|]. split; [exact Hclose|].
  split; [exact Htr|]. split; [exact Hclosed | exact Hgone].
Defined.

(** X13 at a new host state. *)
Lemma ul_init_engines_lib_registers_witness :
  exists pm m ix L1,
    ul_init_engines_lib hash_pos sample_newstate = Ok tt L1 /\
    stack L1 = [LString "unicorn"] /\
    registry_get L1 (LString kEnginePointerMapName) = LTable pm /\
    registry_get L1 (LString kEngineMetatableName) = LTable m /\
    table_get L1 m (LString "__gc") = LCFunction F_ul_close /\
    table_get L1 m (LString "__index") = LTable ix /\
    table_get L1 ix (LString "emu_start") = LCFunction F_ul_emu_start.
Proof.
  destruct (ul_init_engines_lib_registers hash_pos sample_newstate
              [LString "unicorn"] (LString "unicorn.so") (mkTable [] None)
              eq_refl ltac:(vm_compute; reflexivity) eq_refl
              ltac:(vm_compute; reflexivity))
    as (pm & mm & m & ix & L1 & Hrun & Hs & _ & _ & _ & Hpm & Hm & _ & _ & _ & _ & _ & _ &
        Hgc & Hix & Hmethods & _).
  exists pm, m, ix, L1. split; [exact Hrun|]. split; [exact Hs|].
  split; [exact Hpm|]. split; [exact Hm|]. split; [exact Hgc|]. split; [exact Hix|].
  apply Hmethods. unfold kEngineInstanceMethods.
  do 3 (apply elem_of_cons; right). apply elem_of_cons. left. reflexivity.
Defined.

(** X14 at a new host state. *)
Lemma loaded_library_makes_engines_witness :
  exists w ref ht L1 L2,
    ul_init_engines_lib hash_pos sample_newstate = Ok tt L1 /\
    ul_create_engine_object hash_pos no_str2int sample_handle L1 = Ok tt L2 /\
    stack L2 = [LString "unicorn"; LUserdata w] /\
    open_engine L2 w sample_handle ref ht [] /\
    ul_toengine (-1) L2 = Ok sample_handle L2.
Proof.
  destruct (loaded_library_makes_engines hash_pos no_str2int sample_newstate
              [LString "unicorn"] (LString "unicorn.so") (mkTable [] None) sample_handle
              eq_refl ltac:(vm_compute; reflexivity) eq_refl
              ltac:(vm_compute; reflexivity) ltac:(vm_compute; reflexivity)
              ltac:(vm_compute; discriminate))
    as (w & ref & ht & L1 & L2 & Hinit & Hrun & Hs & _ & Hopen & Hto & _).
  exists w, ref, ht, L1, L2. split; [exact Hinit|]. split; [exact Hrun|].
  split; [exact Hs|]. split; [exact Hopen | exact Hto].
Defined.
